(** * Marketing schedule tracker: the cadence-derivation core

    A shallow embedding of the derivation code of the single-file tracker
    component (row normalisation, channel classification, task derivation,
    monthly aggregation and cadence-group keys) and of the views computed
    from it (reminder weeks, weekly and monthly totals, the calendar grid,
    the campaign schedule and the cadence matrix), with the properties the
    specification states about it and further properties of the code.

    Modelling conventions.
    - A JavaScript string is a [string] of 8-bit characters.  Case mapping,
      white space and word characters are the ASCII ones; characters above
      127 have no case mapping and are neither white space nor word
      characters here.  On ASCII text ([Js.isAscii]) this is the behaviour
      of the host; what depends on case mapping or trimming is stated for
      such text.
    - A [Date] is a local calendar day, counted in days from 1970-01-01.
      The time of day is not modelled, so nothing is stated about the
      order of two tasks of one day that stem from different events.
    - A number is an exact rational ([Q], kept in lowest terms); [NaN] is a
      separate value.  Rounding and infinities of doubles are not modelled
      there: the sums are those of the code where double addition is exact
      ([Spec.exactCounts]).  The month summary is also given on doubles
      ([Doubles]), where rounding makes it depend on the order of the rows.
    - A raw row is a finite map from header names to cell strings, as the CSV
      reader delivers it; a missing key reads as [undefined].
    - The date parsers of the date library, the host's [Date] constructor and
      the host's string-to-number conversion are an interface ([Runtime]). *)

From Stdlib Require Import ZArith QArith Qabs Qcanon Ascii String List Bool
  Lia Lqa Permutation Sorted DecimalString DecimalZ.
From Stdlib Require PrimFloat.
From stdpp Require Import base option gmap strings list.

Local Open Scope Z_scope.

(* ===================================================================== *)
(** ** Characters and strings *)
(* ===================================================================== *)

Module Js.

Definition code (c : ascii) : Z := Z.of_N (N_of_ascii c).
Definition chr (z : Z) : ascii := ascii_of_N (Z.to_N z).

Definition isUpper (c : ascii) : bool := (65 <=? code c) && (code c <=? 90).
Definition isLower (c : ascii) : bool := (97 <=? code c) && (code c <=? 122).
Definition isDigit (c : ascii) : bool := (48 <=? code c) && (code c <=? 57).

(** [\w] of a regular expression without the unicode flag. *)
Definition isWord (c : ascii) : bool :=
  isUpper c || isLower c || isDigit c || (code c =? 95).

(** [\s], and the characters [trim] removes: tab, LF, VT, FF, CR, space. *)
Definition isSpace (c : ascii) : bool :=
  ((9 <=? code c) && (code c <=? 13)) || (code c =? 32).

(** Text of ASCII characters only: there the case mapping, the white space
    and the word characters of the host are the ones above. *)
Fixpoint isAscii (s : string) : bool :=
  match s with
  | EmptyString => true
  | String c s' => (code c <? 128) && isAscii s'
  end.

Definition lowerChar (c : ascii) : ascii :=
  if isUpper c then chr (code c + 32) else c.
Definition upperChar (c : ascii) : ascii :=
  if isLower c then chr (code c - 32) else c.

Fixpoint smap (f : ascii -> ascii) (s : string) : string :=
  match s with
  | EmptyString => EmptyString
  | String c s' => String (f c) (smap f s')
  end.

Definition toLowerCase : string -> string := smap lowerChar.
Definition toUpperCase : string -> string := smap upperChar.

Fixpoint trimStart (s : string) : string :=
  match s with
  | String c s' => if isSpace c then trimStart s' else s
  | EmptyString => EmptyString
  end.

Fixpoint trimEnd (s : string) : string :=
  match s with
  | EmptyString => EmptyString
  | String c s' =>
      match trimEnd s' with
      | EmptyString => if isSpace c then EmptyString else String c EmptyString
      | t => String c t
      end
  end.

Definition trim (s : string) : string := trimEnd (trimStart s).

Definition len (s : string) : Z := Z.of_nat (String.length s).

Fixpoint drop (n : nat) (s : string) : string :=
  match n, s with
  | S n', String _ s' => drop n' s'
  | _, _ => s
  end.

Fixpoint take (n : nat) (s : string) : string :=
  match n, s with
  | S n', String c s' => String c (take n' s')
  | _, _ => EmptyString
  end.

(** [s.slice(from)] and [s.slice(0, to)] for indices that are not negative. *)
Definition sliceFrom (s : string) (from : Z) : string := drop (Z.to_nat from) s.
Definition sliceTo (s : string) (to : Z) : string := take (Z.to_nat to) s.

Fixpoint startsWith (needle s : string) : bool :=
  match needle, s with
  | EmptyString, _ => true
  | String a n', String b s' => Ascii.eqb a b && startsWith n' s'
  | String _ _, EmptyString => false
  end.

(** [s.lastIndexOf(needle)]: the greatest index at which [needle] occurs,
    [-1] when there is none.  [i] is the index of the head of [s]. *)
Fixpoint lastIndexFrom (needle s : string) (i : Z) : Z :=
  match s with
  | EmptyString => if startsWith needle EmptyString then i else -1
  | String _ s' =>
      let later := lastIndexFrom needle s' (i + 1) in
      if 0 <=? later then later
      else if startsWith needle s then i else -1
  end.

Definition lastIndexOf (s needle : string) : Z := lastIndexFrom needle s 0.

(** Comparison of strings by code units: the order of [<], [<=] on strings.
    On month keys (digits and hyphens) [localeCompare] orders the same way. *)
Fixpoint compare (a b : string) : comparison :=
  match a, b with
  | EmptyString, EmptyString => Eq
  | EmptyString, String _ _ => Lt
  | String _ _, EmptyString => Gt
  | String x a', String y b' =>
      match Z.compare (code x) (code y) with
      | Eq => compare a' b'
      | o => o
      end
  end.

Definition geb (a b : string) : bool :=
  match compare a b with Lt => false | _ => true end.
Definition leb (a b : string) : bool :=
  match compare a b with Gt => false | _ => true end.

(** The sign of [a.localeCompare(b)]. *)
Definition localeCompare (a b : string) : Z :=
  match compare a b with Lt => -1 | Eq => 0 | Gt => 1 end.

(** [String(n)] for an integer [n]. *)
Definition ofZ (z : Z) : string := NilEmpty.string_of_int (Z.to_int z).

Fixpoint repeatChar (c : ascii) (n : nat) : string :=
  match n with
  | O => EmptyString
  | S n' => String c (repeatChar c n')
  end.

(** [s.padStart(width, "0")]. *)
Definition padStart0 (s : string) (width : nat) : string :=
  String.append (repeatChar "0"%char (width - String.length s)) s.

(** [parts.filter(Boolean).join(sep)] for two parts. *)
Definition joinNonEmpty (a b sep : string) : string :=
  match a, b with
  | EmptyString, _ => b
  | _, EmptyString => a
  | _, _ => String.append a (String.append sep b)
  end.

End Js.

(* ===================================================================== *)
(** ** Regular expressions

    The fragment the classifier's literals use: literal words, the classes
    [\s] and [[-\s]], the assertion [\b], sequence, alternation, [?] and [*].
    Groups only delimit alternations, since [test] ignores captures. *)
(* ===================================================================== *)

Module Regex.

Inductive citem : Type :=
  | CChar (c : ascii)
  | CSpace.

Inductive regex : Type :=
  | Lit (w : string)
  | Class (items : list citem)
  | WordB
  | Seq (r1 r2 : regex)
  | Alt (r1 r2 : regex)
  | Opt (r : regex)
  | Star (r : regex).

(** A position in the subject: the character before it and what follows. *)
Record cursor : Type := Cursor { prev : option ascii; rest : string }.

Definition wordBefore (c : cursor) : bool :=
  match prev c with Some a => Js.isWord a | None => false end.
Definition wordAfter (c : cursor) : bool :=
  match rest c with String a _ => Js.isWord a | EmptyString => false end.
Definition atBoundary (c : cursor) : bool := xorb (wordBefore c) (wordAfter c).

Definition inItem (a : ascii) (i : citem) : bool :=
  match i with
  | CChar c => Ascii.eqb c a
  | CSpace => Js.isSpace a
  end.

Fixpoint matchLit (w : string) (c : cursor) : option cursor :=
  match w with
  | EmptyString => Some c
  | String x w' =>
      match rest c with
      | String a s' =>
          if Ascii.eqb x a then matchLit w' (Cursor (Some a) s') else None
      | EmptyString => None
      end
  end.

(** Backtracking matcher in continuation-passing style: [rmatch r k c] holds
    when [r] matches at [c] in some way after which [k] accepts.  The left
    operand of a choice is tried first, [?] and [*] are greedy, and an
    iteration of [*] that consumes nothing is rejected. *)
Fixpoint rmatch (r : regex) (k : cursor -> bool) (c : cursor) : bool :=
  match r with
  | Lit w => match matchLit w c with Some c' => k c' | None => false end
  | Class items =>
      match rest c with
      | String a s' =>
          if existsb (inItem a) items then k (Cursor (Some a) s') else false
      | EmptyString => false
      end
  | WordB => if atBoundary c then k c else false
  | Seq r1 r2 => rmatch r1 (rmatch r2 k) c
  | Alt r1 r2 => rmatch r1 k c || rmatch r2 k c
  | Opt r1 => rmatch r1 k c || k c
  | Star r1 =>
      (fix loop (fuel : nat) (c : cursor) {struct fuel} : bool :=
         match fuel with
         | O => k c
         | S fuel' =>
             rmatch r1
               (fun c' =>
                  if (String.length (rest c') <? String.length (rest c))%nat
                  then loop fuel' c' else false) c
             || k c
         end) (String.length (rest c)) c
  end.

Fixpoint testFrom (r : regex) (p : option ascii) (s : string) : bool :=
  rmatch r (fun _ => true) (Cursor p s)
  || match s with
     | EmptyString => false
     | String a s' => testFrom r (Some a) s'
     end.

(** [re.test(s)] for a literal without flags. *)
Definition test (r : regex) (s : string) : bool := testFrom r None s.

Fixpoint seq (rs : list regex) : regex :=
  match rs with
  | [] => Lit EmptyString
  | [r] => r
  | r :: rs' => Seq r (seq rs')
  end.

Fixpoint alt (r : regex) (rs : list regex) : regex :=
  match rs with
  | [] => r
  | r' :: rs' => Alt r (alt r' rs')
  end.

(** [\b(r)\b]: [r] between two word boundaries. *)
Definition token (r : regex) : regex := seq [WordB; r; WordB].

End Regex.

(* ===================================================================== *)
(** ** Calendar days *)
(* ===================================================================== *)

(** A [Date] is a local calendar day: the number of days since 1970-01-01 in
    the proleptic Gregorian calendar.  Time of day is not modelled. *)
Definition Date : Type := Z.

Module Cal.

(** Day number of the civil date [y]-[m]-[d], [m] counted from 1. *)
Definition daysFromCivil (y m d : Z) : Date :=
  let y' := if m <=? 2 then y - 1 else y in
  let era := y' / 400 in
  let yoe := y' - era * 400 in
  let doy := (153 * (if 2 <? m then m - 3 else m + 9) + 2) / 5 + d - 1 in
  let doe := yoe * 365 + yoe / 4 - yoe / 100 + doy in
  era * 146097 + doe - 719468.

(** Day of the 400-year era, year of the era, and day and month of the year
    that starts in March. *)
Definition dayOfEra (z : Date) : Z := (z + 719468) mod 146097.
Definition yearOfEra (doe : Z) : Z :=
  (doe - doe / 1460 + doe / 36524 - doe / 146096) / 365.
Definition dayOfYear (doe : Z) : Z :=
  let yoe := yearOfEra doe in doe - (365 * yoe + yoe / 4 - yoe / 100).
Definition marchMonth (doe : Z) : Z := (5 * dayOfYear doe + 2) / 153.

(** [getMonth]: 0 for January up to 11 for December. *)
Definition getMonth (z : Date) : Z :=
  let mp := marchMonth (dayOfEra z) in
  if mp <? 10 then mp + 2 else mp - 10.

(** [getDate]: the day of the month. *)
Definition getDate (z : Date) : Z :=
  let doe := dayOfEra z in
  dayOfYear doe - (153 * marchMonth doe + 2) / 5 + 1.

(** [getYear] of the date library: the full year. *)
Definition getYear (z : Date) : Z :=
  let doe := dayOfEra z in
  let y := yearOfEra doe + ((z + 719468) / 146097) * 400 in
  if getMonth z <=? 1 then y + 1 else y.

Definition addDays (d : Date) (amount : Z) : Date := d + amount.

(** [addLeadingZeros] of the date library. *)
Definition addLeadingZeros (n : Z) (targetLength : nat) : string :=
  String.append (if n <? 0 then "-" else "")
                (Js.padStart0 (Js.ofZ (Z.abs n)) targetLength).

(** [format(d, 'yyyy-MM-dd')]. *)
Definition formatISO (d : Date) : string :=
  let signedYear := getYear d in
  let year := if 0 <? signedYear then signedYear else 1 - signedYear in
  String.append (addLeadingZeros year 4)
    (String.append "-"
       (String.append (addLeadingZeros (getMonth d + 1) 2)
          (String.append "-" (addLeadingZeros (getDate d) 2)))).

Definition isLeap (y : Z) : bool :=
  ((y mod 4 =? 0) && negb (y mod 100 =? 0)) || (y mod 400 =? 0).

Definition daysInMonth (y m : Z) : Z :=
  if m =? 2 then (if isLeap y then 29 else 28)
  else if (m =? 4) || (m =? 6) || (m =? 9) || (m =? 11) then 30 else 31.

End Cal.

(* ===================================================================== *)
(** ** Values, numbers and the host interface *)
(* ===================================================================== *)

(** What [tryParseDate] can be handed: [undefined], a string, or a date. *)
Inductive JsValue : Type :=
  | JUndefined
  | JString (s : string)
  | JDate (d : Date).

Definition truthy (v : JsValue) : bool :=
  match v with
  | JUndefined => false
  | JString s => negb (String.eqb s "")
  | JDate _ => true
  end.

(** [a || b]. *)
Definition jsOr (a b : JsValue) : JsValue := if truthy a then a else b.

(** [v || dflt] for a cell [v] and a string [dflt]: a string either way,
    which [String(...)] leaves as it is. *)
Definition stringOr (v : JsValue) (dflt : string) : string :=
  match jsOr v (JString dflt) with
  | JString s => s
  | _ => dflt
  end.

Inductive num : Type :=
  | NaN
  | Fin (q : Q).

(** [n || 0]. *)
Definition orZero (n : num) : Q :=
  match n with
  | NaN => 0%Q
  | Fin q => if Qeq_bool q 0 then 0%Q else q
  end.

Definition numAdd (a b : Q) : Q := Qred (a + b).

(** The library and host functions the derivation calls: [None] stands for
    an invalid date (or a thrown error, which the caller swallows). *)
Class Runtime : Type := {
  parse : string -> string -> Date -> option Date;
  parseISO : string -> option Date;
  newDate : string -> option Date;
  StringToNumber : string -> num;
}.

(** A raw row: header name to cell text. *)
Abbreviation RawRow := (gmap string string).

(** [r[k]]. *)
Definition get (r : RawRow) (k : string) : JsValue :=
  match r !! k with
  | Some s => JString s
  | None => JUndefined
  end.

(** [Number(v)].  A date converts to its time value in milliseconds; the
    cells of a row are never dates. *)
Definition Number `{Runtime} (v : JsValue) : num :=
  match v with
  | JUndefined => NaN
  | JString s => StringToNumber s
  | JDate d => Fin (inject_Z (d * 86400000))
  end.

(* ===================================================================== *)
(** ** Sorting and insertion-ordered maps *)
(* ===================================================================== *)

Section Sort.
Context {A : Type} (cmp : A -> A -> Z).

(** [x] goes before the first element it does not exceed. *)
Fixpoint insertBy (x : A) (l : list A) : list A :=
  match l with
  | [] => [x]
  | y :: l' => if 0 <? cmp x y then y :: insertBy x l' else x :: l
  end.

(** [arr.sort(cmp)]: a stable sort. *)
Definition sortBy (l : list A) : list A := foldr insertBy [] l.
End Sort.

Section JsMap.
Context {V : Type}.

(** A [Map] with string keys, entries in insertion order. *)
Fixpoint mapGet (m : list (string * V)) (k : string) : option V :=
  match m with
  | [] => None
  | (k', v) :: m' => if String.eqb k' k then Some v else mapGet m' k
  end.

Fixpoint mapSet (m : list (string * V)) (k : string) (v : V)
  : list (string * V) :=
  match m with
  | [] => [(k, v)]
  | (k', v') :: m' =>
      if String.eqb k' k then (k', v) :: m' else (k', v') :: mapSet m' k v
  end.
End JsMap.

(* ===================================================================== *)
(** ** The tracker *)
(* ===================================================================== *)

Module Tracker.
Import Js Regex Cal.

(** *** Utilities *)

(** [ordinal(n)]: [s[(v-20)%10] || s[v] || s[0]] with [v = n % 100]; an
    index outside the array reads [undefined]. *)
Definition suffixAt (i : Z) : option string :=
  if i <? 0 then None else nth_error ["th"; "st"; "nd"; "rd"] (Z.to_nat i).

Definition ordinal (n : Z) : string :=
  let v := Z.rem n 100 in
  let suffix :=
    match suffixAt (Z.rem (v - 20) 10) with
    | Some s => s
    | None => match suffixAt v with Some s => s | None => "th" end
    end in
  String.append (ofZ n) suffix.

Fixpoint digitsOf (s : string) : string :=
  match s with
  | EmptyString => EmptyString
  | String ch s' => if isDigit ch then String ch (digitsOf s') else digitsOf s'
  end.

(** [parseInt(digits, 10)] on a string of decimal digits; [None] is [NaN]. *)
Definition parseDigits (digits : string) : option Z :=
  match digits with
  | EmptyString => None
  | _ => Some (fold_left (fun acc ch => 10 * acc + (code ch - 48))
                 (list_ascii_of_string digits) 0)
  end.

(** [inferBatchNum(part, batch)]; [None] is [null]. *)
Definition inferBatchNum (part batch : string) : option Z :=
  let pick := String.append part (String.append " " batch) in
  let digits := digitsOf pick in
  parseDigits digits.

Definition stageForBatch (n : option Z) : string :=
  match n with
  | None => "Initial"
  | Some n =>
      if (n =? 0) || (n <=? 1) then "Initial"
      else if 5 <=? n then "Final"
      else String.append (ordinal n) " Follow-up"
  end.

Definition tryFormats : list string :=
  [ "yyyy-MM-dd"; "MMM d, yyyy"; "MMMM d, yyyy"; "M/d/yyyy"; "MM/dd/yyyy";
    "M/d/yy"; "MM/dd/yy" ].

Section WithRuntime.
Context `{Runtime}.

(** The loop over [tryFormats]; [now] is the reference date [new Date()]. *)
Fixpoint firstFormat (fs : list string) (asStr : string) (now : Date)
  : option Date :=
  match fs with
  | [] => None
  | f :: fs' =>
      match parse asStr f now with
      | Some d => Some d
      | None => firstFormat fs' asStr now
      end
  end.

(** [tryParseDate(value)]; [None] is [null]. *)
Definition tryParseDate (now : Date) (value : JsValue) : option Date :=
  if negb (truthy value) then None
  else
    match value with
    | JDate d => Some d
    | JUndefined => None
    | JString s =>
        let asStr := trim s in
        match firstFormat tryFormats asStr now with
        | Some d => Some d
        | None =>
            match parseISO asStr with
            | Some iso => Some iso
            | None => newDate asStr
            end
        end
    end.

End WithRuntime.

(** *** Channel classification *)

Definition dashOrSpace : regex := Class [CChar "-"; CSpace].
Definition voiceMail : regex := seq [Lit "voice"; Star (Class [CSpace]); Lit "mail"].

(** [/\bno[-\s]?mail\b/] *)
Definition reNoMail : regex :=
  seq [WordB; Lit "no"; Opt dashOrSpace; Lit "mail"; WordB].
(** [/\bmail\b/] *)
Definition reMail : regex := token (Lit "mail").
(** [/\b(text|sms)\b/] *)
Definition reText : regex := token (alt (Lit "text") [Lit "sms"]).
(** [/\b(voicemail|voice\s*mail|vm|vmail)\b/] *)
Definition reVm : regex :=
  token (alt (Lit "voicemail") [voiceMail; Lit "vm"; Lit "vmail"]).
(** [/\b(mail|text|sms|voicemail|voice\s*mail|vm|vmail)\b/] *)
Definition reAny : regex :=
  token
    (alt (Lit "mail")
       [Lit "text"; Lit "sms"; Lit "voicemail"; voiceMail; Lit "vm";
        Lit "vmail"]).
(** [/\bno[-\s]?(text|sms)\b/] *)
Definition reNoText : regex :=
  seq [WordB; Lit "no"; Opt dashOrSpace; alt (Lit "text") [Lit "sms"]; WordB].
(** [/\bno[-\s]?(voicemail|voice\s*mail|vm|vmail)\b/] *)
Definition reNoVM : regex :=
  seq [WordB; Lit "no"; Opt dashOrSpace;
       alt (Lit "voicemail") [voiceMail; Lit "vm"; Lit "vmail"]; WordB].

Record Flags : Type := { fMail : bool; fText : bool; fVM : bool }.

(** The flag computation of the row mapper, on the search string [src]; each
    [let] that rebinds a name is an assignment of the source. *)
Definition channelFlags (src : string) : Flags :=
  let hasNoMailTag := test reNoMail src in
  let hasMailToken := test reMail src in
  let hasTextToken := test reText src in
  let hasVmToken := test reVm src in
  let anyToken := test reAny src in
  let noText := test reNoText src in
  let noVM := test reNoVM src in
  let hasMail := hasMailToken && negb hasNoMailTag in
  let hasText := hasTextToken in
  let hasVM := hasVmToken in
  let '(hasMail, hasText, hasVM) :=
    if negb anyToken then (negb hasNoMailTag, true, true)
    else (hasMail, hasText, hasVM) in
  let hasText := if hasMail && negb noText then true else hasText in
  let hasVM := if hasMail && negb noVM then true else hasVM in
  let hasText := if noText then false else hasText in
  let hasVM := if noVM then false else hasVM in
  {| fMail := hasMail; fText := hasText; fVM := hasVM |}.

(** [tagsStr + ' ' + channelsStr]. *)
Definition searchString (r : RawRow) : string :=
  let tagsStr := toLowerCase (stringOr (get r "Tags") "") in
  let channelsStr := toLowerCase (stringOr (get r "Channels") "") in
  String.append tagsStr (String.append " " channelsStr).

(** *** Normalised rows *)

(** The object the row mapper returns; [D] is the type of [mailDate]:
    [option Date] out of the mapper, [Date] once the filter has passed. *)
Record Row (D : Type) : Type := {
  id : nat;
  raw : RawRow;
  mailDate : D;
  hasMail : bool;
  hasText : bool;
  hasVM : bool;
  count : Q;
  campaign : string;
  category : string;
  part : string;
  batch : string;
  batchNum : option Z;
  cost : Q;
}.
Arguments id {D} _.
Arguments raw {D} _.
Arguments mailDate {D} _.
Arguments hasMail {D} _.
Arguments hasText {D} _.
Arguments hasVM {D} _.
Arguments count {D} _.
Arguments campaign {D} _.
Arguments category {D} _.
Arguments part {D} _.
Arguments batch {D} _.
Arguments batchNum {D} _.
Arguments cost {D} _.

Abbreviation MappedRow := (Row (option Date)).
Abbreviation NormalizedEvent := (Row Date).

(** [.filter((r) => r.mailDate)] on one mapped row. *)
Definition withDate (r : MappedRow) : option NormalizedEvent :=
  match mailDate r with
  | Some d =>
      Some {| id := id r; raw := raw r; mailDate := d; hasMail := hasMail r;
              hasText := hasText r; hasVM := hasVM r; count := count r;
              campaign := campaign r; category := category r; part := part r;
              batch := batch r; batchNum := batchNum r; cost := cost r |}
  | None => None
  end.

Section WithRuntime.
Context `{Runtime}.

(** [r["Red - Adjusted Dates"] || r.Date] *)
Definition dateCell (r : RawRow) : JsValue :=
  jsOr (get r "Red - Adjusted Dates") (get r "Date").

(** The callback of [rows.map]. *)
Definition mapRow (now : Date) (i : nat) (r : RawRow) : MappedRow :=
  let mailDate := tryParseDate now (dateCell r) in
  let flags := channelFlags (searchString r) in
  let part := stringOr (get r "Part") "" in
  let batch := stringOr (get r "Batch") "" in
  let batchNum := inferBatchNum part batch in
  {| id := i;
     raw := r;
     mailDate := mailDate;
     hasMail := fMail flags;
     hasText := fText flags;
     hasVM := fVM flags;
     count := orZero (Number (get r "Count"));
     campaign := stringOr (get r "Campaign") "(Unnamed)";
     category := stringOr (get r "Category") "";
     part := part;
     batch := batch;
     batchNum := batchNum;
     cost := orZero (Number (get r "Cost")) |}.

(** [data]: the rows mapped, then those without a date filtered out. *)
Definition data (now : Date) (rows : list RawRow) : list NormalizedEvent :=
  omap withDate (imap (mapRow now) rows).

End WithRuntime.

(** The built-in rows; the numeric [Count] cells are written as the strings
    [Number] reads back to the same numbers. *)
Definition sampleRows : list RawRow :=
  [ list_to_map
      [("Date", "2025-08-26"); ("Campaign", "DM3-B"); ("Category", "FL");
       ("Part", "Batch 2"); ("Batch", "B2"); ("Count", "2444"); ("Cost", "");
       ("Channels", "Mail,Text,Voicemail")];
    list_to_map
      [("Date", "2025-09-02"); ("Campaign", "DM3-B"); ("Category", "FL");
       ("Part", "Batch 3"); ("Batch", "B3"); ("Count", "2117"); ("Cost", "");
       ("Channels", "Mail,Text,Voicemail")];
    list_to_map
      [("Date", "2025-09-09"); ("Campaign", "DM3-B"); ("Category", "FL");
       ("Part", "Batch 4"); ("Batch", "B4"); ("Count", "2524"); ("Cost", "");
       ("Channels", "Mail,Text,Voicemail")];
    list_to_map
      [("Date", "2025-09-16"); ("Campaign", "DM3-B"); ("Category", "FL");
       ("Part", "Batch 5"); ("Batch", "B5"); ("Count", "2091"); ("Cost", "");
       ("Channels", "Mail,Text,Voicemail")];
    list_to_map
      [("Date", "2025-09-23"); ("Campaign", "LC/Text-Only – Promo");
       ("Category", "OK"); ("Part", "Wave 1"); ("Batch", "W1");
       ("Count", "1800"); ("Cost", ""); ("Channels", "Text,Voicemail");
       ("Tags", "NoMail")] ].

(** *** Tasks *)

Inductive TaskType : Type := mail | text | vm.

Definition typeName (t : TaskType) : string :=
  match t with mail => "mail" | text => "text" | vm => "vm" end.

(** A pushed item.  [tcount] is the item's [count] ([base.count]); [stage]
    is present on text and voicemail items only. *)
Record Task : Type := {
  tcount : Q;
  ref : NormalizedEvent;
  type : TaskType;
  date : Date;
  idKey : string;
  stage : option string;
  label : string;
}.

(** The template [`${type}|${format(date, 'yyyy-MM-dd')}|${r.campaign}|${r.part}|${r.batch}`]. *)
Definition idKeyOf (type : TaskType) (date : Date) (r : NormalizedEvent)
  : string :=
  String.append (typeName type)
    (String.append "|"
       (String.append (formatISO date)
          (String.append "|"
             (String.append (campaign r)
                (String.append "|"
                   (String.append (part r)
                      (String.append "|" (batch r)))))))).

(** The template [`Mail • ${r.campaign}${partBatch ? ` • ${partBatch}` : ""}`]. *)
Definition labelOf (head : string) (r : NormalizedEvent) (partBatch : string)
  : string :=
  String.append head
    (String.append " • "
       (String.append (campaign r)
          (if String.eqb partBatch "" then ""
           else String.append " • " partBatch))).

(** The body of [for (const r of data)]: [items] is the array before the
    iteration, the result the array after it. *)
Definition pushTasks (items : list Task) (r : NormalizedEvent) : list Task :=
  let t0 := mailDate r in
  let follow := if hasMail r then addDays t0 13 else t0 in
  let partBatch := joinNonEmpty (part r) (batch r) " • " in
  let items :=
    if hasMail r then
      let date := t0 in
      let type := mail in
      items ++ [ {| tcount := count r; ref := r; type := type; date := date;
                    idKey := idKeyOf type date r; stage := None;
                    label := labelOf "Mail" r partBatch |} ]
    else items in
  let items :=
    if hasText r then
      let date := follow in
      let type := text in
      items ++ [ {| tcount := count r; ref := r; type := type; date := date;
                    idKey := idKeyOf type date r;
                    stage := Some (stageForBatch (batchNum r));
                    label := labelOf "Text" r partBatch |} ]
    else items in
  let items :=
    if hasVM r then
      let date := follow in
      let type := vm in
      items ++ [ {| tcount := count r; ref := r; type := type; date := date;
                    idKey := idKeyOf type date r;
                    stage := Some (stageForBatch (batchNum r));
                    label := labelOf "VM" r partBatch |} ]
    else items in
  items.

(** [tasks]: every event's items, sorted by [a.date - b.date]. *)
Definition tasks (data : list NormalizedEvent) : list Task :=
  sortBy (fun a b => date a - date b) (fold_left pushTasks data []).

(** *** Month summaries *)

Record MonthTotal : Type := { key : string; total : Q }.

(** [`${getYear(d)}-${String(getMonth(d) + 1).padStart(2, "0")}`] *)
Definition monthKey (d : Date) : string :=
  String.append (ofZ (getYear d))
    (String.append "-" (padStart0 (ofZ (getMonth d + 1)) 2)).

(** [map.get(key) || 0] *)
Definition getOrZero (v : option Q) : Q :=
  match v with
  | Some q => if Qeq_bool q 0 then 0%Q else q
  | None => 0%Q
  end.

(** The body of the loop that fills [map]. *)
Definition addMonth (map : list (string * Q)) (r : NormalizedEvent)
  : list (string * Q) :=
  if negb (hasMail r) then map
  else
    let key := monthKey (mailDate r) in
    mapSet map key (numAdd (getOrZero (mapGet map key)) (count r)).

Definition monthAgg (data : list NormalizedEvent) : list MonthTotal :=
  sortBy (fun a b => localeCompare (key a) (key b))
    (map (fun '(key, total) => {| key := key; total := total |})
       (fold_left addMonth data [])).

(** *** Cadence group keys *)

(** The scan of [part] for the first character whose upper case lies
    between "A" and "Z"; the empty string when there is none. *)
Fixpoint firstLetter (p : string) : string :=
  match p with
  | EmptyString => ""
  | String c p' =>
      let ch := String (upperChar c) "" in
      if geb ch "A" && leb ch "Z" then ch else firstLetter p'
  end.

(** [build(campaign, part)] of the start-up checks; the loop of the cadence
    matrix computes its [key] by the same statements. *)
Definition build (campaign part : string) : string :=
  let base := trim campaign in
  let idx := lastIndexOf base " - " in
  let base :=
    if (-1 <? idx) && (idx + 3 <=? len base) then
      let suf := trim (sliceFrom base (idx + 3)) in
      let C := toUpperCase suf in
      if (len suf =? 1) && geb C "A" && leb C "Z" then sliceTo base idx
      else base
    else base in
  let letter := firstLetter part in
  if negb (String.eqb letter "")
  then String.append base (String.append " - " letter)
  else base.

Definition groupKey (r : NormalizedEvent) : string :=
  build (campaign r) (part r).

(** [groups]: the events of each key, in their order in [data]. *)
Definition addToGroup (groups : list (string * list NormalizedEvent))
  (r : NormalizedEvent) : list (string * list NormalizedEvent) :=
  let key := groupKey r in
  let arr := match mapGet groups key with Some a => a | None => [] end in
  mapSet groups key (arr ++ [r]).

Definition cadenceGroups (data : list NormalizedEvent)
  : list (string * list NormalizedEvent) :=
  fold_left addToGroup data [].

End Tracker.

(* ===================================================================== *)
(** ** A reference host

    A small host used to run the derivation on concrete rows: it reads
    [yyyy-MM-dd] dates and plain decimal numbers the way the library and the
    host do, and reads nothing else. *)
(* ===================================================================== *)

Module Reference.
Import Js Cal.

Fixpoint allDigits (s : string) : bool :=
  match s with
  | EmptyString => true
  | String c s' => isDigit c && allDigits s'
  end.

Definition digitsToZ (s : string) : Z :=
  fold_left (fun acc ch => 10 * acc + (code ch - 48))
    (list_ascii_of_string s) 0.

(** Four digits, a hyphen, two digits, a hyphen, two digits, naming a day
    that exists. *)
Definition parseYMD (s : string) : option Date :=
  let ys := substring 0 4 s in
  let ms := substring 5 2 s in
  let ds := substring 8 2 s in
  if (String.length s =? 10)%nat
     && String.eqb (substring 4 1 s) "-" && String.eqb (substring 7 1 s) "-"
     && allDigits ys && allDigits ms && allDigits ds
  then
    let y := digitsToZ ys in
    let m := digitsToZ ms in
    let d := digitsToZ ds in
    if (1 <=? m) && (m <=? 12) && (1 <=? d) && (d <=? daysInMonth y m)
    then Some (daysFromCivil y m d) else None
  else None.

Fixpoint splitDot (s : string) : string * option string :=
  match s with
  | EmptyString => (EmptyString, None)
  | String c s' =>
      if Ascii.eqb c "." then (EmptyString, Some s')
      else let '(a, b) := splitDot s' in (String c a, b)
  end.

(** An unsigned decimal literal: digits, optionally a dot and digits. *)
Definition unsignedDecimal (s : string) : num :=
  let '(ip, fp) := splitDot s in
  let fp := match fp with Some f => f | None => EmptyString end in
  if allDigits ip && allDigits fp
     && negb (String.eqb (String.append ip fp) "")
  then
    Fin (Qred (Qmake (digitsToZ (String.append ip fp))
                 (Z.to_pos (10 ^ Z.of_nat (String.length fp)))))
  else NaN.

Definition negate (n : num) : num :=
  match n with NaN => NaN | Fin q => Fin (Qred (- q)) end.

Definition decimalNumber (s : string) : num :=
  match trim s with
  | EmptyString => Fin 0
  | String "-" u => negate (unsignedDecimal u)
  | String "+" u => unsignedDecimal u
  | t => unsignedDecimal t
  end.

#[export] Instance host : Runtime := {|
  parse := fun asStr f _ =>
    if String.eqb f "yyyy-MM-dd" then parseYMD asStr else None;
  parseISO := parseYMD;
  newDate := fun _ => None;
  StringToNumber := decimalNumber;
|}.

(** Rows are written as lists of cells. *)
Definition row (cells : list (string * string)) : RawRow := list_to_map cells.

End Reference.

(* ===================================================================== *)
(** ** The specification's wording *)
(* ===================================================================== *)

Module Spec.
Import Js Regex Cal Tracker.

(** The five rules of the channel classifier as the specification lists
    them, each a step on the flags. *)
Definition rule1 (noMailTag mailToken textToken vmToken : bool) : Flags :=
  {| fMail := mailToken && negb noMailTag; fText := textToken;
     fVM := vmToken |}.

Definition rule2 (noneMatched noMailTag : bool) (f : Flags) : Flags :=
  if noneMatched
  then {| fMail := negb noMailTag; fText := true; fVM := true |}
  else f.

Definition rule3 (noText : bool) (f : Flags) : Flags :=
  if fMail f && negb noText
  then {| fMail := fMail f; fText := true; fVM := fVM f |} else f.

Definition rule4 (noVM : bool) (f : Flags) : Flags :=
  if fMail f && negb noVM
  then {| fMail := fMail f; fText := fText f; fVM := true |} else f.

Definition rule5 (noText noVM : bool) (f : Flags) : Flags :=
  {| fMail := fMail f;
     fText := if noText then false else fText f;
     fVM := if noVM then false else fVM f |}.

(** Rule 2 applies when none of the mail, text and voicemail token classes
    matched. *)
Definition fiveRules (noMailTag mailToken textToken vmToken noText noVM : bool)
  : Flags :=
  let noneMatched := negb (mailToken || textToken || vmToken) in
  rule5 noText noVM
    (rule4 noVM
       (rule3 noText
          (rule2 noneMatched noMailTag
             (rule1 noMailTag mailToken textToken vmToken)))).

(** An ASCII letter of either case. *)
Definition isLetter (c : ascii) : bool := isUpper c || isLower c.

(** The campaign group identity as the specification words it: a final
    [" - X"] with [X] an upper-case letter is removed, then the first letter
    of [part], in upper case, is appended after [" - "]. *)
Fixpoint endsWithDashUpper (s : string) : bool :=
  match s with
  | String " " (String "-" (String " " (String x EmptyString))) => isUpper x
  | String _ s' => endsWithDashUpper s'
  | EmptyString => false
  end.

Definition stripUpperSuffix (campaign : string) : string :=
  if endsWithDashUpper campaign
  then take (String.length campaign - 4) campaign else campaign.

Fixpoint firstLetterOf (p : string) : option ascii :=
  match p with
  | EmptyString => None
  | String c p' => if isLetter c then Some (upperChar c) else firstLetterOf p'
  end.

Definition identity (campaign part : string) : string :=
  let base := stripUpperSuffix campaign in
  match firstLetterOf part with
  | Some l => String.append base (String.append " - " (String l ""))
  | None => base
  end.

(** The amended reading of the base: the campaign is trimmed, and what
    follows its last [" - "] is removed when that is, white space apart, one
    letter of either case. *)
Fixpoint spacesThenLetter (s : string) : bool :=
  match s with
  | String x EmptyString => isLetter x
  | String c s' => isSpace c && spacesThenLetter s'
  | EmptyString => false
  end.

(** The text before the last [" - "] after which only white space and one
    letter follow; [None] when the string has no such ending. *)
Fixpoint beforeLetterSuffix (s : string) : option string :=
  match s with
  | EmptyString => None
  | String c s' =>
      match beforeLetterSuffix s' with
      | Some pre => Some (String c pre)
      | None =>
          if startsWith " - " s && spacesThenLetter (drop 3 s)
          then Some EmptyString else None
      end
  end.

Definition baseOf (campaign : string) : string :=
  let t := trim campaign in
  match beforeLetterSuffix t with
  | Some pre => pre
  | None => t
  end.

(** The date of a follow-up: thirteen days after the event when the event
    has mail, the event's own day when it has none. *)
Definition followDate (e : NormalizedEvent) : Date :=
  if hasMail e then addDays (mailDate e) 13 else mailDate e.

(** The identity key as the specification composes it. *)
Definition keyOf (t : Task) : string :=
  String.append (typeName (type t))
    (String.append "|"
       (String.append (formatISO (date t))
          (String.append "|"
             (String.append (campaign (ref t))
                (String.append "|"
                   (String.append (part (ref t))
                      (String.append "|" (batch (ref t))))))))).

(** The rows whose date does not resolve. *)
Definition undated `{Runtime} (now : Date) (r : RawRow) : bool :=
  match tryParseDate now (dateCell r) with Some _ => false | None => true end.

(** The numeric value of a cell: the number its text denotes, [0] when the
    text denotes none or the cell is absent. *)
Definition numericValue `{Runtime} (r : RawRow) (k : string) : Q :=
  match r !! k with
  | Some s => match StringToNumber s with Fin q => q | NaN => 0%Q end
  | None => 0%Q
  end.

(** Ascending order of keys, and the comparator that sorts by key. *)
Definition keyLt {A : Type} (keyOf : A -> string) (a b : A) : Prop :=
  Js.compare (keyOf a) (keyOf b) = Lt.
Definition byKey {A : Type} (keyOf : A -> string) (a b : A) : Z :=
  Js.localeCompare (keyOf a) (keyOf b).

(** The sum of the counts of a list of events. *)
Definition sumCounts (l : list NormalizedEvent) : Q :=
  foldr (fun e acc => (count e + acc)%Q) 0%Q l.

(** Counts on which the additions of doubles are exact, in whatever order:
    whole numbers whose absolute values add up to at most [2^53]. *)
Definition isWhole (q : Q) : bool := (Qden (Qred q) =? 1)%positive.
Definition sumAbs (l : list NormalizedEvent) : Q :=
  foldr (fun e acc => (Qabs (count e) + acc)%Q) 0%Q l.
Definition exactCounts (l : list NormalizedEvent) : bool :=
  forallb (fun e => isWhole (count e)) l
  && Qle_bool (sumAbs l) (inject_Z (2 ^ 53)).

(** The mail-bearing events of one month key. *)
Definition mailOfMonth (k : string) (data : list NormalizedEvent)
  : list NormalizedEvent :=
  List.filter (fun e => hasMail e && String.eqb (monthKey (mailDate e)) k) data.

(** The total the aggregate holds for a month key: none when no mail-bearing
    event has the key. *)
Definition monthTotal (k : string) (data : list NormalizedEvent) : option Q :=
  match mailOfMonth k data with
  | [] => None
  | l => Some (Qred (sumCounts l))
  end.

End Spec.

(* ===================================================================== *)
(** ** Weeks and months of the date library *)
(* ===================================================================== *)

Module DateFns.
Import Js Cal.

(** [getDay]: 0 for Sunday up to 6 for Saturday; 1970-01-01 was a Thursday. *)
Definition getDay (z : Date) : Z := (z + 4) mod 7.

(** [startOfWeek(d, { weekStartsOn: 1 })] *)
Definition startOfWeek (d : Date) : Date :=
  let day := getDay d in
  let diff := (if day <? 1 then 7 else 0) + day - 1 in
  d - diff.

(** [endOfWeek(d, { weekStartsOn: 1 })] *)
Definition endOfWeek (d : Date) : Date :=
  let day := getDay d in
  let diff := (if day <? 1 then -7 else 0) + 6 - (day - 1) in
  d + diff.

(** An interval of days, both ends included: its start is a start of day
    and its end an end of day wherever the tracker builds one. *)
Record Interval : Type := { start : Date; finish : Date }.

Definition isWithinInterval (d : Date) (range : Interval) : bool :=
  (start range <=? d) && (d <=? finish range).

(** [eachDayOfInterval]: every day from the start to the end. *)
Definition eachDayOfInterval (range : Interval) : list Date :=
  map (fun i => start range + Z.of_nat i)
    (seq 0 (Z.to_nat (finish range - start range + 1))).

Definition isSameDay (a b : Date) : bool := a =? b.

Definition isSameMonth (a b : Date) : bool :=
  (getYear a =? getYear b) && (getMonth a =? getMonth b).

(** The day number of day [dt] of month [m] (counted from 0) of year [y],
    with months and days outside their ranges carried over, as the host's
    date arithmetic carries them. *)
Definition makeDay (y m dt : Z) : Date :=
  daysFromCivil (y + m / 12) (m mod 12 + 1) 1 + (dt - 1).

(** [startOfMonth]: the day of the month set to 1. *)
Definition startOfMonth (d : Date) : Date := d - (getDate d - 1).

(** [endOfMonth]: day 0 of the following month. *)
Definition endOfMonth (d : Date) : Date :=
  makeDay (getYear d) (getMonth d + 1) 0.


End DateFns.

(* ===================================================================== *)
(** ** The tracker's views *)
(* ===================================================================== *)

Module View.
Import Js Cal DateFns Tracker.

(** *** Reminder weeks *)

Definition weekBounds (d : Date) : Interval :=
  {| start := startOfWeek d; finish := endOfWeek d |}.

Definition thisWeek (today : Date) : Interval := weekBounds today.
Definition nextWeek (today : Date) : Interval := weekBounds (addDays today 7).
Definition nextNextWeek (today : Date) : Interval :=
  weekBounds (addDays today 14).

Definition inRange (d : Date) (range : Interval) : bool :=
  isWithinInterval d range.

Definition classifyWeek (today d : Date) : string :=
  if inRange d (thisWeek today) then "this"
  else if inRange d (nextWeek today) then "next"
  else if inRange d (nextNextWeek today) then "next2"
  else "".

Definition tasksThisWeek (today : Date) (tasks : list Task) : list Task :=
  List.filter (fun t => inRange (date t) (thisWeek today)) tasks.

Definition tasksNextWeek (today : Date) (tasks : list Task) : list Task :=
  List.filter (fun t => inRange (date t) (nextWeek today)) tasks.

(** *** Weekly mail counts of the viewed month *)

Definition thisMonthRows (viewDate : Date) (data : list NormalizedEvent)
  : list NormalizedEvent :=
  List.filter (fun r => isSameMonth (mailDate r) viewDate && hasMail r) data.





Definition monthlyTotal (viewDate : Date) (data : list NormalizedEvent) : Q :=
  fold_left (fun a b => numAdd a (count b)) (thisMonthRows viewDate data) 0%Q.

Definition targetMin : Q := 9000.
Definition targetMax : Q := 10000.

(** [Math.max] and [Math.min] on numbers that are not [NaN]. *)
Definition mathMax (a b : Q) : Q := if Qle_bool a b then b else a.
Definition mathMin (a b : Q) : Q := if Qle_bool a b then a else b.

Definition pct (monthlyTotal : Q) : Q :=
  mathMax 0 (mathMin 100 ((monthlyTotal / targetMax) * 100)).

Definition inTarget (monthlyTotal : Q) : bool :=
  Qle_bool targetMin monthlyTotal && Qle_bool monthlyTotal targetMax.

(** *** The calendar grid *)

Record DayCell : Type := { cellDate : Date; cellTasks : list Task }.

Definition monthDays (viewDate : Date) (tasks : list Task) : list DayCell :=
  let range :=
    {| start := startOfWeek (startOfMonth viewDate);
       finish := endOfWeek (endOfMonth viewDate) |} in
  let days := eachDayOfInterval range in
  map (fun d =>
         let dayTasks := List.filter (fun t => isSameDay (date t) d) tasks in
         {| cellDate := d; cellTasks := dayTasks |})
    days.

(** The handlers of the Prev and Next buttons. *)
Definition prevView (viewDate : Date) : Date :=
  addDays (startOfMonth viewDate) (-1).
Definition nextView (viewDate : Date) : Date :=
  addDays (endOfMonth viewDate) 1.

(** *** The chart scale *)

Record ChartMonth : Type := { chartDate : Date; chartTotal : Q }.

(** [x || 0] on a number that is not [NaN]. *)
Definition qOrZero (q : Q) : Q := if Qeq_bool q 0 then 0%Q else q.

(** [chartMonths.reduce((m, x) => Math.max(m, x.total || 0), 0) || 1] *)
Definition chartMax (chartMonths : list ChartMonth) : Q :=
  let m :=
    fold_left (fun m x => mathMax m (qOrZero (chartTotal x))) chartMonths 0%Q in
  if Qeq_bool m 0 then 1%Q else m.

(** *** Completion keys *)

(** [prev.includes(k)] *)
Definition includes (prev : list string) (k : string) : bool :=
  existsb (String.eqb k) prev.

(** The updater of the task check boxes:
    [prev.includes(k) ? prev.filter(x => x !== k) : [...prev, k]]. *)
Definition toggleDone (prev : list string) (k : string) : list string :=
  if includes prev k
  then List.filter (fun x => negb (String.eqb x k)) prev
  else prev ++ [k].

(** *** The campaign schedule *)

(** The second filter of the schedule: [false] hides the row. *)
Definition notCompleted (hideCompleted : bool) (doneKeys : list string)
  (r : NormalizedEvent) : bool :=
  if negb hideCompleted then true
  else
    let follow := if hasMail r then addDays (mailDate r) 13 else mailDate r in
    let tail :=
      String.append (formatISO follow)
        (String.append "|"
           (String.append (campaign r)
              (String.append "|"
                 (String.append (part r) (String.append "|" (batch r)))))) in
    let tKey := String.append "text|" tail in
    let vKey := String.append "vm|" tail in
    let tDone := negb (hasText r) || includes doneKeys tKey in
    let vDone := negb (hasVM r) || includes doneKeys vKey in
    negb (tDone && vDone).

(** The rows of the schedule table before they are rendered; [today] is the
    day of [startToday]. *)
Definition scheduleRows (hidePast hideCompleted : bool)
  (doneKeys : list string) (today : Date) (data : list NormalizedEvent)
  : list NormalizedEvent :=
  List.filter (notCompleted hideCompleted doneKeys)
    (List.filter (fun r => negb hidePast || (today <=? mailDate r))
       (sortBy (fun a b => mailDate a - mailDate b) data)).

(** *** The cadence matrix *)





End View.

(* ===================================================================== *)
(** ** Notions used to state the properties of the views *)
(* ===================================================================== *)

Module ViewSpec.
Import Js Cal DateFns Tracker View.

(** Months counted from year 0: consecutive months differ by one. *)
Definition monthIndex (z : Date) : Z := 12 * getYear z + getMonth z.

(** The year that starts in March, and the first day of the years of an
    era, both as the calendar conversion counts them. *)
Definition marchYear (z : Date) : Z :=
  yearOfEra (dayOfEra z) + ((z + 719468) / 146097) * 400.
Definition yearStart (y : Z) : Z := 365 * y + y / 4 - y / 100.





(** The number of channels of an event. *)
Definition channelCount (e : NormalizedEvent) : nat :=
  ((if hasMail e then 1 else 0) + (if hasText e then 1 else 0)
   + (if hasVM e then 1 else 0))%nat.

(** The English ordinal suffix: "th" for 11 to 13 in the last two digits,
    else by the last digit. *)
Definition englishSuffix (n : Z) : string :=
  if (11 <=? n mod 100) && (n mod 100 <=? 13) then "th"
  else if n mod 10 =? 1 then "st"
  else if n mod 10 =? 2 then "nd"
  else if n mod 10 =? 3 then "rd"
  else "th".

(** The suffix [ordinal] appends, as it depends on [v = n % 100]. *)
Definition suffixFor (v : Z) : string :=
  match suffixAt (Z.rem (v - 20) 10) with
  | Some s => s
  | None => match suffixAt v with Some s => s | None => "th" end
  end.

(** The stage labels, by batch number. *)
Definition stageOf (n : Z) : string :=
  if n <=? 1 then "Initial"
  else if 5 <=? n then "Final"
  else if n =? 2 then "2nd Follow-up"
  else if n =? 3 then "3rd Follow-up"
  else "4th Follow-up".

(** A text of white space only. *)
Fixpoint allSpace (s : string) : bool :=
  match s with
  | EmptyString => true
  | String c s' => isSpace c && allSpace s'
  end.

(** The number a string of decimal digits denotes. *)
Definition digitsValue (digits : string) : Z :=
  fold_left (fun acc ch => 10 * acc + (code ch - 48))
    (list_ascii_of_string digits) 0.

(** Whether a text ends, or starts, with a word character. *)
Fixpoint endsWithWord (s : string) : bool :=
  match s with
  | EmptyString => false
  | String c EmptyString => isWord c
  | String _ s' => endsWithWord s'
  end.

Definition startsWithWord (s : string) : bool :=
  match s with
  | EmptyString => false
  | String c _ => isWord c
  end.

(** The character before the position that follows [s], when [p] is the
    character before [s]. *)
Fixpoint lastChar (p : option ascii) (s : string) : option ascii :=
  match s with
  | EmptyString => p
  | String c s' => lastChar (Some c) s'
  end.

(** The items the task loop pushes, before they are sorted. *)
Definition emitted (data : list NormalizedEvent) : list Task :=
  fold_left pushTasks data [].

End ViewSpec.

(* ===================================================================== *)
(** ** The month summary on doubles

    The loop of [monthAgg] with the counts as the doubles they are in the
    code, to show what rounding does to the totals. *)
(* ===================================================================== *)

Module Doubles.
Import Js Cal Tracker.
Import PrimFloat.

(** What [monthAgg] reads of an event. *)
Record MailEvent : Type := {
  hasMailD : bool;
  mailDateD : Date;
  countD : float;
}.

(** An event with mail on day [d] and the count [c]. *)
Definition mailOn (d : Date) (c : float) : MailEvent :=
  {| hasMailD := true; mailDateD := d; countD := c |}.

(** [map.get(key) || 0]: [undefined], a zero and [NaN] give 0. *)
Definition getOrZeroD (v : option float) : float :=
  match v with
  | Some x => if PrimFloat.eqb x 0 || PrimFloat.is_nan x then 0%float else x
  | None => 0%float
  end.

(** The body of the loop that fills [map]. *)
Definition addMonthD (map : list (string * float)) (r : MailEvent)
  : list (string * float) :=
  if negb (hasMailD r) then map
  else
    let key := monthKey (mailDateD r) in
    mapSet map key (PrimFloat.add (getOrZeroD (mapGet map key)) (countD r)).

Record MonthTotalD : Type := { keyD : string; totalD : float }.

Definition monthAggD (data : list MailEvent) : list MonthTotalD :=
  sortBy (fun a b => localeCompare (keyD a) (keyD b))
    (map (fun '(key, total) => {| keyD := key; totalD := total |})
       (fold_left addMonthD data [])).

End Doubles.

(* ===================================================================== *)
(** ** Properties of the channel classifier *)
(* ===================================================================== *)

Module ClassifierFacts.
Import Js Regex Cal Tracker Reference Spec.

Lemma rmatch_token_alt (a b : regex) (k : cursor -> bool) (c : cursor) :
  rmatch (token (Alt a b)) k c = rmatch (token a) k c || rmatch (token b) k c.
Proof.
  unfold token; simpl.
  destruct (atBoundary c); reflexivity.
Qed.

Lemma testFrom_split (r r1 r2 : regex) :
  (forall k c, rmatch r k c = rmatch r1 k c || rmatch r2 k c) ->
  forall s p, testFrom r p s = testFrom r1 p s || testFrom r2 p s.
Proof.
  intros Hsplit s.
  induction s as [|a s IH]; intros p; simpl.
  - rewrite Hsplit. rewrite !orb_false_r. reflexivity.
  - rewrite Hsplit, IH.
    destruct (rmatch r1 _ _), (rmatch r2 _ _), (testFrom r1 _ _),
      (testFrom r2 _ _); reflexivity.
Qed.

Lemma test_token_alt (a b : regex) (s : string) :
  test (token (Alt a b)) s = test (token a) s || test (token b) s.
Proof.
  unfold test. apply testFrom_split. intros k c. apply rmatch_token_alt.
Qed.

(** The guard of the default rule is the disjunction of the three channel
    token classes. *)
Lemma anyToken_split (src : string) :
  test reAny src = test reMail src || test reText src || test reVm src.
Proof.
  unfold reAny, reText, reVm, reMail. cbn [alt].
  rewrite !test_token_alt.
  rewrite !orb_assoc. reflexivity.
Qed.

Lemma channelFlags_fiveRules (src : string) :
  channelFlags src =
  fiveRules (test reNoMail src) (test reMail src) (test reText src)
    (test reVm src) (test reNoText src) (test reNoVM src).
Proof.
  unfold channelFlags, fiveRules, rule5, rule4, rule3, rule2, rule1.
  rewrite anyToken_split.
  destruct (test reNoMail src), (test reMail src), (test reText src),
    (test reVm src), (test reNoText src), (test reNoVM src); reflexivity.
Qed.

(** The start-up checks on stages and token patterns hold; the patterns are
    tried on the lower-cased text, as the row mapper tries them. *)
Example startup_checks :
  stageForBatch (Some 1) = "Initial"
  /\ stageForBatch (Some 2) = "2nd Follow-up"
  /\ stageForBatch (Some 5) = "Final"
  /\ test reMail (toLowerCase "Mail,Text,Voicemail") = true
  /\ test reMail (toLowerCase "voicemail") = false
  /\ test reVm (toLowerCase "Voice Mail") = true
  /\ test reText (toLowerCase "SMS") = true.
Proof. repeat split; vm_compute; reflexivity. Qed.

(** C1. The channel flags of every mapped row are the result of the five
    rules of the classifier applied in their order to the matches of the
    token patterns on the row's search string, rule 2 applying when none of
    the mail, text and voicemail tokens matched; a row whose only channel
    text is "voicemail" has no mail, and a row without tags and channels has
    all three channels. *)
Theorem C1_channel_flags_five_rules :
  (forall (host : Runtime) (now : Date) (i : nat) (r : RawRow),
     let src := searchString r in
     let e := mapRow now i r in
     {| fMail := hasMail e; fText := hasText e; fVM := hasVM e |} =
     fiveRules (test reNoMail src) (test reMail src) (test reText src)
       (test reVm src) (test reNoText src) (test reNoVM src))
  /\ (forall (host : Runtime) (now : Date) (i : nat),
        hasMail (mapRow now i (row [("Channels", "voicemail")])) = false
        /\ hasMail (mapRow now i (row [("Tags", "voicemail")])) = false)
  /\ (forall (host : Runtime) (now : Date) (i : nat),
        let e := mapRow now i (row []) in
        hasMail e = true /\ hasText e = true /\ hasVM e = true).
Proof.
  split; [|split].
  - intros host now i r src e. subst e src. cbn [mapRow hasMail hasText hasVM].
    rewrite <- channelFlags_fiveRules.
    destruct (channelFlags (searchString r)); reflexivity.
  - intros host now i. split; vm_compute; reflexivity.
  - intros host now i. vm_compute. auto.
Qed.

(** C4 (as stated, refuted).  On the search string of a row tagged "nomail"
    the no-mail pattern matches and the guard pattern does not. *)
Lemma C4_nomail_counterexample :
  let src := searchString (row [("Tags", "nomail")]) in
  src = "nomail "
  /\ test reNoMail src = true
  /\ test reAny src = false
  /\ ~ (test reAny src = true <->
        test reNoMail src || test reMail src || test reText src
        || test reVm src = true).
Proof.
  intros src.
  assert (Hsrc : src = "nomail ") by (vm_compute; reflexivity).
  assert (Htag : test reNoMail src = true) by (vm_compute; reflexivity).
  assert (Hany : test reAny src = false) by (vm_compute; reflexivity).
  repeat split; try assumption.
  intros [_ Hback]. rewrite Hback in Hany; [discriminate|].
  rewrite Htag. reflexivity.
Qed.

(** C4 (amended).  The guard of the default rule holds exactly when a mail,
    text or voicemail token matched; the no-mail tag is no part of it: on
    "nomail" the tag matches, the guard does not, and the default rule gives
    text and voicemail without mail. *)
Theorem C4_anyToken_three_classes :
  (forall src : string,
     test reAny src = true <->
     test reMail src = true \/ test reText src = true \/ test reVm src = true)
  /\ (let src := searchString (row [("Tags", "nomail")]) in
      test reNoMail src = true /\ test reAny src = false
      /\ channelFlags src = {| fMail := false; fText := true; fVM := true |}).
Proof.
  split.
  - intros src. rewrite anyToken_split.
    destruct (test reMail src), (test reText src), (test reVm src);
      simpl; intuition congruence.
  - vm_compute. auto.
Qed.

End ClassifierFacts.

(* ===================================================================== *)
(** ** Properties of the task deriver *)
(* ===================================================================== *)

Module TaskFacts.
Import Js Regex Cal Tracker Reference Spec.

Section SortFacts.
Context {A : Type} (cmp : A -> A -> Z).

Lemma insertBy_perm (x : A) (l : list A) :
  Permutation (insertBy cmp x l) (x :: l).
Proof.
  induction l as [|y l IH]; simpl.
  - reflexivity.
  - destruct (0 <? cmp x y).
    + rewrite IH. apply perm_swap.
    + reflexivity.
Qed.

Lemma sortBy_perm (l : list A) : Permutation (sortBy cmp l) l.
Proof.
  induction l as [|x l IH]; simpl.
  - reflexivity.
  - rewrite insertBy_perm. constructor. exact IH.
Qed.

Lemma sortBy_In (x : A) (l : list A) : In x (sortBy cmp l) <-> In x l.
Proof.
  split; apply Permutation_in; [|symmetry]; apply sortBy_perm.
Qed.

Lemma sortBy_length (l : list A) : length (sortBy cmp l) = length l.
Proof. apply Permutation_length, sortBy_perm. Qed.
End SortFacts.

(** An iteration appends its items to the array. *)
Lemma pushTasks_app (items : list Task) (e : NormalizedEvent) :
  pushTasks items e = items ++ pushTasks [] e.
Proof.
  unfold pushTasks.
  destruct (hasMail e), (hasText e), (hasVM e); cbn;
    rewrite <- ?app_assoc; cbn; rewrite ?app_nil_r; reflexivity.
Qed.

Lemma fold_pushTasks_In (t : Task) (data : list NormalizedEvent) :
  forall items,
    In t (fold_left pushTasks data items) <->
    In t items \/ exists e, In e data /\ In t (pushTasks [] e).
Proof.
  induction data as [|e data IH]; intros items; simpl.
  - split; [auto|]. intros [Hin|[e [[] _]]]. exact Hin.
  - rewrite IH, pushTasks_app, in_app_iff. split.
    + intros [[Hin|Hin]|[e' [He' Hin]]]; eauto.
    + intros [Hin|[e' [[->|He'] Hin]]]; eauto.
Qed.

Lemma tasks_In (t : Task) (data : list NormalizedEvent) :
  In t (tasks data) <-> exists e, In e data /\ In t (pushTasks [] e).
Proof.
  unfold tasks. rewrite sortBy_In, fold_pushTasks_In. simpl. tauto.
Qed.

(** What one event pushes, item by item. *)
Lemma pushTasks_In (t : Task) (e : NormalizedEvent) :
  In t (pushTasks [] e) ->
  ref t = e /\ idKey t = keyOf t /\ tcount t = count e /\
  match type t with
  | mail => hasMail e = true /\ date t = mailDate e
  | text => hasText e = true /\ date t = followDate e
  | vm => hasVM e = true /\ date t = followDate e
  end.
Proof.
  unfold pushTasks, followDate.
  destruct (hasMail e) eqn:Hm, (hasText e) eqn:Ht, (hasVM e) eqn:Hv; cbn;
    intros Hin; repeat (destruct Hin as [<-|Hin]); try contradiction;
    cbn; rewrite ?Hm; auto.
Qed.

Lemma pushTasks_emits (e : NormalizedEvent) (ty : TaskType) :
  match ty with
  | mail => hasMail e = true
  | text => hasText e = true
  | vm => hasVM e = true
  end ->
  exists t, In t (pushTasks [] e) /\ ref t = e /\ type t = ty.
Proof.
  unfold pushTasks.
  destruct ty; intros Hflag; rewrite ?Hflag;
    destruct (hasMail e), (hasText e), (hasVM e); try discriminate; cbn;
    first
      [ solve [eexists; split; [left; reflexivity | split; reflexivity]]
      | solve [eexists; split; [right; left; reflexivity | split; reflexivity]]
      | solve [eexists; split;
               [right; right; left; reflexivity | split; reflexivity]] ].
Qed.

(** C2. Two runs of the derivation on the same rows and the same reference
    date give the same task list, hence the same identity keys in the same
    order; every identity key is the task's type, its date written
    yyyy-MM-dd, and the campaign, part and batch of its event, joined by
    vertical bars; so tasks of any two derivations that agree on these five
    components have the same key. *)
Theorem C2_identityKey_stable (host : Runtime) (now : Date)
  (rows : list RawRow) :
  let firstRun := tasks (data now rows) in
  let secondRun := tasks (data now rows) in
  firstRun = secondRun
  /\ map idKey firstRun = map idKey secondRun
  /\ (forall (host' : Runtime) (now' : Date) (rows' : list RawRow) t t',
        In t firstRun -> In t' (tasks (@data host' now' rows')) ->
        type t = type t' -> date t = date t' ->
        campaign (ref t) = campaign (ref t') ->
        part (ref t) = part (ref t') -> batch (ref t) = batch (ref t') ->
        idKey t = idKey t')
  /\ Forall
       (fun t =>
          idKey t =
          String.append (typeName (type t))
            (String.append "|"
               (String.append (formatISO (date t))
                  (String.append "|"
                     (String.append (campaign (ref t))
                        (String.append "|"
                           (String.append (part (ref t))
                              (String.append "|" (batch (ref t))))))))))
       firstRun.
Proof.
  intros firstRun secondRun. split; [reflexivity|]. split; [reflexivity|].
  assert (Hkey : forall (h : Runtime) n rs t,
             In t (tasks (@data h n rs)) -> idKey t = keyOf t).
  { intros h n rs t Hin. apply tasks_In in Hin.
    destruct Hin as [e [_ Hin]]. apply pushTasks_In in Hin. apply Hin. }
  split.
  - intros host' now' rows' t t' Hin Hin' Hty Hd Hc Hp Hb.
    rewrite (Hkey _ _ _ _ Hin), (Hkey _ _ _ _ Hin'). unfold keyOf.
    rewrite Hty, Hd, Hc, Hp, Hb. reflexivity.
  - apply List.Forall_forall. intros t Hin. apply (Hkey _ _ _ _ Hin).
Qed.

(** C3. A task of a given type and date exists for an event exactly when the
    event is in the data, has that channel, and the date is the event's day
    for mail and the follow-up day for text and voicemail: thirteen days
    later when the event has mail, the same day when it has none.  The day
    thirteen days after 2025-08-26 is 2025-09-08. *)
Theorem C3_task_dating :
  (forall (data : list NormalizedEvent) (e : NormalizedEvent)
          (ty : TaskType) (d : Date),
     (exists t, In t (tasks data) /\ ref t = e /\ type t = ty /\ date t = d)
     <->
     (In e data /\
      match ty with
      | mail => hasMail e = true /\ d = mailDate e
      | text =>
          hasText e = true /\
          d = (if hasMail e then addDays (mailDate e) 13 else mailDate e)
      | vm =>
          hasVM e = true /\
          d = (if hasMail e then addDays (mailDate e) 13 else mailDate e)
      end))
  /\ formatISO (daysFromCivil 2025 8 26) = "2025-08-26"
  /\ formatISO (addDays (daysFromCivil 2025 8 26) 13) = "2025-09-08"
  /\ map (fun t => (type t, formatISO (date t)))
       (tasks
          (data 0
             [row [("Date", "2025-08-26"); ("Campaign", "DM3-B");
                   ("Count", "2444"); ("Channels", "Mail,Text,Voicemail")]]))
     = [(mail, "2025-08-26"); (text, "2025-09-08"); (vm, "2025-09-08")]
  /\ map (fun t => (type t, formatISO (date t)))
       (tasks
          (data 0
             [row [("Date", "2025-09-23"); ("Campaign", "Promo");
                   ("Count", "1800"); ("Channels", "Text");
                   ("Tags", "NoMail")]]))
     = [(text, "2025-09-23")].
Proof.
  split; [|repeat split; vm_compute; reflexivity].
  intros data e ty d. split.
  - intros [t [Hin [Href [Hty Hd]]]].
    apply tasks_In in Hin. destruct Hin as [e' [He' Hin]].
    apply pushTasks_In in Hin. destruct Hin as [Hr [_ [_ Hcase]]].
    rewrite Href in Hr. subst e'. split; [exact He'|].
    rewrite Hty in Hcase. unfold followDate in Hcase.
    destruct ty; rewrite <- Hd; exact Hcase.
  - intros [He Hcase].
    destruct (pushTasks_emits e ty) as [t [Hin [Href Hty]]].
    { destruct ty; apply Hcase. }
    exists t. split; [apply tasks_In; eauto|]. split; [exact Href|].
    split; [exact Hty|].
    apply pushTasks_In in Hin. destruct Hin as [_ [_ [_ Hdate]]].
    rewrite Hty in Hdate. unfold followDate in Hdate.
    destruct ty; destruct Hcase as [_ ->]; apply Hdate.
Qed.

End TaskFacts.

(* ===================================================================== *)
(** ** Properties of the row normaliser *)
(* ===================================================================== *)

Module NormalizerFacts.
Import Js Regex Cal Tracker Reference Spec.

Lemma withDate_Some (m : MappedRow) (e : NormalizedEvent) :
  withDate m = Some e ->
  mailDate m = Some (mailDate e) /\ id e = id m /\ raw e = raw m
  /\ count e = count m /\ cost e = cost m /\ campaign e = campaign m
  /\ part e = part m /\ batch e = batch m.
Proof.
  unfold withDate. destruct (mailDate m) as [d|]; [|discriminate].
  intros [= <-]. cbn. auto 10.
Qed.

Lemma withDate_None (m : MappedRow) :
  withDate m = None <-> mailDate m = None.
Proof.
  unfold withDate. destruct (mailDate m); split; congruence.
Qed.

Section Rows.
Context `{Runtime}.

Lemma data_In (now : Date) (rows : list RawRow) (e : NormalizedEvent) :
  In e (data now rows) <->
  exists i r, rows !! i = Some r /\ withDate (mapRow now i r) = Some e.
Proof.
  unfold data. rewrite <- list_elem_of_In, list_elem_of_omap. split.
  - intros [m [Hm He]]. apply elem_of_lookup_imap in Hm.
    destruct Hm as [i [r [-> Hr]]]. eauto.
  - intros [i [r [Hr He]]]. exists (mapRow now i r). split; [|exact He].
    apply elem_of_lookup_imap. eauto.
Qed.

Lemma kept_plus_dropped (f : nat -> RawRow -> MappedRow) (now : Date) :
  (forall i r, mailDate (f i r) = tryParseDate now (dateCell r)) ->
  forall rows,
    (length (omap withDate (imap f rows))
     + length (List.filter (undated now) rows) = length rows)%nat.
Proof.
  intros Hf rows. revert f Hf.
  induction rows as [|r rows IH]; intros f Hf; [reflexivity|].
  rewrite imap_cons. cbn [omap list_omap List.filter].
  specialize (IH (f ∘ S) (fun i r' => Hf (S i) r')).
  unfold undated at 1. rewrite <- (Hf 0%nat r).
  destruct (withDate (f 0%nat r)) as [e|] eqn:Hw.
  - apply withDate_Some in Hw. destruct Hw as [-> _]. cbn. lia.
  - apply withDate_None in Hw. rewrite Hw. cbn. lia.
Qed.

Lemma orZero_numeric (r : RawRow) (k : string) :
  (orZero (Number (get r k)) == numericValue r k)%Q.
Proof.
  unfold numericValue, get, Number, orZero.
  destruct (r !! k) as [s|]; [|reflexivity].
  destruct (StringToNumber s) as [|q]; [reflexivity|].
  destruct (Qeq_bool q 0) eqn:Hq; [|reflexivity].
  apply Qeq_bool_eq in Hq. symmetry. exact Hq.
Qed.

Lemma dateCell_adjusted (r : RawRow) (adj : string) :
  r !! "Red - Adjusted Dates" = Some adj -> adj <> "" ->
  dateCell r = JString adj.
Proof.
  intros Hadj Hne. unfold dateCell, jsOr, get. rewrite Hadj. cbn.
  destruct (String.eqb adj "") eqn:Heq; [|reflexivity].
  apply String.eqb_eq in Heq. contradiction.
Qed.

Lemma dateCell_primary (r : RawRow) :
  r !! "Red - Adjusted Dates" = None \/ r !! "Red - Adjusted Dates" = Some "" ->
  dateCell r = get r "Date".
Proof.
  intros [Hadj|Hadj]; unfold dateCell, jsOr, get at 1; rewrite Hadj;
    reflexivity.
Qed.

End Rows.

(** C5 (the code at the failing input).  A row whose headers are written in
    lower case has no [Date] key and is dropped; the same cells under the
    documented headers give an event; lower-case [campaign] and [count]
    beside a proper [Date] are not read either. *)
Theorem C5_lowercase_headers_not_matched :
  data 0 [row [("date", "2025-08-26"); ("campaign", "DM 1"); ("count", "5")]]
  = []
  /\ map (fun e => (formatISO (mailDate e), campaign e, count e))
       (data 0
          [row [("Date", "2025-08-26"); ("Campaign", "DM 1"); ("Count", "5")]])
     = [("2025-08-26", "DM 1", 5%Q)]
  /\ map (fun e => (formatISO (mailDate e), campaign e, count e))
       (data 0
          [row [("Date", "2025-08-26"); ("campaign", "DM 1"); ("count", "5")]])
     = [("2025-08-26", "(Unnamed)", 0%Q)].
Proof. repeat split; vm_compute; reflexivity. Qed.

(** C8. The filter drops exactly the rows whose date does not resolve: the
    events are no more than the rows, events and undated rows together are
    as many as the rows, a row with a date gives the event of its index, a
    row without one gives none, and every task refers to a row with a
    date. *)
Theorem C8_undated_rows_dropped (host : Runtime) (now : Date)
  (rows : list RawRow) :
  (length (data now rows) <= length rows)%nat
  /\ (length (data now rows) + length (List.filter (undated now) rows)
      = length rows)%nat
  /\ (forall i r, rows !! i = Some r ->
        match tryParseDate now (dateCell r) with
        | Some d =>
            exists e, In e (data now rows) /\ id e = i /\ raw e = r
                      /\ mailDate e = d
        | None => ~ exists e, In e (data now rows) /\ id e = i
        end)
  /\ (forall t, In t (tasks (data now rows)) ->
        exists r, rows !! id (ref t) = Some r /\ undated now r = false).
Proof.
  assert (Hsum : (length (data now rows)
                  + length (List.filter (undated now) rows)
                  = length rows)%nat).
  { apply kept_plus_dropped. reflexivity. }
  split; [lia|]. split; [exact Hsum|]. split.
  - intros i r Hr.
    destruct (tryParseDate now (dateCell r)) as [d|] eqn:Hd.
    + exists {| id := i; raw := r; mailDate := d;
                hasMail := hasMail (mapRow now i r);
                hasText := hasText (mapRow now i r);
                hasVM := hasVM (mapRow now i r);
                count := count (mapRow now i r);
                campaign := campaign (mapRow now i r);
                category := category (mapRow now i r);
                part := part (mapRow now i r);
                batch := batch (mapRow now i r);
                batchNum := batchNum (mapRow now i r);
                cost := cost (mapRow now i r) |}.
      split; [|auto]. apply data_In. exists i, r. split; [exact Hr|].
      unfold withDate. cbn [mailDate mapRow]. rewrite Hd. reflexivity.
    + intros [e [He Hid]]. apply data_In in He.
      destruct He as [j [r' [Hr' Hw]]].
      apply withDate_Some in Hw. destruct Hw as [Hdate [Hid' _]].
      cbn in Hid'. assert (Hji : j = i) by congruence. rewrite Hji in Hr'.
      rewrite Hr in Hr'. injection Hr' as <-.
      cbn in Hdate. congruence.
  - intros t Ht. apply TaskFacts.tasks_In in Ht.
    destruct Ht as [e [He Hpush]].
    apply TaskFacts.pushTasks_In in Hpush. destruct Hpush as [-> _].
    apply data_In in He. destruct He as [i [r [Hr Hw]]].
    apply withDate_Some in Hw. destruct Hw as [Hdate [Hid _]].
    cbn in Hid, Hdate. exists r. rewrite Hid. split; [exact Hr|].
    unfold undated. rewrite Hdate. reflexivity.
Qed.

(** C9 (as stated, refuted).  A row whose Count is "-5" and whose Cost is
    "-1.5" normalises to an event with a negative count and a negative
    cost; a Count of "2.5" gives a count that is no integer. *)
Lemma C9_negative_count_counterexample :
  map (fun e => (count e, cost e))
    (data 0
       [row [("Date", "2025-08-26"); ("Campaign", "DM 1"); ("Count", "-5");
             ("Cost", "-1.5")];
        row [("Date", "2025-08-26"); ("Campaign", "DM 1");
             ("Count", "2.5")]])
  = [((-5)%Q, (-3 # 2)%Q); ((5 # 2)%Q, 0%Q)]
  /\ ~ (0 <= -5)%Q /\ ~ (0 <= -3 # 2)%Q.
Proof.
  split; [vm_compute; reflexivity|].
  split; intros Hle; apply Qle_bool_iff in Hle; discriminate.
Qed.

(** C9 (amended).  The count of every event is the number its row's Count
    cell denotes, of either sign and whole or not, and 0 when the cell
    denotes no number or is absent; the cost is read from Cost the same
    way. *)
Theorem C9_count_cost_coercion (host : Runtime) (now : Date)
  (rows : list RawRow) :
  Forall
    (fun e =>
       exists r, rows !! id e = Some r
                 /\ (count e == numericValue r "Count")%Q
                 /\ (cost e == numericValue r "Cost")%Q)
    (data now rows).
Proof.
  apply List.Forall_forall. intros e He.
  apply data_In in He. destruct He as [i [r [Hr Hw]]].
  apply withDate_Some in Hw.
  destruct Hw as [_ [Hid [_ [Hcount [Hcost _]]]]].
  cbn in Hid. exists r. rewrite Hid. split; [exact Hr|].
  rewrite Hcount, Hcost. cbn [count cost mapRow].
  split; apply orZero_numeric.
Qed.

(** C10. A row whose adjusted-date cell is not empty and does not parse is
    dropped whatever its Date cell holds: the adjusted date alone is handed
    to the parser, and Date is read only when the adjusted-date cell is
    empty or absent. *)
Theorem C10_adjusted_date_no_fallback (host : Runtime) (now : Date) (i : nat)
  (r : RawRow) (adj : string) :
  r !! "Red - Adjusted Dates" = Some adj ->
  adj <> "" ->
  tryParseDate now (JString adj) = None ->
  dateCell r = JString adj
  /\ (forall dateText, withDate (mapRow now i (<["Date" := dateText]> r)) = None)
  /\ (forall rows, rows !! i = Some r ->
        ~ exists e, In e (data now rows) /\ id e = i)
  /\ (forall r' : RawRow,
        r' !! "Red - Adjusted Dates" = None
        \/ r' !! "Red - Adjusted Dates" = Some "" ->
        dateCell r' = get r' "Date").
Proof.
  intros Hadj Hne Hparse.
  split; [apply dateCell_adjusted; assumption|]. split; [|split].
  - intros dateText. apply withDate_None. cbn [mailDate mapRow].
    rewrite (dateCell_adjusted _ adj); [exact Hparse| |exact Hne].
    rewrite lookup_insert_ne; [exact Hadj|discriminate].
  - intros rows Hr [e [He Hid]]. apply data_In in He.
    destruct He as [j [r' [Hr' Hw]]].
    apply withDate_Some in Hw. destruct Hw as [Hdate [Hid' _]].
    cbn in Hid'. assert (Hji : j = i) by congruence. rewrite Hji in Hr'.
    rewrite Hr in Hr'. injection Hr' as <-.
    cbn in Hdate. rewrite (dateCell_adjusted _ adj) in Hdate; congruence.
  - apply dateCell_primary.
Qed.

Lemma C10_adjusted_date_no_fallback_witness :
  let r := row [("Red - Adjusted Dates", "TBD"); ("Date", "2025-08-26")] in
  tryParseDate 0 (get r "Date") = Some 20326
  /\ dateCell r = JString "TBD"
  /\ data 0 [r] = [].
Proof.
  intros r.
  destruct (C10_adjusted_date_no_fallback host 0 0%nat r "TBD")
    as [Hcell [Hdrop _]].
  - vm_compute; reflexivity.
  - discriminate.
  - vm_compute; reflexivity.
  - split; [vm_compute; reflexivity|]. split; [exact Hcell|].
    vm_compute; reflexivity.
Defined.

End NormalizerFacts.

(* ===================================================================== *)
(** ** Properties of the month aggregate *)
(* ===================================================================== *)

Module StringOrder.
Import Js.

Lemma code_inj (a b : ascii) : code a = code b -> a = b.
Proof.
  unfold code. intros Heq. apply N2Z.inj in Heq.
  rewrite <- (ascii_N_embedding a), <- (ascii_N_embedding b), Heq.
  reflexivity.
Qed.

Lemma compare_refl (a : string) : compare a a = Eq.
Proof.
  induction a as [|x a IH]; simpl; [reflexivity|].
  rewrite Z.compare_refl. exact IH.
Qed.

Lemma compare_eq (a b : string) : compare a b = Eq -> a = b.
Proof.
  revert b. induction a as [|x a IH]; intros [|y b]; simpl; try discriminate.
  - reflexivity.
  - destruct (Z.compare_spec (code x) (code y)) as [Hc| |]; try discriminate.
    intros Hrest. apply code_inj in Hc. apply IH in Hrest. congruence.
Qed.

Lemma compare_antisym (a b : string) : compare b a = CompOpp (compare a b).
Proof.
  revert b. induction a as [|x a IH]; intros [|y b]; simpl; try reflexivity.
  rewrite (Z.compare_antisym (code x) (code y)).
  destruct (code x ?= code y); simpl; auto.
Qed.

Lemma compare_lt_trans (a b c : string) :
  compare a b = Lt -> compare b c = Lt -> compare a c = Lt.
Proof.
  revert b c.
  induction a as [|x a IH]; intros [|y b] [|z c]; simpl; try discriminate;
    try reflexivity.
  destruct (Z.compare_spec (code x) (code y)) as [Hxy|Hxy|Hxy];
    try discriminate;
    destruct (Z.compare_spec (code y) (code z)) as [Hyz|Hyz|Hyz];
    try discriminate; intros H1 H2.
  - rewrite Hxy, Hyz, Z.compare_refl. eapply IH; eassumption.
  - rewrite Hxy. apply Z.compare_lt_iff in Hyz. rewrite Hyz. reflexivity.
  - rewrite <- Hyz. apply Z.compare_lt_iff in Hxy. rewrite Hxy. reflexivity.
  - assert (Hxz : code x < code z) by lia.
    apply Z.compare_lt_iff in Hxz. rewrite Hxz. reflexivity.
Qed.

Lemma compare_lt_irrefl (a : string) : compare a a <> Lt.
Proof. rewrite compare_refl. discriminate. Qed.

End StringOrder.

Module MapFacts.

Section JsMapFacts.
Context {V : Type}.
Implicit Types (m : list (string * V)) (k : string) (v : V).

Lemma mapGet_mapSet m k v k' :
  mapGet (mapSet m k v) k' = if String.eqb k k' then Some v else mapGet m k'.
Proof.
  induction m as [|[k0 v0] m IH]; simpl.
  - reflexivity.
  - destruct (String.eqb k0 k) eqn:Hk0; simpl.
    + apply String.eqb_eq in Hk0. subst k0.
      destruct (String.eqb k k'); reflexivity.
    + rewrite IH. destruct (String.eqb k k') eqn:Hkk'; [|reflexivity].
      apply String.eqb_eq in Hkk'. subst k'. rewrite Hk0. reflexivity.
Qed.

Lemma mapSet_keys m k v x :
  In x (map fst (mapSet m k v)) <-> x = k \/ In x (map fst m).
Proof.
  induction m as [|[k0 v0] m IH]; simpl.
  - intuition.
  - destruct (String.eqb k0 k) eqn:Hk0; simpl.
    + apply String.eqb_eq in Hk0. subst k0. intuition.
    + rewrite IH. intuition.
Qed.

Lemma mapSet_NoDup m k v :
  List.NoDup (map fst m) -> List.NoDup (map fst (mapSet m k v)).
Proof.
  induction m as [|[k0 v0] m IH]; simpl; intros Hnd.
  - constructor; [intros []|constructor].
  - inversion Hnd as [|? ? Hnotin Hnd']; subst.
    destruct (String.eqb k0 k) eqn:Hk0; simpl.
    + constructor; assumption.
    + constructor; [|apply IH; exact Hnd'].
      rewrite mapSet_keys. intros [->|Hin]; [|contradiction].
      rewrite String.eqb_refl in Hk0. discriminate.
Qed.

Lemma mapGet_In m k v :
  List.NoDup (map fst m) -> (In (k, v) m <-> mapGet m k = Some v).
Proof.
  induction m as [|[k0 v0] m IH]; simpl; intros Hnd.
  - split; [intros []|discriminate].
  - inversion Hnd as [|? ? Hnotin Hnd']; subst.
    destruct (String.eqb k0 k) eqn:Hk0.
    + apply String.eqb_eq in Hk0. subst k0. split.
      * intros [[= ->]|Hin]; [reflexivity|].
        exfalso. apply Hnotin. apply (in_map fst) in Hin. exact Hin.
      * intros [= ->]. left; reflexivity.
    + rewrite <- (IH Hnd'). split.
      * intros [[= -> _]|Hin]; [|exact Hin].
        rewrite String.eqb_refl in Hk0. discriminate.
      * intros Hin. right; exact Hin.
Qed.
End JsMapFacts.

End MapFacts.

Module SortedFacts.
Import Spec.

Section Keyed.
Context {A : Type} (keyOf : A -> string).

Lemma insertBy_sorted (x : A) (l : list A) :
  StronglySorted (keyLt keyOf) l ->
  ~ In (keyOf x) (map keyOf l) ->
  StronglySorted (keyLt keyOf) (insertBy (byKey keyOf) x l).
Proof.
  induction l as [|y l IH]; simpl; intros Hs Hfresh.
  - constructor; constructor.
  - inversion Hs as [|? ? Hs' Hall]; subst.
    unfold byKey at 1, Js.localeCompare.
    destruct (Js.compare (keyOf x) (keyOf y)) eqn:Hc; simpl.
    + apply StringOrder.compare_eq in Hc. exfalso. apply Hfresh. auto.
    + constructor; [exact Hs|]. constructor; [exact Hc|].
      eapply List.Forall_impl; [|exact Hall]. intros z Hz.
      unfold keyLt in *.
      eapply StringOrder.compare_lt_trans; eassumption.
    + constructor.
      * apply IH; [exact Hs'|]. intros Hin. apply Hfresh. auto.
      * apply List.Forall_forall. intros z Hz.
        apply (Permutation_in _ (TaskFacts.insertBy_perm (byKey keyOf) x l)) in Hz.
        destruct Hz as [<-|Hz].
        -- unfold keyLt. rewrite StringOrder.compare_antisym, Hc.
           reflexivity.
        -- rewrite List.Forall_forall in Hall. apply Hall. exact Hz.
Qed.

Lemma sortBy_sorted (l : list A) :
  List.NoDup (map keyOf l) -> StronglySorted (keyLt keyOf) (sortBy (byKey keyOf) l).
Proof.
  induction l as [|x l IH]; simpl; intros Hnd.
  - constructor.
  - inversion Hnd as [|? ? Hnotin Hnd']; subst.
    apply insertBy_sorted; [apply IH; exact Hnd'|].
    intros Hin. apply Hnotin.
    eapply Permutation_in; [|exact Hin].
    apply Permutation_map, TaskFacts.sortBy_perm.
Qed.

(** Two lists in strictly ascending key order with the same elements are
    the same list. *)
Lemma sorted_same_elements (l1 l2 : list A) :
  StronglySorted (keyLt keyOf) l1 -> StronglySorted (keyLt keyOf) l2 ->
  (forall x, In x l1 <-> In x l2) -> l1 = l2.
Proof.
  revert l2. induction l1 as [|x l1 IH]; intros l2 Hs1 Hs2 Hsame.
  - destruct l2 as [|y l2]; [reflexivity|].
    exfalso. apply (Hsame y). left; reflexivity.
  - destruct l2 as [|y l2].
    { exfalso. apply (Hsame x). left; reflexivity. }
    inversion Hs1 as [|? ? Hs1' Hall1]; subst.
    inversion Hs2 as [|? ? Hs2' Hall2]; subst.
    rewrite List.Forall_forall in Hall1, Hall2.
    assert (Hxy : x = y).
    { destruct (proj1 (Hsame x) (or_introl eq_refl)) as [Hyx|Hin2];
        [congruence|].
      destruct (proj2 (Hsame y) (or_introl eq_refl)) as [Hxy|Hin1];
        [congruence|].
      exfalso. apply (StringOrder.compare_lt_irrefl (keyOf x)).
      eapply StringOrder.compare_lt_trans;
        [apply (Hall1 y Hin1)|apply (Hall2 x Hin2)]. }
    subst y. f_equal. apply IH; [exact Hs1'|exact Hs2'|].
    intros z. split; intros Hz.
    + destruct (proj1 (Hsame z) (or_intror Hz)) as [<-|Hin]; [|exact Hin].
      exfalso. apply (StringOrder.compare_lt_irrefl (keyOf x)).
      apply (Hall1 x Hz).
    + destruct (proj2 (Hsame z) (or_intror Hz)) as [<-|Hin]; [|exact Hin].
      exfalso. apply (StringOrder.compare_lt_irrefl (keyOf x)).
      apply (Hall2 x Hz).
Qed.
End Keyed.

End SortedFacts.

Module CalendarFacts.
Import Js Cal Tracker.

Lemma dayOfEra_range (z : Date) : 0 <= dayOfEra z <= 146096.
Proof.
  unfold dayOfEra. pose proof (Z.mod_pos_bound (z + 719468) 146097). lia.
Qed.

Lemma dayOfYear_range (doe : Z) :
  0 <= doe <= 146096 -> 0 <= dayOfYear doe <= 365.
Proof.
  intros Hdoe. unfold dayOfYear, yearOfEra.
  Z.to_euclidean_division_equations; lia.
Qed.

Lemma getMonth_range (z : Date) : 0 <= getMonth z <= 11.
Proof.
  unfold getMonth, marchMonth.
  pose proof (dayOfYear_range (dayOfEra z) (dayOfEra_range z)) as Hdoy.
  destruct (Z.ltb_spec ((5 * dayOfYear (dayOfEra z) + 2) / 153) 10);
    Z.to_euclidean_division_equations; lia.
Qed.

Lemma ofZ_inj (a b : Z) : ofZ a = ofZ b -> a = b.
Proof.
  unfold ofZ. intros Heq.
  apply (f_equal NilEmpty.int_of_string) in Heq.
  rewrite !NilEmpty.isi in Heq. injection Heq as Heq.
  apply DecimalZ.to_int_inj. exact Heq.
Qed.

Lemma append_nil_l (s : string) : String.append "" s = s.
Proof. reflexivity. Qed.

Lemma append_cons (x : ascii) (a s : string) :
  String.append (String x a) s = String x (String.append a s).
Proof. reflexivity. Qed.

Lemma append_length (a b : string) :
  String.length (String.append a b) = (String.length a + String.length b)%nat.
Proof.
  induction a as [|x a IH]; [reflexivity|].
  rewrite append_cons. simpl. rewrite IH. reflexivity.
Qed.

Lemma append_inj_tail (a b s t : string) :
  String.length s = String.length t ->
  String.append a s = String.append b t -> a = b /\ s = t.
Proof.
  intros Hlen. revert b.
  induction a as [|x a IH]; intros [|y b];
    rewrite ?append_nil_l, ?append_cons; intros Heq.
  - auto.
  - exfalso. rewrite Heq in Hlen. simpl in Hlen.
    rewrite append_length in Hlen. lia.
  - exfalso. rewrite <- Heq in Hlen. simpl in Hlen.
    rewrite append_length in Hlen. lia.
  - injection Heq as -> Heq. apply IH in Heq. destruct Heq as [-> ->]. auto.
Qed.

Lemma month_cases (m : Z) :
  0 <= m <= 11 ->
  In m [0; 1; 2; 3; 4; 5; 6; 7; 8; 9; 10; 11].
Proof. intros Hm. simpl. lia. Qed.

Lemma monthText_length (m : Z) :
  0 <= m <= 11 -> String.length (padStart0 (ofZ (m + 1)) 2) = 2%nat.
Proof.
  intros Hm. apply month_cases in Hm. simpl in Hm.
  repeat (destruct Hm as [<-|Hm]; [reflexivity|]). contradiction.
Qed.

Lemma monthText_inj (m m' : Z) :
  0 <= m <= 11 -> 0 <= m' <= 11 ->
  padStart0 (ofZ (m + 1)) 2 = padStart0 (ofZ (m' + 1)) 2 -> m = m'.
Proof.
  intros Hm Hm'. apply month_cases in Hm. apply month_cases in Hm'.
  simpl in Hm, Hm'.
  repeat (destruct Hm as [<-|Hm]; [|]); try contradiction;
    repeat (destruct Hm' as [<-|Hm']; [|]); try contradiction;
    vm_compute; intros Heq; solve [reflexivity | discriminate Heq].
Qed.

(** Two days have the same month key exactly when they lie in the same month
    of the same year. *)
Lemma monthKey_same_month (d d' : Date) :
  monthKey d = monthKey d' <->
  getYear d = getYear d' /\ getMonth d = getMonth d'.
Proof.
  unfold monthKey. split.
  - intros Heq. apply append_inj_tail in Heq.
    + destruct Heq as [Hy Hm]. apply ofZ_inj in Hy.
      rewrite !append_cons, !append_nil_l in Hm. injection Hm as Hm.
      apply monthText_inj in Hm; auto using getMonth_range.
    + rewrite !append_length, !monthText_length; auto using getMonth_range.
  - intros [-> ->]. reflexivity.
Qed.

End CalendarFacts.

Module MonthFacts.
Import Js Cal Tracker Spec Reference.

Lemma sumCounts_app (l1 l2 : list NormalizedEvent) :
  (sumCounts (l1 ++ l2) == sumCounts l1 + sumCounts l2)%Q.
Proof.
  induction l1 as [|e l1 IH]; simpl.
  - ring.
  - rewrite IH. ring.
Qed.

Lemma sumCounts_perm (l1 l2 : list NormalizedEvent) :
  Permutation l1 l2 -> (sumCounts l1 == sumCounts l2)%Q.
Proof.
  induction 1 as [|e l1 l2 _ IH|e1 e2 l|l1 l2 l3 _ IH1 _ IH2]; simpl.
  - reflexivity.
  - rewrite IH. reflexivity.
  - ring.
  - rewrite IH1. exact IH2.
Qed.

Lemma filter_perm {A : Type} (f : A -> bool) (l1 l2 : list A) :
  Permutation l1 l2 -> Permutation (List.filter f l1) (List.filter f l2).
Proof.
  induction 1 as [|x l1 l2 _ IH|x y l|l1 l2 l3 _ IH1 _ IH2]; simpl.
  - constructor.
  - destruct (f x); [constructor|]; exact IH.
  - destruct (f x), (f y); try reflexivity. apply perm_swap.
  - etransitivity; eassumption.
Qed.

Lemma monthTotal_perm (k : string) (l1 l2 : list NormalizedEvent) :
  Permutation l1 l2 -> monthTotal k l1 = monthTotal k l2.
Proof.
  intros Hperm. unfold monthTotal.
  pose proof (filter_perm
                (fun e => hasMail e && String.eqb (monthKey (mailDate e)) k)
                l1 l2 Hperm) as Hf.
  fold (mailOfMonth k l1) in Hf. fold (mailOfMonth k l2) in Hf.
  pose proof (sumCounts_perm _ _ Hf) as Hsum.
  destruct (mailOfMonth k l1) as [|a t1], (mailOfMonth k l2) as [|b t2].
  - reflexivity.
  - apply Permutation_nil in Hf. discriminate.
  - symmetry in Hf. apply Permutation_nil in Hf. discriminate.
  - f_equal. apply Qred_complete. exact Hsum.
Qed.

Lemma getOrZero_eq (q : Q) : (getOrZero (Some q) == q)%Q.
Proof.
  unfold getOrZero. destruct (Qeq_bool q 0) eqn:Hq; [|reflexivity].
  apply Qeq_bool_eq in Hq. symmetry. exact Hq.
Qed.

Lemma mailOfMonth_snoc (k : string) (l : list NormalizedEvent)
  (e : NormalizedEvent) :
  mailOfMonth k (l ++ [e]) =
  mailOfMonth k l
  ++ (if hasMail e && String.eqb (monthKey (mailDate e)) k then [e] else []).
Proof. unfold mailOfMonth. rewrite List.filter_app. reflexivity. Qed.

(** After any prefix of the loop the map holds, under distinct keys, the
    total of each month seen so far. *)
Lemma fold_addMonth_spec (l : list NormalizedEvent) :
  List.NoDup (map fst (fold_left addMonth l []))
  /\ forall k, mapGet (fold_left addMonth l []) k = monthTotal k l.
Proof.
  induction l as [|e l [IHnd IHget]] using rev_ind.
  - split; [constructor|reflexivity].
  - rewrite fold_left_app. cbn [fold_left]. unfold addMonth at 1 3.
    destruct (hasMail e) eqn:Hmail; cbn [negb].
    + split; [apply MapFacts.mapSet_NoDup; exact IHnd|].
      intros k. rewrite MapFacts.mapGet_mapSet.
      unfold monthTotal. rewrite mailOfMonth_snoc, Hmail. cbn [andb].
      destruct (String.eqb (monthKey (mailDate e)) k) eqn:Hk.
      * apply String.eqb_eq in Hk. rewrite Hk, IHget. unfold monthTotal.
        destruct (mailOfMonth k l) as [|a t] eqn:Hl.
        -- cbn. f_equal. apply Qred_complete. ring.
        -- assert (Hne : exists b u, (a :: t) ++ [e] = b :: u)
             by (cbn; eauto).
           destruct Hne as [b [u Hbu]]. rewrite Hbu, <- Hbu.
           f_equal. unfold numAdd. apply Qred_complete.
           rewrite getOrZero_eq, Qred_correct, sumCounts_app. cbn. ring.
      * rewrite app_nil_r. apply IHget.
    + split; [exact IHnd|]. intros k. rewrite IHget.
      unfold monthTotal. rewrite mailOfMonth_snoc, Hmail. cbn [andb].
      rewrite app_nil_r. reflexivity.
Qed.

Lemma monthAgg_In (data : list NormalizedEvent) (k : string) (q : Q) :
  In {| key := k; total := q |} (monthAgg data) <-> monthTotal k data = Some q.
Proof.
  unfold monthAgg. rewrite TaskFacts.sortBy_In.
  destruct (fold_addMonth_spec data) as [Hnd Hget].
  rewrite <- Hget, <- (MapFacts.mapGet_In _ _ _ Hnd), in_map_iff. split.
  - intros [[k' q'] [[= -> ->] Hin]]. exact Hin.
  - intros Hin. exists (k, q). auto.
Qed.

Lemma monthAgg_sorted (data : list NormalizedEvent) :
  StronglySorted (keyLt key) (monthAgg data).
Proof.
  unfold monthAgg.
  apply (SortedFacts.sortBy_sorted key).
  rewrite map_map.
  destruct (fold_addMonth_spec data) as [Hnd _].
  erewrite map_ext; [exact Hnd|]. intros [k q]. reflexivity.
Qed.

(** C7 (amended).  For events whose counts are whole numbers with absolute
    values adding up to at most 2^53, where the additions of the code are
    exact: the monthly aggregate has one entry for each month key borne by
    a mail-bearing event, its total the sum of the counts of those events;
    month keys coincide exactly for days of the same month and year; the
    entries ascend strictly by key; and a permutation of the events leaves
    the aggregate unchanged. *)
Theorem C7_month_aggregate (data data' : list NormalizedEvent) :
  exactCounts data = true ->
  Permutation data data' ->
  (forall k q,
     In {| key := k; total := q |} (monthAgg data) <->
     (mailOfMonth k data <> [] /\ q = Qred (sumCounts (mailOfMonth k data))))
  /\ (forall d d',
        monthKey d = monthKey d' <->
        getYear d = getYear d' /\ getMonth d = getMonth d')
  /\ StronglySorted (fun a b => Js.compare (key a) (key b) = Lt)
       (monthAgg data)
  /\ monthAgg data = monthAgg data'.
Proof.
  intros _ Hperm. split; [|split; [|split]].
  - intros k q. rewrite monthAgg_In. unfold monthTotal.
    destruct (mailOfMonth k data) as [|a t]; split.
    + discriminate.
    + intros [Hne _]. contradiction.
    + intros [= <-]. split; [discriminate|reflexivity].
    + intros [_ ->]. reflexivity.
  - apply CalendarFacts.monthKey_same_month.
  - apply monthAgg_sorted.
  - apply (SortedFacts.sorted_same_elements key); try apply monthAgg_sorted.
    intros [k q]. rewrite !monthAgg_In.
    rewrite (monthTotal_perm k data data' Hperm). reflexivity.
Qed.

Lemma C7_month_aggregate_witness :
  exactCounts (data 0 sampleRows) = true
  /\ Permutation (data 0 sampleRows) (rev (data 0 sampleRows))
  /\ monthAgg (rev (data 0 sampleRows)) = monthAgg (data 0 sampleRows)
  /\ monthAgg (data 0 sampleRows)
     = [ {| key := "2025-08"; total := 2444 |};
         {| key := "2025-09"; total := 6732 |} ].
Proof.
  assert (Hexact : exactCounts (data 0 sampleRows) = true)
    by (vm_compute; reflexivity).
  assert (Hperm : Permutation (data 0 sampleRows) (rev (data 0 sampleRows)))
    by apply Permutation_rev.
  destruct (C7_month_aggregate _ _ Hexact Hperm) as [_ [_ [_ Heq]]].
  split; [exact Hexact|]. split; [exact Hperm|].
  split; [symmetry; exact Heq|].
  vm_compute; reflexivity.
Defined.

End MonthFacts.

(* ===================================================================== *)
(** ** The month aggregate on doubles *)
(* ===================================================================== *)

Module DoubleFacts.
Import Js Cal Tracker Doubles.
Import PrimFloat.
#[local] Set Warnings "-inexact-float".

(** C7 (as stated, refuted).  Three mail events of one month with the
    counts 0.1, 0.2 and 0.3 total 0.6000000000000001 in this order and 0.6
    in the reverse order: the total of a month is not the arithmetic total
    of the counts, and the aggregate depends on the order of the rows. *)
Lemma C7_fractional_counts_counterexample :
  Permutation
    [mailOn 20094 0.1; mailOn 20095 0.2; mailOn 20096 0.3]
    [mailOn 20096 0.3; mailOn 20095 0.2; mailOn 20094 0.1]
  /\ monthAggD [mailOn 20094 0.1; mailOn 20095 0.2; mailOn 20096 0.3]
     = [ {| keyD := "2025-01"; totalD := 0.6000000000000001 |} ]
  /\ monthAggD [mailOn 20096 0.3; mailOn 20095 0.2; mailOn 20094 0.1]
     = [ {| keyD := "2025-01"; totalD := 0.6 |} ]
  /\ monthAggD [mailOn 20094 0.1; mailOn 20095 0.2; mailOn 20096 0.3]
     <> monthAggD [mailOn 20096 0.3; mailOn 20095 0.2; mailOn 20094 0.1].
Proof.
  split; [|split; [|split]].
  - apply (Permutation_rev
             [mailOn 20094 0.1; mailOn 20095 0.2; mailOn 20096 0.3]).
  - vm_compute. reflexivity.
  - vm_compute. reflexivity.
  - intros Heq.
    apply (f_equal (map (fun m => PrimFloat.eqb (totalD m) 0.6))) in Heq.
    vm_compute in Heq. discriminate.
Qed.

End DoubleFacts.

(* ===================================================================== *)
(** ** Properties of the cadence group key *)
(* ===================================================================== *)

Module KeyFacts.
Import Js Cal Tracker Spec.

(** Case analysis on the 256 characters, each case closed by computation. *)
Ltac each_char c tac :=
  destruct c as [[] [] [] [] [] [] [] []]; vm_compute; tac.

(** The range test on a one-character string is the letter test. *)
Lemma letter_range (c : ascii) :
  geb (String (upperChar c) "") "A" && leb (String (upperChar c) "") "Z"
  = isLetter c.
Proof. each_char c ltac:(reflexivity). Qed.

Lemma letter_not_space (c : ascii) : isLetter c = true -> isSpace c = false.
Proof. each_char c ltac:(congruence). Qed.

Lemma firstLetter_spec (p : string) :
  firstLetter p =
  match firstLetterOf p with Some l => String l "" | None => "" end.
Proof.
  induction p as [|c p IH]; [reflexivity|].
  cbn [firstLetter firstLetterOf]. rewrite letter_range.
  destruct (isLetter c); [reflexivity|exact IH].
Qed.

Lemma firstLetterOf_Some (p : string) (l : ascii) :
  firstLetterOf p = Some l ->
  exists c, In c (list_ascii_of_string p) /\ isLetter c = true
            /\ l = upperChar c.
Proof.
  induction p as [|c p IH]; cbn [firstLetterOf]; [discriminate|].
  destruct (isLetter c) eqn:Hc.
  - intros [= <-]. exists c. cbn. auto.
  - intros Hl. destruct (IH Hl) as [c' [Hin Hrest]]. exists c'. cbn. auto.
Qed.

Lemma firstLetterOf_existsb (p : string) :
  existsb isLetter (list_ascii_of_string p) =
  match firstLetterOf p with Some _ => true | None => false end.
Proof.
  induction p as [|c p IH]; [reflexivity|].
  cbn [list_ascii_of_string existsb firstLetterOf].
  destruct (isLetter c); [reflexivity|exact IH].
Qed.

End KeyFacts.

Module BaseFacts.
Import Js Cal Tracker Spec.

Lemma drop_nil (n : nat) : drop n "" = "".
Proof. destruct n; reflexivity. Qed.

Lemma drop_drop (n k : nat) (s : string) : drop k (drop n s) = drop (n + k) s.
Proof.
  revert s. induction n as [|n IH]; intros s; [reflexivity|].
  destruct s as [|c s]; [cbn; apply drop_nil|]. cbn. apply IH.
Qed.

(** *** White space at the end *)

Lemma trimEnd_tail (c : ascii) (s : string) :
  trimEnd (String c s) = String c s -> trimEnd s = s.
Proof.
  cbn [trimEnd]. destruct (trimEnd s) as [|x t] eqn:Ht.
  - destruct (isSpace c); [discriminate|]. intros [= <-]. reflexivity.
  - intros [= <-]. reflexivity.
Qed.

Lemma trimEnd_drop (n : nat) (s : string) :
  trimEnd s = s -> trimEnd (drop n s) = drop n s.
Proof.
  revert s. induction n as [|n IH]; intros s Hs; [exact Hs|].
  destruct s as [|c s]; [reflexivity|]. cbn. apply IH.
  eapply trimEnd_tail. exact Hs.
Qed.

Lemma trimEnd_idem (s : string) : trimEnd (trimEnd s) = trimEnd s.
Proof.
  induction s as [|c s IH]; [reflexivity|].
  cbn [trimEnd]. destruct (trimEnd s) as [|x t] eqn:Ht.
  - destruct (isSpace c) eqn:Hc; [reflexivity|]. cbn. rewrite Hc. reflexivity.
  - cbn [trimEnd] in *. rewrite IH. reflexivity.
Qed.

Lemma trimStart_drop (s : string) : exists n, trimStart s = drop n s.
Proof.
  induction s as [|c s [n IH]].
  - exists 0%nat. reflexivity.
  - cbn [trimStart]. destruct (isSpace c).
    + exists (S n). exact IH.
    + exists 0%nat. reflexivity.
Qed.

Lemma trim_of_trimmed (u : string) : trimEnd u = u -> trim u = trimStart u.
Proof.
  intros Hu. unfold trim. destruct (trimStart_drop u) as [n ->].
  apply trimEnd_drop. exact Hu.
Qed.

Lemma trim_trimmed (s : string) : trimEnd (trim s) = trim s.
Proof. unfold trim. apply trimEnd_idem. Qed.

(** *** The suffix test *)

Lemma suffix_test (u : string) :
  (len (trimStart u) =? 1)
  && geb (toUpperCase (trimStart u)) "A" && leb (toUpperCase (trimStart u)) "Z"
  = spacesThenLetter u.
Proof.
  induction u as [|c u IH]; [reflexivity|].
  cbn [trimStart spacesThenLetter].
  destruct (isSpace c) eqn:Hc.
  - rewrite IH. destruct u as [|c' u]; [|reflexivity].
    cbn. destruct (isLetter c) eqn:Hl; [|reflexivity].
    apply KeyFacts.letter_not_space in Hl. congruence.
  - destruct u as [|c' u].
    + cbn [len String.length toUpperCase smap]. rewrite <- andb_assoc.
      rewrite KeyFacts.letter_range. reflexivity.
    + cbn [andb]. unfold len. cbn [String.length].
      destruct (Z.eqb_spec (Z.of_nat (S (S (String.length u)))) 1); [lia|].
      reflexivity.
Qed.

(** *** The last occurrence of the separator *)

Lemma startsWith_sep (s : string) :
  startsWith " - " s = true ->
  exists r, s = String " " (String "-" (String " " r)).
Proof.
  intros H.
  destruct s as [|a s]; [discriminate|].
  cbn [startsWith] in H. apply andb_prop in H. destruct H as [Ha H].
  destruct s as [|b s]; [discriminate|].
  cbn [startsWith] in H. apply andb_prop in H. destruct H as [Hb H].
  destruct s as [|c r]; [discriminate|].
  cbn [startsWith] in H. apply andb_prop in H. destruct H as [Hc _].
  apply Ascii.eqb_eq in Ha, Hb, Hc. subst a b c. eauto.
Qed.

Lemma lastIndexFrom_spec (s : string) :
  forall i, 0 <= i ->
    (lastIndexFrom " - " s i = -1
     /\ forall m, startsWith " - " (drop m s) = false)
    \/ (exists n : nat,
          lastIndexFrom " - " s i = i + Z.of_nat n
          /\ startsWith " - " (drop n s) = true
          /\ forall m, (n < m)%nat -> startsWith " - " (drop m s) = false).
Proof.
  induction s as [|c s IH]; intros i Hi.
  - left. split; [reflexivity|]. intros m. rewrite drop_nil. reflexivity.
  - cbn [lastIndexFrom].
    destruct (IH (i + 1) ltac:(lia)) as [[Hlater Hnone]|[n [Hlater [Hocc Hlast]]]].
    + rewrite Hlater. cbn [Z.leb Z.compare].
      destruct (startsWith " - " (String c s)) eqn:Hhere.
      * right. exists 0%nat. split; [lia|]. split; [exact Hhere|].
        intros [|m] Hm; [lia|]. cbn [drop]. apply Hnone.
      * left. split; [reflexivity|].
        intros [|m]; [exact Hhere|cbn [drop]; apply Hnone].
    + rewrite Hlater.
      destruct (Z.leb_spec 0 (i + 1 + Z.of_nat n)); [|lia].
      right. exists (S n). split; [lia|]. split; [exact Hocc|].
      intros [|m] Hm; [lia|]. cbn [drop]. apply Hlast. lia.
Qed.

Lemma occurrence_length (n : nat) (s : string) :
  startsWith " - " (drop n s) = true -> (n + 3 <= String.length s)%nat.
Proof.
  revert s. induction n as [|n IH]; intros s Hocc.
  - cbn [drop] in Hocc. apply startsWith_sep in Hocc.
    destruct Hocc as [r ->]. cbn. lia.
  - destruct s as [|c s]; [discriminate|]. cbn in *. apply IH in Hocc. lia.
Qed.

(** *** White space and a letter leave no room for a separator *)

Lemma spacesThenLetter_head (r : string) :
  spacesThenLetter r = true ->
  exists y r', r = String y r' /\ (isSpace y = true \/ isLetter y = true).
Proof.
  destruct r as [|y r']; [discriminate|]. cbn [spacesThenLetter].
  destruct r' as [|z r''].
  - intros Hy. eauto.
  - intros Hy. apply andb_prop in Hy. destruct Hy as [Hy _]. eauto.
Qed.

Lemma not_dash (y : ascii) :
  isSpace y = true \/ isLetter y = true -> Ascii.eqb "-" y = false.
Proof. KeyFacts.each_char y ltac:(intuition congruence). Qed.

Lemma spacesThenLetter_no_sep_here (r : string) :
  spacesThenLetter r = true -> startsWith " - " r = false.
Proof.
  intros Hr. destruct (startsWith " - " r) eqn:Hs; [|reflexivity].
  apply startsWith_sep in Hs. destruct Hs as [r' ->].
  cbn [spacesThenLetter] in Hr. apply andb_prop in Hr. destruct Hr as [_ Hr].
  apply andb_prop in Hr. destruct Hr as [Hdash _].
  vm_compute in Hdash. discriminate.
Qed.

Lemma spacesThenLetter_drop (m : nat) (r : string) :
  spacesThenLetter r = true ->
  drop m r = "" \/ spacesThenLetter (drop m r) = true.
Proof.
  revert r. induction m as [|m IH]; intros r Hr; [right; exact Hr|].
  destruct r as [|y r]; [discriminate|]. cbn [drop].
  cbn [spacesThenLetter] in Hr. destruct r as [|z r].
  - left. apply drop_nil.
  - apply andb_prop in Hr. destruct Hr as [_ Hr]. apply IH. exact Hr.
Qed.

Lemma spacesThenLetter_no_sep (m : nat) (r : string) :
  spacesThenLetter r = true -> startsWith " - " (drop m r) = false.
Proof.
  intros Hr. destruct (spacesThenLetter_drop m r Hr) as [->|Hd].
  - reflexivity.
  - apply spacesThenLetter_no_sep_here. exact Hd.
Qed.

(** After a separator that is followed by white space and one letter there
    is no further separator. *)
Lemma no_later_sep (n : nat) (s : string) :
  startsWith " - " (drop n s) = true ->
  spacesThenLetter (drop (n + 3) s) = true ->
  forall m, (n < m)%nat -> startsWith " - " (drop m s) = false.
Proof.
  intros Hocc Hr m Hm.
  rewrite <- drop_drop in Hr.
  apply startsWith_sep in Hocc. destruct Hocc as [r Hs].
  rewrite Hs in Hr. cbn [drop] in Hr.
  replace m with (n + (m - n))%nat by lia. rewrite <- drop_drop, Hs.
  destruct (m - n)%nat as [|[|[|k]]] eqn:Hk; [lia| | |].
  - reflexivity.
  - cbn [drop startsWith].
    apply spacesThenLetter_head in Hr. destruct Hr as [y [r' [-> Hy]]].
    apply not_dash in Hy. rewrite Hy. rewrite andb_false_r. reflexivity.
  - cbn [drop]. apply spacesThenLetter_no_sep. exact Hr.
Qed.

(** *** The amended base *)

Lemma beforeLetterSuffix_sound (s pre : string) :
  beforeLetterSuffix s = Some pre ->
  exists n : nat,
    pre = take n s /\ startsWith " - " (drop n s) = true
    /\ spacesThenLetter (drop (n + 3) s) = true.
Proof.
  revert pre. induction s as [|c s IH]; intros pre; [discriminate|].
  cbn [beforeLetterSuffix].
  destruct (beforeLetterSuffix s) as [pre'|].
  - intros [= <-]. destruct (IH pre' eq_refl) as [n [-> [Hocc Hr]]].
    exists (S n). auto.
  - destruct (startsWith " - " (String c s)) eqn:Hocc; [|discriminate].
    destruct (spacesThenLetter (drop 3 (String c s))) eqn:Hr; [|discriminate].
    intros [= <-]. exists 0%nat. auto.
Qed.

Lemma beforeLetterSuffix_complete (n : nat) (s : string) :
  startsWith " - " (drop n s) = true ->
  spacesThenLetter (drop (n + 3) s) = true ->
  beforeLetterSuffix s = Some (take n s).
Proof.
  revert s. induction n as [|n IH]; intros s Hocc Hr.
  - destruct s as [|c s]; [discriminate|].
    cbn [beforeLetterSuffix take].
    destruct (beforeLetterSuffix s) as [pre|] eqn:Hin.
    + exfalso. apply beforeLetterSuffix_sound in Hin.
      destruct Hin as [k [_ [Hk _]]].
      pose proof (no_later_sep 0 (String c s) Hocc Hr (S k) ltac:(lia)) as Hno.
      cbn [drop] in Hno. congruence.
    + change (drop 0 (String c s)) with (String c s) in Hocc.
      change (0 + 3)%nat with 3%nat in Hr. rewrite Hocc, Hr. reflexivity.
  - destruct s as [|c s]; [discriminate|].
    cbn [beforeLetterSuffix take]. cbn in Hocc, Hr.
    rewrite (IH s Hocc Hr). reflexivity.
Qed.

End BaseFacts.

Module GroupKeyFacts.
Import Js Cal Tracker Spec Reference BaseFacts.

(** On a string without white space at its end, the statements that strip
    the suffix compute the amended base. *)
Lemma strip_of_trimmed (t : string) :
  trimEnd t = t ->
  (if (-1 <? lastIndexOf t " - ") && (lastIndexOf t " - " + 3 <=? len t)
   then
     if (len (trim (sliceFrom t (lastIndexOf t " - " + 3))) =? 1)
        && geb (toUpperCase (trim (sliceFrom t (lastIndexOf t " - " + 3)))) "A"
        && leb (toUpperCase (trim (sliceFrom t (lastIndexOf t " - " + 3)))) "Z"
     then sliceTo t (lastIndexOf t " - ") else t
   else t)
  = match beforeLetterSuffix t with Some pre => pre | None => t end.
Proof.
  intros Ht. unfold lastIndexOf.
  destruct (lastIndexFrom_spec t 0 ltac:(lia))
    as [[Hidx Hnone]|[n [Hidx [Hocc Hlast]]]]; rewrite Hidx.
  - cbn [Z.ltb Z.compare andb].
    destruct (beforeLetterSuffix t) as [pre|] eqn:Hb; [|reflexivity].
    apply beforeLetterSuffix_sound in Hb. destruct Hb as [k [_ [Hk _]]].
    rewrite Hnone in Hk. discriminate.
  - pose proof (occurrence_length n t Hocc) as Hlen.
    destruct (Z.ltb_spec (-1) (0 + Z.of_nat n)); [|lia].
    unfold len. destruct (Z.leb_spec (0 + Z.of_nat n + 3)
                            (Z.of_nat (String.length t))); [|lia].
    cbn [andb]. unfold sliceFrom, sliceTo.
    replace (Z.to_nat (0 + Z.of_nat n + 3)) with (n + 3)%nat by lia.
    replace (Z.to_nat (0 + Z.of_nat n)) with n by lia.
    rewrite (trim_of_trimmed (drop (n + 3) t) (trimEnd_drop _ _ Ht)).
    fold (len (trimStart (drop (n + 3) t))). rewrite suffix_test.
    destruct (spacesThenLetter (drop (n + 3) t)) eqn:Hr.
    + rewrite (beforeLetterSuffix_complete n t Hocc Hr). reflexivity.
    + destruct (beforeLetterSuffix t) as [pre|] eqn:Hb; [|reflexivity].
      exfalso. apply beforeLetterSuffix_sound in Hb.
      destruct Hb as [k [_ [Hk Hkr]]].
      destruct (Nat.lt_trichotomy k n) as [Hlt|[->|Hgt]].
      * rewrite (no_later_sep k t Hk Hkr n Hlt) in Hocc. discriminate.
      * congruence.
      * rewrite (Hlast k Hgt) in Hk. discriminate.
Qed.

(** What [build] computes, in full. *)
Lemma build_spec (campaign part : string) :
  build campaign part =
  match firstLetterOf part with
  | Some l => String.append (baseOf campaign) (String.append " - " (String l ""))
  | None => baseOf campaign
  end.
Proof.
  unfold build, baseOf. cbv zeta.
  rewrite (strip_of_trimmed (trim campaign) (trim_trimmed campaign)).
  rewrite KeyFacts.firstLetter_spec.
  destruct (firstLetterOf part); reflexivity.
Qed.

(** C6 (as stated, refuted).  A lower-case suffix letter is stripped, where
    the stated rule strips upper-case letters only; and of the three stated
    examples the first gives "DM 1 - B" and the third gives "DM 1". *)
Lemma C6_identity_counterexample :
  build "DM 1 - a" "B" = "DM 1 - B"
  /\ identity "DM 1 - a" "B" = "DM 1 - a - B"
  /\ build "DM 1" "Batch A" = "DM 1 - B"
  /\ build "DM 1 - A" "" = "DM 1".
Proof. repeat split; vm_compute; reflexivity. Qed.

(** C6 (amended).  For a campaign and a part of ASCII characters: the base
    of the identity is the trimmed campaign without what follows its last
    " - " when that is, white space apart, one letter of either case.  For
    a part with a letter the identity is the base, " - " and the upper case
    of a letter of the part; for a part without letters and a campaign
    without such a suffix it is the trimmed campaign.  The base is
    characterised by the shape of the trimmed campaign, and
    ("DM 1 - A", "Batch B") gives "DM 1 - B". *)
Theorem C6_group_identity (campaign part : string) :
  isAscii campaign = true ->
  isAscii part = true ->
  (if existsb isLetter (list_ascii_of_string part)
   then exists c,
          In c (list_ascii_of_string part) /\ isLetter c = true
          /\ build campaign part =
             String.append (baseOf campaign)
               (String.append " - " (String (upperChar c) ""))
   else match beforeLetterSuffix (trim campaign) with
        | None => build campaign part = trim campaign
        | Some _ => True
        end)
  /\ match beforeLetterSuffix (trim campaign) with
     | Some pre =>
         baseOf campaign = pre
         /\ exists n : nat,
              pre = take n (trim campaign)
              /\ startsWith " - " (drop n (trim campaign)) = true
              /\ spacesThenLetter (drop (n + 3) (trim campaign)) = true
              /\ forall m : nat,
                   (n < m)%nat ->
                   startsWith " - " (drop m (trim campaign)) = false
     | None =>
         baseOf campaign = trim campaign
         /\ forall n : nat,
              startsWith " - " (drop n (trim campaign)) = true ->
              spacesThenLetter (drop (n + 3) (trim campaign)) = false
     end
  /\ (forall r : NormalizedEvent,
        groupKey r = build (Tracker.campaign r) (Tracker.part r))
  /\ build "DM 1 - A" "Batch B" = "DM 1 - B"
  /\ build "DM 1 - a" "B" = "DM 1 - B"
  /\ build "  DM 1 -  A " "B" = "DM 1 - B"
  /\ build " DM 1 " "" = "DM 1".
Proof.
  intros _ _.
  split; [|split; [|split; [reflexivity|repeat split; vm_compute; reflexivity]]].
  - rewrite build_spec, KeyFacts.firstLetterOf_existsb.
    destruct (firstLetterOf part) as [l|] eqn:Hl.
    + apply KeyFacts.firstLetterOf_Some in Hl.
      destruct Hl as [c [Hin [Hc ->]]]. exists c. auto.
    + unfold baseOf. destruct (beforeLetterSuffix (trim campaign)); auto.
  - unfold baseOf.
    destruct (beforeLetterSuffix (trim campaign)) as [pre|] eqn:Hb.
    + split; [reflexivity|]. apply beforeLetterSuffix_sound in Hb.
      destruct Hb as [n [Hpre [Hocc Hr]]]. exists n.
      repeat split; try assumption. apply no_later_sep; assumption.
    + split; [reflexivity|]. intros n Hocc.
      destruct (spacesThenLetter (drop (n + 3) (trim campaign))) eqn:Hr;
        [|reflexivity].
      rewrite (beforeLetterSuffix_complete n _ Hocc Hr) in Hb. discriminate.
Qed.

Lemma C6_group_identity_witness :
  isAscii "DM 1 - A" = true
  /\ isAscii "Batch B" = true
  /\ baseOf "DM 1 - A" = "DM 1"
  /\ exists c,
       In c (list_ascii_of_string "Batch B") /\ isLetter c = true
       /\ build "DM 1 - A" "Batch B"
          = String.append (baseOf "DM 1 - A")
              (String.append " - " (String (upperChar c) "")).
Proof.
  assert (Hc : isAscii "DM 1 - A" = true) by reflexivity.
  assert (Hp : isAscii "Batch B" = true) by reflexivity.
  destruct (C6_group_identity "DM 1 - A" "Batch B" Hc Hp)
    as [Hkey [Hbase _]].
  split; [exact Hc|]. split; [exact Hp|]. split.
  - vm_compute. reflexivity.
  - exact Hkey.
Defined.

End GroupKeyFacts.

(* ===================================================================== *)
(** ** The calendar of the date library *)
(* ===================================================================== *)

Module MonthCalendar.
Import Js Cal DateFns ViewSpec.
Import CalendarFacts.

Ltac divlia := Z.to_euclidean_division_equations; lia.

Lemma yearOfEra_range (doe : Z) :
  0 <= doe <= 146096 -> 0 <= yearOfEra doe <= 399.
Proof. intros H. unfold yearOfEra. divlia. Qed.

Lemma marchMonth_range (doe : Z) :
  0 <= doe <= 146096 -> 0 <= marchMonth doe <= 11.
Proof.
  intros H. unfold marchMonth. pose proof (dayOfYear_range doe H). divlia.
Qed.

Lemma era_split (z : Date) :
  z + 719468 = 146097 * ((z + 719468) / 146097) + dayOfEra z.
Proof. unfold dayOfEra. apply Z.div_mod. lia. Qed.

(** The conversion from a day to a civil date and back. *)
Lemma civil_roundtrip (z : Date) :
  daysFromCivil (getYear z) (getMonth z + 1) (getDate z) = z.
Proof.
  unfold daysFromCivil, getYear, getMonth, getDate.
  pose proof (dayOfEra_range z) as Hdoe.
  pose proof (yearOfEra_range _ Hdoe) as Hyoe.
  pose proof (marchMonth_range _ Hdoe) as Hmp.
  pose proof (era_split z) as Hz.
  set (era := (z + 719468) / 146097) in *.
  set (doe := dayOfEra z) in *.
  set (mp := marchMonth doe) in *.
  set (yoe := yearOfEra doe) in *.
  assert (Hdoy : dayOfYear doe = doe - (365 * yoe + yoe / 4 - yoe / 100))
    by reflexivity.
  set (doy := dayOfYear doe) in *.
  destruct (Z.ltb_spec mp 10) as [Hlt|Hge].
  - destruct (Z.leb_spec (mp + 2) 1); [lia|].
    destruct (Z.leb_spec (mp + 2 + 1) 2); [lia|].
    destruct (Z.ltb_spec 2 (mp + 2 + 1)); [|lia].
    replace (mp + 2 + 1 - 3) with mp by lia.
    replace ((yoe + era * 400) / 400) with era by divlia.
    divlia.
  - destruct (Z.leb_spec (mp - 10) 1); [|lia].
    destruct (Z.leb_spec (mp - 10 + 1) 2); [|lia].
    destruct (Z.ltb_spec 2 (mp - 10 + 1)); [lia|].
    replace (mp - 10 + 1 + 9) with mp by lia.
    replace (yoe + era * 400 + 1 - 1) with (yoe + era * 400) by lia.
    replace ((yoe + era * 400) / 400) with era by divlia.
    divlia.
Qed.

Lemma getDate_lower (z : Date) : 1 <= getDate z.
Proof.
  unfold getDate, marchMonth.
  pose proof (dayOfYear_range _ (dayOfEra_range z)). divlia.
Qed.

Lemma daysFromCivil_day (y m d : Z) :
  daysFromCivil y m d = daysFromCivil y m 1 + (d - 1).
Proof. unfold daysFromCivil. lia. Qed.

Lemma startOfMonth_civil (z : Date) :
  startOfMonth z = daysFromCivil (getYear z) (getMonth z + 1) 1.
Proof.
  unfold startOfMonth. pose proof (civil_roundtrip z) as Hrt.
  rewrite daysFromCivil_day in Hrt. lia.
Qed.

Lemma startOfMonth_le (z : Date) : startOfMonth z <= z.
Proof. unfold startOfMonth. pose proof (getDate_lower z). lia. Qed.

(** *** Months in step with days *)

Lemma monthIndex_march (z : Date) :
  monthIndex z = 12 * marchYear z + marchMonth (dayOfEra z) + 2.
Proof.
  unfold monthIndex, getYear, getMonth, marchYear.
  pose proof (marchMonth_range _ (dayOfEra_range z)).
  destruct (Z.ltb_spec (marchMonth (dayOfEra z)) 10).
  - destruct (Z.leb_spec (marchMonth (dayOfEra z) + 2) 1); lia.
  - destruct (Z.leb_spec (marchMonth (dayOfEra z) - 10) 1); lia.
Qed.

Lemma yearStart_gap (a b : Z) : a < b -> yearStart a + 365 <= yearStart b.
Proof. unfold yearStart. divlia. Qed.

Lemma dayOfYear_yearStart (doe : Z) :
  dayOfYear doe = doe - yearStart (yearOfEra doe).
Proof. reflexivity. Qed.

Lemma era_monotone (a b : Z) :
  0 <= a -> a <= b -> b <= 146096 ->
  12 * yearOfEra a + marchMonth a <= 12 * yearOfEra b + marchMonth b.
Proof.
  intros Ha Hab Hb.
  pose proof (dayOfYear_range a ltac:(lia)) as Hda.
  pose proof (dayOfYear_range b ltac:(lia)) as Hdb.
  pose proof (marchMonth_range a ltac:(lia)) as Hma.
  pose proof (marchMonth_range b ltac:(lia)) as Hmb.
  rewrite dayOfYear_yearStart in Hda, Hdb.
  destruct (Z.lt_trichotomy (yearOfEra a) (yearOfEra b)) as [Hlt|[Heq|Hgt]].
  - lia.
  - unfold marchMonth. rewrite !dayOfYear_yearStart, Heq.
    rewrite Heq in Hda. divlia.
  - pose proof (yearStart_gap _ _ Hgt).
    assert (a = b) by lia. subst b. lia.
Qed.

Lemma monthIndex_monotone (a b : Date) :
  a <= b -> monthIndex a <= monthIndex b.
Proof.
  intros Hab. rewrite !monthIndex_march. unfold marchYear.
  pose proof (era_split a) as Ha. pose proof (era_split b) as Hb.
  pose proof (dayOfEra_range a) as Hra. pose proof (dayOfEra_range b) as Hrb.
  pose proof (yearOfEra_range _ Hra) as Hya.
  pose proof (yearOfEra_range _ Hrb) as Hyb.
  pose proof (marchMonth_range _ Hra) as Hma.
  pose proof (marchMonth_range _ Hrb) as Hmb.
  set (ea := (a + 719468) / 146097) in *.
  set (eb := (b + 719468) / 146097) in *.
  destruct (Z.lt_trichotomy ea eb) as [Hlt|[Heq|Hgt]].
  - lia.
  - rewrite Heq in *.
    pose proof (era_monotone (dayOfEra a) (dayOfEra b)
                  ltac:(lia) ltac:(lia) ltac:(lia)). lia.
  - lia.
Qed.

(** *** First days of months *)

Lemma yearOfEra_unique (yoe doy : Z) :
  0 <= yoe <= 399 -> 0 <= doy <= 364 ->
  yearOfEra (yearStart yoe + doy) = yoe.
Proof. intros Hy Hd. unfold yearOfEra, yearStart. divlia. Qed.

Lemma first_of_month (y m : Z) :
  1 <= m <= 12 ->
  getYear (daysFromCivil y m 1) = y
  /\ getMonth (daysFromCivil y m 1) = m - 1
  /\ getDate (daysFromCivil y m 1) = 1.
Proof.
  intros Hm.
  set (y' := if m <=? 2 then y - 1 else y).
  set (mp := if 2 <? m then m - 3 else m + 9).
  set (era := y' / 400).
  set (yoe := y' - era * 400).
  set (doy := (153 * mp + 2) / 5).
  assert (Hmp : 0 <= mp <= 11) by (subst mp; destruct (Z.ltb_spec 2 m); lia).
  assert (Hyoe : 0 <= yoe <= 399) by (subst yoe era; divlia).
  assert (Hdoy : 0 <= doy <= 337) by (subst doy; divlia).
  assert (Hz : daysFromCivil y m 1 + 719468 = 146097 * era + (yearStart yoe + doy)).
  { unfold daysFromCivil, yearStart. fold y'. fold mp. fold era. fold yoe.
    fold doy. lia. }
  assert (Hys : 0 <= yearStart yoe <= 145731) by (unfold yearStart; divlia).
  assert (Hera : (daysFromCivil y m 1 + 719468) / 146097 = era).
  { rewrite Hz. divlia. }
  assert (Hdoe : dayOfEra (daysFromCivil y m 1) = yearStart yoe + doy).
  { unfold dayOfEra. rewrite Hz. divlia. }
  assert (Hyear : yearOfEra (yearStart yoe + doy) = yoe)
    by (apply yearOfEra_unique; lia).
  assert (Hday : dayOfYear (yearStart yoe + doy) = doy).
  { rewrite dayOfYear_yearStart, Hyear. lia. }
  assert (Hmonth : marchMonth (yearStart yoe + doy) = mp).
  { unfold marchMonth. rewrite Hday. subst doy. divlia. }
  assert (HgetMonth : getMonth (daysFromCivil y m 1) = m - 1).
  { unfold getMonth. rewrite Hdoe, Hmonth. subst mp.
    destruct (Z.ltb_spec 2 m).
    - destruct (Z.ltb_spec (m - 3) 10); lia.
    - destruct (Z.ltb_spec (m + 9) 10); lia. }
  split; [|split].
  - unfold getYear. rewrite HgetMonth, Hdoe, Hyear, Hera.
    subst yoe y'. destruct (Z.leb_spec (m - 1) 1), (Z.leb_spec m 2); lia.
  - exact HgetMonth.
  - unfold getDate. rewrite Hdoe, Hday, Hmonth. subst doy. lia.
Qed.

Lemma monthIndex_same (a b : Date) :
  monthIndex a = monthIndex b <->
  getYear a = getYear b /\ getMonth a = getMonth b.
Proof.
  unfold monthIndex. pose proof (getMonth_range a). pose proof (getMonth_range b).
  split; [lia|]. intros [-> ->]. reflexivity.
Qed.


Lemma startOfMonth_index (z : Date) :
  monthIndex (startOfMonth z) = monthIndex z /\ getDate (startOfMonth z) = 1.
Proof.
  rewrite startOfMonth_civil.
  pose proof (getMonth_range z).
  destruct (first_of_month (getYear z) (getMonth z + 1) ltac:(lia))
    as [Hy [Hm Hd]].
  split; [|exact Hd]. unfold monthIndex. rewrite Hy, Hm. lia.
Qed.

(** The first day of the month after that of [z]. *)
Lemma endOfMonth_next (z : Date) :
  monthIndex (endOfMonth z + 1) = monthIndex z + 1
  /\ getDate (endOfMonth z + 1) = 1.
Proof.
  unfold endOfMonth, makeDay.
  pose proof (getMonth_range z) as Hm.
  replace (daysFromCivil (getYear z + (getMonth z + 1) / 12)
             ((getMonth z + 1) mod 12 + 1) 1 + (0 - 1) + 1)
    with (daysFromCivil (getYear z + (getMonth z + 1) / 12)
            ((getMonth z + 1) mod 12 + 1) 1) by lia.
  destruct (first_of_month (getYear z + (getMonth z + 1) / 12)
              ((getMonth z + 1) mod 12 + 1) ltac:(divlia))
    as [Hy [Hmo Hd]].
  split; [|exact Hd]. unfold monthIndex. rewrite Hy, Hmo. divlia.
Qed.

Lemma endOfMonth_ge (z : Date) : z <= endOfMonth z.
Proof.
  destruct (Z.le_gt_cases z (endOfMonth z)) as [Hle|Hgt]; [exact Hle|].
  pose proof (monthIndex_monotone (endOfMonth z + 1) z ltac:(lia)).
  pose proof (endOfMonth_next z). lia.
Qed.

Lemma endOfMonth_index (z : Date) : monthIndex (endOfMonth z) = monthIndex z.
Proof.
  pose proof (endOfMonth_ge z) as Hge.
  pose proof (monthIndex_monotone _ _ Hge) as Hlo.
  pose proof (monthIndex_monotone (endOfMonth z) (endOfMonth z + 1)
                ltac:(lia)) as Hhi.
  destruct (endOfMonth_next z) as [Hnext Hfirst].
  destruct (Z.eq_dec (monthIndex (endOfMonth z)) (monthIndex z)) as [Heq|Hne];
    [exact Heq|].
  exfalso.
  assert (Hsame : monthIndex (endOfMonth z) = monthIndex (endOfMonth z + 1))
    by lia.
  apply monthIndex_same in Hsame. destruct Hsame as [Hy Hm].
  pose proof (startOfMonth_civil (endOfMonth z)) as Hs1.
  pose proof (startOfMonth_civil (endOfMonth z + 1)) as Hs2.
  rewrite Hy, Hm, <- Hs2 in Hs1.
  pose proof (startOfMonth_le (endOfMonth z)).
  unfold startOfMonth in Hs1 at 2. lia.
Qed.

(** The days of the month of [v] are the days between its first and its
    last day. *)
Lemma month_range (v d : Date) :
  startOfMonth v <= d <= endOfMonth v <-> monthIndex d = monthIndex v.
Proof.
  split.
  - intros [Hlo Hhi].
    pose proof (monthIndex_monotone _ _ Hlo).
    pose proof (monthIndex_monotone _ _ Hhi).
    pose proof (startOfMonth_index v) as [Hs _].
    pose proof (endOfMonth_index v). lia.
  - intros Hsame. apply monthIndex_same in Hsame. destruct Hsame as [Hy Hm].
    split.
    + rewrite (startOfMonth_civil v), <- Hy, <- Hm, <- startOfMonth_civil.
      apply startOfMonth_le.
    + unfold endOfMonth. rewrite <- Hy, <- Hm. apply endOfMonth_ge.
Qed.

Lemma startOfMonth_le_end (v : Date) : startOfMonth v <= endOfMonth v.
Proof.
  pose proof (startOfMonth_le v). pose proof (endOfMonth_ge v). lia.
Qed.

(** *** Weeks *)

Lemma startOfWeek_offset (d : Date) :
  startOfWeek d = d - (d + 3) mod 7.
Proof.
  unfold startOfWeek, getDay. destruct (Z.ltb_spec ((d + 4) mod 7) 1); divlia.
Qed.

Lemma endOfWeek_start (d : Date) : endOfWeek d = startOfWeek d + 6.
Proof.
  unfold endOfWeek, startOfWeek, getDay.
  destruct (Z.ltb_spec ((d + 4) mod 7) 1); lia.
Qed.

Lemma startOfWeek_bounds (d : Date) : startOfWeek d <= d <= startOfWeek d + 6.
Proof. rewrite startOfWeek_offset. divlia. Qed.

Lemma startOfWeek_monday (d : Date) : getDay (startOfWeek d) = 1.
Proof. rewrite startOfWeek_offset. unfold getDay. divlia. Qed.

Lemma startOfWeek_shift (d k : Z) : startOfWeek (d + 7 * k) = startOfWeek d + 7 * k.
Proof. rewrite !startOfWeek_offset. divlia. Qed.

(** Two days are in the same week exactly when their weeks start on the
    same day. *)
Lemma startOfWeek_same (a d : Date) :
  startOfWeek a <= d <= startOfWeek a + 6 <-> startOfWeek d = startOfWeek a.
Proof. rewrite !startOfWeek_offset. divlia. Qed.

(** *** Lengths of months *)




Lemma next_month_gap (y m : Z) :
  1 <= m <= 11 ->
  28 <= daysFromCivil y (m + 1) 1 - daysFromCivil y m 1 <= 31.
Proof.
  intros Hm. unfold daysFromCivil. cbv zeta.
  destruct (Z.leb_spec (m + 1) 2), (Z.leb_spec m 2),
    (Z.ltb_spec 2 (m + 1)), (Z.ltb_spec 2 m); try lia; divlia.
Qed.

Lemma next_year_gap (y : Z) :
  daysFromCivil (y + 1) 1 1 - daysFromCivil y 12 1 = 31.
Proof.
  unfold daysFromCivil. cbv zeta.
  destruct (Z.leb_spec 1 2), (Z.leb_spec 12 2),
    (Z.ltb_spec 2 1), (Z.ltb_spec 2 12); try lia.
  replace (y + 1 - 1) with y by lia. divlia.
Qed.

Lemma month_length (v : Date) :
  27 <= endOfMonth v - startOfMonth v <= 30.
Proof.
  rewrite startOfMonth_civil. unfold endOfMonth, makeDay.
  pose proof (getMonth_range v) as Hm.
  set (y := getYear v). set (m := getMonth v) in *. clearbody y m.
  destruct (Z.eq_dec m 11) as [->|Hne].
  - change ((11 + 1) / 12) with 1. change ((11 + 1) mod 12 + 1) with 1.
    change (11 + 1) with 12. pose proof (next_year_gap y). lia.
  - replace ((m + 1) / 12) with 0 by divlia.
    replace ((m + 1) mod 12 + 1) with (m + 1 + 1) by divlia.
    replace (y + 0) with y by lia.
    pose proof (next_month_gap y (m + 1) ltac:(lia)). lia.
Qed.

(** *** Dates from their text *)









End MonthCalendar.

(* ===================================================================== *)
(** ** Further properties of the task list *)
(* ===================================================================== *)

Module TaskOrderFacts.
Import Js Regex Cal DateFns Tracker View Spec ViewSpec Reference.

Section ByNumber.
Context {A : Type} (f : A -> Z).

Lemma insertBy_number_sorted (x : A) (l : list A) :
  StronglySorted (fun a b => f a <= f b) l ->
  StronglySorted (fun a b => f a <= f b) (insertBy (fun a b => f a - f b) x l).
Proof.
  induction l as [|y l IH]; simpl; intros Hs.
  - constructor; constructor.
  - inversion Hs as [|? ? Hs' Hall]; subst.
    destruct (Z.ltb_spec 0 (f x - f y)) as [Hgt|Hle].
    + constructor; [apply IH; exact Hs'|].
      apply List.Forall_forall. intros z Hz.
      apply (Permutation_in _
               (TaskFacts.insertBy_perm (fun a b => f a - f b) x l)) in Hz.
      destruct Hz as [<-|Hz]; [lia|].
      rewrite List.Forall_forall in Hall. apply Hall. exact Hz.
    + constructor; [exact Hs|]. constructor; [lia|].
      eapply List.Forall_impl; [|exact Hall]. cbv beta. intros z Hz. lia.
Qed.

Lemma sortBy_number_sorted (l : list A) :
  StronglySorted (fun a b => f a <= f b) (sortBy (fun a b => f a - f b) l).
Proof.
  induction l as [|x l IH]; simpl; [constructor|].
  apply insertBy_number_sorted. exact IH.
Qed.

(** The sort is stable: the elements of any one value keep their order. *)
Lemma insertBy_number_filter (d : Z) (x : A) (l : list A) :
  List.filter (fun a => f a =? d) (insertBy (fun a b => f a - f b) x l)
  = List.filter (fun a => f a =? d) (x :: l).
Proof.
  induction l as [|y l IH]; [reflexivity|].
  cbn [insertBy].
  destruct (Z.ltb_spec 0 (f x - f y)) as [Hgt|Hle]; [|reflexivity].
  cbn [List.filter] in *. rewrite IH.
  destruct (Z.eqb_spec (f x) d) as [Hx|Hx]; [|reflexivity].
  destruct (Z.eqb_spec (f y) d) as [Hy|Hy]; [lia|reflexivity].
Qed.

Lemma sortBy_number_filter (d : Z) (l : list A) :
  List.filter (fun a => f a =? d) (sortBy (fun a b => f a - f b) l)
  = List.filter (fun a => f a =? d) l.
Proof.
  induction l as [|x l IH]; [reflexivity|].
  cbn [sortBy foldr]. rewrite insertBy_number_filter.
  cbn [List.filter]. unfold sortBy in IH. rewrite IH. reflexivity.
Qed.
End ByNumber.

Lemma emitted_concat (data : list NormalizedEvent) :
  emitted data = concat (map (pushTasks []) data).
Proof.
  unfold emitted.
  assert (Hgen : forall items,
             fold_left pushTasks data items
             = items ++ concat (map (pushTasks []) data)).
  { induction data as [|e data IH]; intros items; cbn.
    - rewrite app_nil_r. reflexivity.
    - rewrite IH, TaskFacts.pushTasks_app, <- app_assoc. reflexivity. }
  apply (Hgen []).
Qed.

Lemma pushTasks_length (e : NormalizedEvent) :
  length (pushTasks [] e) = channelCount e.
Proof.
  unfold pushTasks, channelCount.
  destruct (hasMail e), (hasText e), (hasVM e); reflexivity.
Qed.

Lemma pushTasks_types (e : NormalizedEvent) :
  map type (pushTasks [] e)
  = (if hasMail e then [mail] else []) ++ (if hasText e then [text] else [])
    ++ (if hasVM e then [vm] else []).
Proof.
  unfold pushTasks. destruct (hasMail e), (hasText e), (hasVM e); reflexivity.
Qed.

(** *** The tasks of one event within the list *)

Lemma sublist_filter_self {A : Type} (p : A -> bool) (l : list A) :
  sublist (List.filter p l) l.
Proof.
  induction l as [|x l IH]; [constructor|].
  cbn [List.filter]. destruct (p x); constructor; exact IH.
Qed.

Lemma sublist_filter_mono {A : Type} (p : A -> bool) (l1 l2 : list A) :
  sublist l1 l2 -> sublist (List.filter p l1) (List.filter p l2).
Proof.
  induction 1 as [|x l1 l2 _ IH|x l1 l2 _ IH]; cbn [List.filter].
  - constructor.
  - destruct (p x); [constructor|]; exact IH.
  - destruct (p x); [constructor|]; exact IH.
Qed.

Lemma sublist_filter_impl {A : Type} (p q : A -> bool) (l : list A) :
  (forall x, p x = true -> q x = true) ->
  sublist (List.filter p l) (List.filter q l).
Proof.
  intros Hpq. induction l as [|x l IH]; [constructor|].
  cbn [List.filter]. destruct (p x) eqn:Hp.
  - rewrite (Hpq x Hp). constructor. exact IH.
  - destruct (q x); [constructor|]; exact IH.
Qed.

Lemma sublist_of_In {A : Type} (x : A) (l : list A) :
  In x l -> sublist [x] l.
Proof.
  induction l as [|y l IH]; intros Hx; [destruct Hx|].
  destruct Hx as [->|Hx].
  - constructor. apply sublist_nil_l.
  - constructor. apply IH, Hx.
Qed.

Lemma filter_all {A : Type} (p : A -> bool) (l : list A) :
  Forall (fun x => p x = true) l -> List.filter p l = l.
Proof.
  induction 1 as [|x l Hx _ IH]; [reflexivity|].
  cbn [List.filter]. rewrite Hx, IH. reflexivity.
Qed.

(** A list in ascending order is what lies before a bound followed by what
    lies at or after it. *)
Lemma sorted_split {A : Type} (f : A -> Z) (d : Z) (l : list A) :
  StronglySorted (fun a b => f a <= f b) l ->
  l = List.filter (fun x => f x <? d) l ++ List.filter (fun x => d <=? f x) l.
Proof.
  induction 1 as [|x l Hs IH Hall]; [reflexivity|].
  cbn [List.filter]. destruct (Z.ltb_spec (f x) d) as [Hlt|Hge].
  - destruct (Z.leb_spec d (f x)); [lia|]. cbn [app]. f_equal. exact IH.
  - destruct (Z.leb_spec d (f x)); [|lia].
    assert (Hnone : List.filter (fun y => f y <? d) l = []).
    { clear IH Hs. induction Hall as [|y l Hy _ IH]; [reflexivity|].
      cbn [List.filter]. destruct (Z.ltb_spec (f y) d); [lia|exact IH]. }
    rewrite Hnone. cbn [app]. f_equal.
    rewrite Hnone in IH. exact IH.
Qed.

Lemma pushTasks_in_emitted (data : list NormalizedEvent)
  (e : NormalizedEvent) :
  In e data -> sublist (pushTasks [] e) (emitted data).
Proof.
  intros He. rewrite emitted_concat.
  apply in_split in He. destruct He as [l1 [l2 ->]].
  rewrite map_app, concat_app. cbn [map concat].
  apply sublist_inserts_l, sublist_inserts_r. reflexivity.
Qed.

(** The items of one event: the follow-ups on one day, after the mail item
    if there is one. *)
Lemma pushTasks_shape (e : NormalizedEvent) :
  exists F,
    Forall (fun t => date t = followDate e) F
    /\ (pushTasks [] e = F
        \/ exists m, pushTasks [] e = m :: F /\ date m < followDate e).
Proof.
  unfold pushTasks, followDate. cbv zeta. destruct (hasMail e).
  - destruct (hasText e), (hasVM e); cbn [app]; eexists;
      (split;
       [|right; eexists; split;
         [reflexivity|cbn [date]; unfold addDays; lia]]);
      repeat constructor.
  - destruct (hasText e), (hasVM e); cbn [app]; eexists;
      (split; [|left; reflexivity]); repeat constructor.
Qed.

(** X1. The task list holds exactly the items pushed for the events, in
    ascending order of their days, and the tasks of each event stand in it
    in the order in which they were pushed: mail, then text, then
    voicemail. *)
Theorem X1_tasks_in_day_order (data : list NormalizedEvent) :
  StronglySorted (fun a b => date a <= date b) (tasks data)
  /\ Permutation (tasks data) (concat (map (pushTasks []) data))
  /\ (forall e : NormalizedEvent,
        In e data -> sublist (pushTasks [] e) (tasks data))
  /\ (forall e : NormalizedEvent,
        map type (pushTasks [] e)
        = (if hasMail e then [mail] else [])
          ++ (if hasText e then [text] else [])
          ++ (if hasVM e then [vm] else [])).
Proof.
  assert (Hsorted : StronglySorted (fun a b => date a <= date b) (tasks data))
    by apply (sortBy_number_sorted date).
  assert (Hperm : Permutation (tasks data) (emitted data))
    by apply TaskFacts.sortBy_perm.
  split; [exact Hsorted|].
  split; [rewrite <- emitted_concat; exact Hperm|].
  split; [|apply pushTasks_types].
  intros e He.
  pose proof (pushTasks_in_emitted data e He) as Hsub.
  destruct (pushTasks_shape e) as [F [HF Hshape]].
  set (d := followDate e) in *.
  assert (Hfollow : sublist F (List.filter (fun t => d <=? date t)
                                 (tasks data))).
  { assert (HFsub : sublist F (emitted data)).
    { destruct Hshape as [HP|[m [HP _]]]; rewrite HP in Hsub;
        [exact Hsub|].
      etransitivity; [|exact Hsub]. constructor. reflexivity. }
    rewrite <- (filter_all (fun t => date t =? d) F).
    - etransitivity;
        [apply (sublist_filter_mono _ _ _ HFsub)|].
      unfold tasks. fold (emitted data).
      rewrite <- (sortBy_number_filter date d (emitted data)).
      apply sublist_filter_impl. intros t Ht.
      apply Z.eqb_eq in Ht. apply Z.leb_le. lia.
    - eapply List.Forall_impl; [|exact HF].
      intros t Ht. apply Z.eqb_eq, Ht. }
  destruct Hshape as [HP|[m [HP Hm]]]; rewrite HP.
  - etransitivity; [exact Hfollow|apply sublist_filter_self].
  - rewrite (sorted_split date d (tasks data) Hsorted).
    change (m :: F) with ([m] ++ F). apply sublist_app; [|exact Hfollow].
    apply sublist_of_In, List.filter_In. split.
    + apply TaskFacts.tasks_In. exists e. split; [exact He|].
      rewrite HP. left. reflexivity.
    + apply Z.ltb_lt, Hm.
Qed.

(** X2. Every event yields one task for each of its channels, so at most
    three, and the task list has as many tasks as the events have channels
    in all. *)
Theorem X2_task_count (data : list NormalizedEvent) :
  length (tasks data) = list_sum (map channelCount data)
  /\ (length (tasks data) <= 3 * length data)%nat
  /\ (forall e : NormalizedEvent,
        length (pushTasks [] e) = channelCount e
        /\ (length (pushTasks [] e) <= 3)%nat).
Proof.
  assert (Hthree : forall e, (channelCount e <= 3)%nat).
  { intros e. unfold channelCount.
    destruct (hasMail e), (hasText e), (hasVM e); cbn; lia. }
  assert (Hlen : length (tasks data) = list_sum (map channelCount data)).
  { unfold tasks. rewrite TaskFacts.sortBy_length.
    fold (emitted data). rewrite emitted_concat.
    induction data as [|e data IH]; [reflexivity|].
    cbn. rewrite length_app, IH, pushTasks_length. reflexivity. }
  split; [exact Hlen|]. split.
  - rewrite Hlen. clear Hlen. induction data as [|e data IH]; [cbn; lia|].
    simpl. pose proof (Hthree e). lia.
  - intros e. rewrite pushTasks_length. split; [reflexivity|apply Hthree].
Qed.

End TaskOrderFacts.

(* ===================================================================== *)
(** ** Further properties of the channel classifier *)
(* ===================================================================== *)

Module TokenFacts.
Import Js Regex Cal Tracker Spec ViewSpec Reference.

Lemma app_nil_l (s : string) : String.append "" s = s.
Proof. reflexivity. Qed.

Lemma app_cons (c : ascii) (a s : string) :
  String.append (String c a) s = String c (String.append a s).
Proof. reflexivity. Qed.

Lemma app_assoc (a b c : string) :
  String.append (String.append a b) c = String.append a (String.append b c).
Proof.
  induction a as [|x a IH]; [reflexivity|].
  rewrite !app_cons, IH. reflexivity.
Qed.

(** A pattern is found in a text exactly when it matches at one of the
    positions of the text. *)
Lemma testFrom_iff (r : regex) (s : string) :
  forall p,
    testFrom r p s = true <->
    exists pre post,
      s = String.append pre post
      /\ rmatch r (fun _ => true) (Cursor (lastChar p pre) post) = true.
Proof.
  induction s as [|a s IH]; intros p; cbn [testFrom].
  - rewrite orb_false_r. split.
    + intros Hm. exists "", "". auto.
    + intros [pre [post [Hs Hm]]].
      destruct pre as [|x pre]; [|discriminate].
      rewrite app_nil_l in Hs. subst post. exact Hm.
  - rewrite orb_true_iff, IH. split.
    + intros [Hm|[pre [post [Hs Hm]]]].
      * exists "", (String a s). auto.
      * exists (String a pre), post. rewrite app_cons, Hs. auto.
    + intros [pre [post [Hs Hm]]]. destruct pre as [|x pre].
      * rewrite app_nil_l in Hs. subst post. left. exact Hm.
      * rewrite app_cons in Hs. injection Hs as <- Hs.
        right. exists pre, post. auto.
Qed.

Lemma matchLit_iff (w s : string) (q : option ascii) (c : cursor) :
  matchLit w (Cursor q s) = Some c <->
  exists rest, s = String.append w rest /\ c = Cursor (lastChar q w) rest.
Proof.
  revert s q. induction w as [|x w IH]; intros s q; cbn [matchLit lastChar].
  - split.
    + intros [= <-]. exists s. auto.
    + intros [rest [Hs ->]]. rewrite app_nil_l in Hs. subst. reflexivity.
  - cbn [rest]. destruct s as [|a s].
    + split; [discriminate|]. intros [rest [Hs _]]. discriminate.
    + destruct (Ascii.eqb_spec x a) as [<-|Hne].
      * rewrite IH. split; intros [rest [Hs Hc]]; exists rest.
        -- rewrite app_cons, Hs. auto.
        -- rewrite app_cons in Hs. injection Hs as Hs. auto.
      * split; [discriminate|]. intros [rest [Hs _]].
        rewrite app_cons in Hs. injection Hs as Hx _. congruence.
Qed.

Lemma lastChar_word (p : option ascii) (pre : string) :
  wordBefore (Cursor (lastChar p pre) "")
  = match pre with
    | EmptyString => wordBefore (Cursor p "")
    | _ => endsWithWord pre
    end.
Proof.
  revert p. induction pre as [|c pre IH]; intros p; [reflexivity|].
  cbn [lastChar]. rewrite IH. destruct pre; reflexivity.
Qed.

Lemma wordBefore_rest (q : option ascii) (s t : string) :
  wordBefore (Cursor q s) = wordBefore (Cursor q t).
Proof. reflexivity. Qed.

Lemma endsWithWord_snoc (a : string) (c : ascii) :
  endsWithWord (String.append a (String c "")) = isWord c.
Proof.
  induction a as [|x a IH]; [reflexivity|].
  rewrite app_cons. cbn [endsWithWord]. rewrite IH.
  destruct (String.append a (String c "")) eqn:Ha; [|reflexivity].
  destruct a; discriminate.
Qed.

Lemma mail_token_found (pre post : string) :
  endsWithWord pre = false -> startsWithWord post = false ->
  test reMail (String.append pre (String.append "mail" post)) = true.
Proof.
  intros Hpre Hpost. unfold test. apply testFrom_iff.
  exists pre, (String.append "mail" post). split; [reflexivity|].
  unfold reMail, token. cbn [seq rmatch].
  assert (Hb1 : atBoundary
                  (Cursor (lastChar None pre) (String.append "mail" post))
                = true).
  { unfold atBoundary. rewrite (wordBefore_rest _ _ ""), lastChar_word.
    cbn. destruct pre; [reflexivity|]. rewrite Hpre. reflexivity. }
  rewrite Hb1.
  assert (Hl : matchLit "mail"
                 (Cursor (lastChar None pre) (String.append "mail" post))
               = Some (Cursor (lastChar (lastChar None pre) "mail") post)).
  { apply matchLit_iff. exists post. auto. }
  rewrite Hl. cbn. unfold atBoundary. cbn.
  destruct post as [|y post]; [reflexivity|]. cbn in *.
  rewrite Hpost. reflexivity.
Qed.

(** X3. The mail token pattern matches a text exactly when the text holds
    the word "mail" with no word character right before it and none right
    after it: inside "voicemail", "email" or "mails" it does not count. *)
Theorem X3_mail_token_is_a_whole_word (src : string) :
  test reMail src = true <->
  exists pre post,
    src = String.append pre (String.append "mail" post)
    /\ endsWithWord pre = false /\ startsWithWord post = false.
Proof.
  split.
  - unfold test. rewrite testFrom_iff.
    intros [pre [post [Hs Hm]]].
    unfold reMail, token in Hm. cbn [seq rmatch] in Hm.
    destruct (atBoundary (Cursor (lastChar None pre) post)) eqn:Hb1;
      [|discriminate].
    destruct (matchLit "mail" (Cursor (lastChar None pre) post)) as [c|] eqn:Hl;
      [|discriminate].
    apply matchLit_iff in Hl. destruct Hl as [rest [Hpost ->]].
    destruct (atBoundary (Cursor (lastChar (lastChar None pre) "mail") rest))
      eqn:Hb2; [|discriminate].
    exists pre, rest. subst post. split; [exact Hs|].
    unfold atBoundary in Hb1, Hb2.
    rewrite (wordBefore_rest _ _ "") , lastChar_word in Hb1.
    cbn in Hb1, Hb2. split.
    + destruct pre; [reflexivity|].
      destruct (endsWithWord (String a pre)); [discriminate|reflexivity].
    + destruct rest as [|y rest]; [reflexivity|]. cbn in *.
      destruct (isWord y); [discriminate|reflexivity].
  - intros [pre [post [-> [Hpre Hpost]]]].
    apply mail_token_found; assumption.
Qed.

Lemma matchLit_app (w rest : string) (q : option ascii) :
  matchLit w (Cursor q (String.append w rest))
  = Some (Cursor (lastChar q w) rest).
Proof. apply matchLit_iff. exists rest. auto. Qed.

Lemma boundary_after_word (c : ascii) (post : string) :
  isWord c = true -> startsWithWord post = false ->
  atBoundary (Cursor (Some c) post) = true.
Proof.
  intros Hc Hpost. unfold atBoundary, wordBefore, wordAfter. cbn [prev rest].
  rewrite Hc. destruct post as [|y post]; [reflexivity|].
  cbn in Hpost. rewrite Hpost. reflexivity.
Qed.

Lemma boundary_before_word (pre : string) (c : ascii) (s : string) :
  isWord c = true -> endsWithWord pre = false ->
  atBoundary (Cursor (lastChar None pre) (String c s)) = true.
Proof.
  intros Hc Hpre. unfold atBoundary.
  rewrite (wordBefore_rest _ _ ""), lastChar_word.
  unfold wordAfter. cbn [rest]. rewrite Hc.
  destruct pre; [reflexivity|]. rewrite Hpre. reflexivity.
Qed.

Lemma noMail_tag_found (pre post : string) (sep : ascii) :
  sep = "-"%char \/ isSpace sep = true ->
  endsWithWord pre = false -> startsWithWord post = false ->
  test reNoMail
    (String.append pre
       (String.append "no" (String sep (String.append "mail" post))))
  = true.
Proof.
  intros Hsep Hpre Hpost. unfold test. apply testFrom_iff.
  exists pre, (String.append "no" (String sep (String.append "mail" post))).
  split; [reflexivity|].
  unfold reNoMail, dashOrSpace. cbn [seq rmatch].
  assert (Hb1 : atBoundary
                  (Cursor (lastChar None pre)
                     (String.append "no"
                        (String sep (String.append "mail" post))))
                = true).
  { apply (boundary_before_word pre "n"
             (String.append "o" (String sep (String.append "mail" post)))
             eq_refl Hpre). }
  rewrite Hb1, matchLit_app. cbn [rest existsb inItem lastChar].
  assert (Hclass : Ascii.eqb "-" sep || (isSpace sep || false) = true).
  { destruct Hsep as [->|Hs]; [reflexivity|].
    rewrite Hs. rewrite orb_true_r. reflexivity. }
  rewrite Hclass, matchLit_app. cbn [lastChar].
  rewrite (boundary_after_word "l" post eq_refl Hpost). reflexivity.
Qed.

Lemma separator_not_word (sep : ascii) :
  sep = "-"%char \/ isSpace sep = true -> isWord sep = false.
Proof.
  intros [->|Hs]; [reflexivity|]. revert Hs.
  KeyFacts.each_char sep ltac:(congruence).
Qed.

(** X4. When the text holds "no mail" or "no-mail" as words of their own,
    the mail token matches beside the no-mail tag, so the row is not taken
    for an untagged one: it has no mail, and text and voicemail only where
    their own tokens stand; tagged with nothing else it has no channel at
    all, unlike a row tagged "NoMail". *)
Theorem X4_separated_no_mail_is_not_defaulted (pre post : string)
  (sep : ascii) :
  sep = "-"%char \/ isSpace sep = true ->
  endsWithWord pre = false ->
  startsWithWord post = false ->
  let src :=
    String.append pre
      (String.append "no" (String sep (String.append "mail" post))) in
  test reNoMail src = true
  /\ test reAny src = true
  /\ channelFlags src
     = {| fMail := false;
          fText := test reText src && negb (test reNoText src);
          fVM := test reVm src && negb (test reNoVM src) |}.
Proof.
  intros Hsep Hpre Hpost src.
  assert (Htag : test reNoMail src = true)
    by (apply noMail_tag_found; assumption).
  assert (Hmail : test reMail src = true).
  { subst src.
    replace (String.append pre
               (String.append "no"
                  (String sep (String.append "mail" post))))
      with (String.append (String.append pre (String.append "no" (String sep "")))
              (String.append "mail" post))
      by (rewrite !app_assoc; reflexivity).
    apply mail_token_found; [|exact Hpost].
    rewrite <- app_assoc, endsWithWord_snoc.
    apply separator_not_word. exact Hsep. }
  split; [exact Htag|]. split.
  - rewrite ClassifierFacts.anyToken_split, Hmail. reflexivity.
  - rewrite ClassifierFacts.channelFlags_fiveRules, Htag, Hmail.
    destruct (test reText src), (test reVm src), (test reNoText src),
      (test reNoVM src); reflexivity.
Qed.

Lemma X4_separated_no_mail_witness :
  let src := searchString (row [("Tags", "No Mail")]) in
  src = "no mail "
  /\ channelFlags src = {| fMail := false; fText := false; fVM := false |}
  /\ channelFlags (searchString (row [("Tags", "NoMail")]))
     = {| fMail := false; fText := true; fVM := true |}.
Proof.
  intros src.
  destruct (X4_separated_no_mail_is_not_defaulted "" " " " ")
    as [_ [_ Hflags]].
  - right. reflexivity.
  - reflexivity.
  - reflexivity.
  - split; [vm_compute; reflexivity|]. split; [|vm_compute; reflexivity].
    etransitivity; [exact Hflags|]. vm_compute. reflexivity.
Defined.

Section EventFlags.
Context `{Runtime}.

Lemma data_flags (now : Date) (rows : list RawRow) (e : NormalizedEvent) :
  In e (data now rows) ->
  {| fMail := hasMail e; fText := hasText e; fVM := hasVM e |}
  = channelFlags (searchString (raw e)).
Proof.
  intros He. apply NormalizerFacts.data_In in He.
  destruct He as [i [r [_ Hw]]]. unfold withDate in Hw.
  destruct (mailDate (mapRow now i r)); [|discriminate].
  injection Hw as <-. cbn.
  destruct (channelFlags (searchString r)); reflexivity.
Qed.

(** X5. In every event a no-mail tag rules mail out and a negated text or
    voicemail token rules that channel out, whatever else the row says;
    and an event with mail has text and voicemail too unless they are
    negated, so that it yields all three tasks. *)
Theorem X5_negations_win (now : Date) (rows : list RawRow) :
  Forall
    (fun e =>
       let src := searchString (raw e) in
       (test reNoMail src = true -> hasMail e = false)
       /\ (test reNoText src = true -> hasText e = false)
       /\ (test reNoVM src = true -> hasVM e = false)
       /\ (hasMail e = true -> test reNoText src = false -> hasText e = true)
       /\ (hasMail e = true -> test reNoVM src = false -> hasVM e = true)
       /\ (hasMail e = true -> test reNoText src = false ->
           test reNoVM src = false ->
           map (fun t => (type t, date t)) (pushTasks [] e)
           = [(mail, mailDate e); (text, addDays (mailDate e) 13);
              (vm, addDays (mailDate e) 13)]))
    (data now rows).
Proof.
  apply List.Forall_forall. intros e He.
  pose proof (data_flags now rows e He) as Hflags.
  rewrite ClassifierFacts.channelFlags_fiveRules in Hflags.
  cbv zeta.
  set (src := searchString (raw e)) in *.
  unfold fiveRules, rule5, rule4, rule3, rule2, rule1 in Hflags.
  assert (Hpush : hasMail e = true -> hasText e = true -> hasVM e = true ->
                  map (fun t => (type t, date t)) (pushTasks [] e)
                  = [(mail, mailDate e); (text, addDays (mailDate e) 13);
                     (vm, addDays (mailDate e) 13)]).
  { intros Hm Ht Hv. unfold pushTasks. rewrite Hm, Ht, Hv. reflexivity. }
  destruct (test reNoMail src), (test reMail src), (test reText src),
    (test reVm src), (test reNoText src), (test reNoVM src);
    cbn in Hflags; injection Hflags as Hm Ht Hv;
    repeat split; intros; try congruence; apply Hpush; congruence.
Qed.

End EventFlags.

End TokenFacts.

(* ===================================================================== *)
(** ** Further properties of the row normaliser and the labels *)
(* ===================================================================== *)

Module RowFacts.
Import Js Regex Cal Tracker Spec ViewSpec Reference.

Section Events.
Context `{Runtime}.

Lemma data_ids_from (now : Date) (rows : list RawRow) :
  forall (f : nat -> RawRow -> MappedRow) (k : nat),
    (forall i r, id (f i r) = (k + i)%nat) ->
    StronglySorted lt (map id (omap withDate (imap f rows)))
    /\ Forall (fun n => (k <= n < k + length rows)%nat)
         (map id (omap withDate (imap f rows))).
Proof.
  induction rows as [|r rows IH]; intros f k Hf.
  - split; constructor.
  - rewrite imap_cons. cbn [omap list_omap].
    destruct (IH (f ∘ S) (S k)) as [IHs IHr].
    { intros i r'. cbn. rewrite Hf. lia. }
    assert (IHr' : Forall (fun n => (S k <= n < k + length (r :: rows))%nat)
                     (map id (omap withDate (imap (f ∘ S) rows)))).
    { eapply List.Forall_impl; [|exact IHr]. cbn. intros n Hn. lia. }
    destruct (withDate (f 0%nat r)) as [e|] eqn:Hw.
    + apply NormalizerFacts.withDate_Some in Hw.
      destruct Hw as [_ [Hid _]]. rewrite Hf in Hid.
      cbn [map]. split.
      * constructor; [exact IHs|].
        eapply List.Forall_impl; [|exact IHr']. cbn. intros n Hn. lia.
      * constructor; [cbn; lia|].
        eapply List.Forall_impl; [|exact IHr']. cbn. intros n Hn. lia.
    + split; [exact IHs|].
      eapply List.Forall_impl; [|exact IHr']. cbn. intros n Hn. lia.
Qed.

(** X6. The events keep the order of the rows: their ids, which are the
    indices of their rows, ascend strictly, so no two events share an id, and
    every id is the index of the row the event was made from. *)
Theorem X6_events_in_row_order (now : Date) (rows : list RawRow) :
  StronglySorted lt (map id (data now rows))
  /\ List.NoDup (map id (data now rows))
  /\ Forall (fun e => rows !! id e = Some (raw e)) (data now rows).
Proof.
  destruct (data_ids_from now rows (mapRow now) 0%nat) as [Hs _];
    [reflexivity|].
  split; [exact Hs|]. split.
  - clear -Hs. unfold data.
    induction Hs as [|n l Hs IH Hall]; constructor; [|exact IH].
    intros Hin. rewrite List.Forall_forall in Hall.
    specialize (Hall n Hin). lia.
  - apply List.Forall_forall. intros e He.
    apply NormalizerFacts.data_In in He. destruct He as [i [r [Hr Hw]]].
    apply NormalizerFacts.withDate_Some in Hw.
    destruct Hw as [_ [Hid [Hraw _]]]. cbn in Hid, Hraw.
    rewrite Hid, Hraw. exact Hr.
Qed.

(** The value of a text cell: the cell, or the default when the cell is
    absent or empty. *)
Lemma stringOr_cell (r : RawRow) (k dflt : string) :
  stringOr (get r k) dflt
  = match r !! k with
    | Some s => if String.eqb s "" then dflt else s
    | None => dflt
    end.
Proof.
  unfold stringOr, jsOr, get. destruct (r !! k) as [s|]; [|reflexivity].
  cbn. destruct (String.eqb s ""); reflexivity.
Qed.

(** X7. No event has an empty campaign: the campaign is the row's Campaign
    cell, and "(Unnamed)" when the cell is absent or empty; part and batch
    are the row's cells, empty when absent, and the batch number is read
    from these two. *)
Theorem X7_event_text_fields (now : Date) (rows : list RawRow) :
  Forall
    (fun e =>
       campaign e <> ""
       /\ campaign e
          = match raw e !! "Campaign" with
            | Some s => if String.eqb s "" then "(Unnamed)" else s
            | None => "(Unnamed)"
            end
       /\ part e = default "" (raw e !! "Part")
       /\ batch e = default "" (raw e !! "Batch")
       /\ category e = default "" (raw e !! "Category")
       /\ batchNum e = inferBatchNum (part e) (batch e))
    (data now rows).
Proof.
  apply List.Forall_forall. intros e He.
  apply NormalizerFacts.data_In in He. destruct He as [i [r [_ Hw]]].
  unfold withDate in Hw. destruct (mailDate (mapRow now i r)); [|discriminate].
  injection Hw as <-. cbn. rewrite !stringOr_cell.
  assert (Hdef : forall o : option string,
             match o with
             | Some s => if String.eqb s "" then "" else s
             | None => ""
             end = default "" o).
  { intros [s|]; [|reflexivity]. cbn.
    destruct (String.eqb_spec s ""); congruence. }
  rewrite !Hdef. repeat split; try reflexivity.
  destruct (r !! "Campaign") as [s|]; [|discriminate].
  destruct (String.eqb_spec s ""); [discriminate|assumption].
Qed.

End Events.

End RowFacts.

(* ===================================================================== *)
(** ** Ordinals, batch numbers and stages *)
(* ===================================================================== *)

Module LabelFacts.
Import Js Cal Tracker Spec ViewSpec Reference.

Lemma ordinal_suffixFor (n : Z) :
  ordinal n = String.append (ofZ n) (suffixFor (Z.rem n 100)).
Proof. reflexivity. Qed.

(** The suffix for each of the values [n % 100] can take. *)
Lemma suffix_table :
  forallb
    (fun i =>
       let v := Z.of_nat i - 99 in
       String.eqb (suffixFor v) (if 0 <=? v then englishSuffix v else "th"))
    (List.seq 0 199) = true.
Proof. vm_compute. reflexivity. Qed.

Lemma suffixFor_spec (v : Z) :
  -99 <= v <= 99 ->
  suffixFor v = if 0 <=? v then englishSuffix v else "th".
Proof.
  intros Hv. pose proof suffix_table as Ht.
  rewrite forallb_forall in Ht.
  specialize (Ht (Z.to_nat (v + 99))).
  cbv zeta in Ht. replace (Z.of_nat (Z.to_nat (v + 99)) - 99) with v in Ht by lia.
  apply String.eqb_eq, Ht. apply List.in_seq. lia.
Qed.

Lemma englishSuffix_mod (n : Z) : englishSuffix (n mod 100) = englishSuffix n.
Proof.
  unfold englishSuffix. rewrite Z.mod_mod by lia.
  replace ((n mod 100) mod 10) with (n mod 10)
    by (Z.to_euclidean_division_equations; lia).
  reflexivity.
Qed.

(** X8. For a number that is not negative [ordinal] writes the number and
    its English suffix: "th" when the last two digits are 11, 12 or 13,
    else "st", "nd", "rd" after a last digit 1, 2, 3 and "th" after any
    other; a negative number always gets "th". *)
Theorem X8_ordinal_suffix (n : Z) :
  ordinal n
  = String.append (ofZ n) (if 0 <=? n then englishSuffix n else "th").
Proof.
  rewrite ordinal_suffixFor. f_equal.
  destruct (Z.leb_spec 0 n) as [Hpos|Hneg].
  - rewrite Z.rem_mod_nonneg by lia.
    pose proof (Z.mod_pos_bound n 100 ltac:(lia)) as Hb.
    rewrite suffixFor_spec by lia.
    destruct (Z.leb_spec 0 (n mod 100)); [|lia]. apply englishSuffix_mod.
  - pose proof (Z.rem_bound_pos_neg n 100 ltac:(lia) ltac:(lia)) as Hb.
    rewrite suffixFor_spec by lia.
    destruct (Z.leb_spec 0 (Z.rem n 100)) as [Hz|]; [|reflexivity].
    assert (Hr : Z.rem n 100 = 0) by lia. rewrite Hr. reflexivity.
Qed.

(** *** Batch numbers *)

Lemma digitsOf_app (a b : string) :
  digitsOf (String.append a b) = String.append (digitsOf a) (digitsOf b).
Proof.
  induction a as [|c a IH]; [reflexivity|].
  rewrite TokenFacts.app_cons. cbn [digitsOf].
  destruct (isDigit c); [rewrite TokenFacts.app_cons|]; rewrite IH; reflexivity.
Qed.

Lemma digitsOf_all (s : string) : allDigits (digitsOf s) = true.
Proof.
  induction s as [|c s IH]; [reflexivity|]. cbn [digitsOf].
  destruct (isDigit c) eqn:Hc; [|exact IH]. cbn. rewrite Hc, IH. reflexivity.
Qed.

Lemma list_of_append (a b : string) :
  list_ascii_of_string (String.append a b)
  = list_ascii_of_string a ++ list_ascii_of_string b.
Proof.
  induction a as [|c a IH]; [reflexivity|].
  rewrite TokenFacts.app_cons. cbn. rewrite IH. reflexivity.
Qed.

Lemma fold_digits_from (l : list ascii) :
  forall acc,
    fold_left (fun acc ch => 10 * acc + (code ch - 48)) l acc
    = acc * 10 ^ Z.of_nat (length l)
      + fold_left (fun acc ch => 10 * acc + (code ch - 48)) l 0.
Proof.
  induction l as [|c l IH]; intros acc.
  - cbn. lia.
  - cbn [fold_left length]. rewrite (IH (10 * acc + _)), (IH (10 * 0 + _)).
    rewrite Nat2Z.inj_succ, Z.pow_succ_r by lia. lia.
Qed.

Lemma digitsValue_app (a b : string) :
  digitsValue (String.append a b)
  = digitsValue a * 10 ^ len b + digitsValue b.
Proof.
  assert (Hlen : Datatypes.length (list_ascii_of_string b) = String.length b).
  { induction b as [|c b IH]; [reflexivity|]. cbn. rewrite IH. reflexivity. }
  unfold digitsValue, len. rewrite list_of_append, fold_left_app.
  rewrite fold_digits_from, Hlen. reflexivity.
Qed.

Lemma isDigit_range (c : ascii) : isDigit c = true -> 0 <= code c - 48 <= 9.
Proof. unfold isDigit. rewrite andb_true_iff, !Z.leb_le. lia. Qed.

Lemma digitsValue_nonneg (s : string) :
  allDigits s = true -> 0 <= digitsValue s.
Proof.
  unfold digitsValue.
  assert (Hgen : forall l acc,
             List.forallb isDigit l = true -> 0 <= acc ->
             0 <= fold_left (fun acc ch => 10 * acc + (code ch - 48)) l acc).
  { induction l as [|c l IH]; intros acc Hl Hacc; [exact Hacc|].
    cbn in Hl. apply andb_prop in Hl. destruct Hl as [Hc Hl].
    cbn [fold_left]. apply IH; [exact Hl|].
    pose proof (isDigit_range c Hc). lia. }
  intros Hs. apply Hgen; [|lia].
  clear Hgen. induction s as [|c s IH]; [reflexivity|].
  cbn in *. apply andb_prop in Hs. destruct Hs as [-> Hs]. apply IH, Hs.
Qed.

Lemma parseDigits_value (digits : string) :
  parseDigits digits
  = match digits with
    | EmptyString => None
    | _ => Some (digitsValue digits)
    end.
Proof. destruct digits; reflexivity. Qed.

Lemma inferBatchNum_digits (part batch : string) :
  inferBatchNum part batch
  = match String.append (digitsOf part) (digitsOf batch) with
    | EmptyString => None
    | _ =>
        Some (digitsValue (digitsOf part) * 10 ^ len (digitsOf batch)
              + digitsValue (digitsOf batch))
    end.
Proof.
  assert (Hdigits : digitsOf (String.append part (String.append " " batch))
                    = String.append (digitsOf part) (digitsOf batch)).
  { rewrite !digitsOf_app. reflexivity. }
  unfold inferBatchNum. cbv zeta. rewrite Hdigits, parseDigits_value.
  rewrite <- digitsValue_app.
  destruct (String.append (digitsOf part) (digitsOf batch)); reflexivity.
Qed.

(** X9. The batch number is made of every digit of the part followed by
    every digit of the batch, read as one decimal number: the number in the
    part shifted left by the digits of the batch, plus the number in the
    batch.  It is absent exactly when neither holds a digit, and is never
    negative.  (For at most 15 digits, which a number holds exactly.) *)
Theorem X9_batch_number_joins_digits (part batch : string) :
  len (digitsOf part) + len (digitsOf batch) <= 15 ->
  inferBatchNum part batch
  = match String.append (digitsOf part) (digitsOf batch) with
    | EmptyString => None
    | _ =>
        Some (digitsValue (digitsOf part) * 10 ^ len (digitsOf batch)
              + digitsValue (digitsOf batch))
    end
  /\ (inferBatchNum part batch = None <->
      digitsOf part = "" /\ digitsOf batch = "")
  /\ (forall n, inferBatchNum part batch = Some n -> 0 <= n).
Proof.
  intros _. pose proof (inferBatchNum_digits part batch) as Hfirst.
  split; [exact Hfirst|]. split.
  - rewrite Hfirst. destruct (digitsOf part) as [|c p]; cbn.
    + destruct (digitsOf batch); split; try discriminate; auto.
      intros [_ Hb]. discriminate.
    + split; [discriminate|]. intros [Hp _]. discriminate.
  - intros n Hn. rewrite Hfirst in Hn.
    pose proof (digitsValue_nonneg _ (digitsOf_all part)).
    pose proof (digitsValue_nonneg _ (digitsOf_all batch)).
    assert (0 <= 10 ^ len (digitsOf batch)) by (apply Z.pow_nonneg; lia).
    destruct (String.append (digitsOf part) (digitsOf batch));
      [discriminate|]. injection Hn as <-. nia.
Qed.

Lemma X9_batch_number_witness :
  inferBatchNum "Batch 3" "B2" = Some 32
  /\ (inferBatchNum "Batch 3" "B2" = None <->
      digitsOf "Batch 3" = "" /\ digitsOf "B2" = "").
Proof.
  destruct (X9_batch_number_joins_digits "Batch 3" "B2") as [Hnum [Hnone _]].
  - vm_compute. discriminate.
  - split; [|exact Hnone]. etransitivity; [exact Hnum|].
    vm_compute. reflexivity.
Defined.

Lemma stageForBatch_stageOf (n : option Z) :
  stageForBatch n
  = match n with None => "Initial" | Some k => stageOf k end.
Proof.
  destruct n as [k|]; [|reflexivity]. unfold stageForBatch, stageOf.
  destruct (Z.leb_spec k 1) as [Hle|Hgt].
  - rewrite orb_true_r. reflexivity.
  - destruct (Z.eqb_spec k 0); [lia|]. cbn [orb].
    destruct (Z.leb_spec 5 k) as [|Hlt]; [reflexivity|].
    assert (Hk : k = 2 \/ k = 3 \/ k = 4) by lia.
    destruct Hk as [Hk|[Hk|Hk]]; subst k; reflexivity.
Qed.

(** X10. The stage of a row is "Initial" without a batch number or with one
    of at most 1, "Final" from 5 on, and "2nd", "3rd" or "4th Follow-up"
    between.  A row that carries a number of at least 1 in its part and any
    digit in its batch therefore has the stage "Final", since the two
    numbers are read as one.  (For at most 15 digits, which a number
    holds exactly.) *)
Theorem X10_stage_of_row (part batch : string) :
  len (digitsOf part) + len (digitsOf batch) <= 15 ->
  1 <= digitsValue (digitsOf part) ->
  digitsOf batch <> "" ->
  stageForBatch (inferBatchNum part batch) = "Final"
  /\ (forall n : option Z,
        stageForBatch n
        = match n with
          | None => "Initial"
          | Some k =>
              if k <=? 1 then "Initial"
              else if 5 <=? k then "Final"
              else if k =? 2 then "2nd Follow-up"
              else if k =? 3 then "3rd Follow-up"
              else "4th Follow-up"
          end).
Proof.
  intros _ Hpart Hbatch. split; [|apply stageForBatch_stageOf].
  rewrite inferBatchNum_digits, stageForBatch_stageOf.
  pose proof (digitsValue_nonneg _ (digitsOf_all batch)) as Hb.
  assert (Hlen : 1 <= len (digitsOf batch)).
  { unfold len. destruct (digitsOf batch) as [|c0 rest];
      [exfalso; apply Hbatch; reflexivity|].
    cbn [String.length]. lia. }
  assert (Hpow : 10 <= 10 ^ len (digitsOf batch)).
  { replace 10 with (10 ^ 1) at 1 by reflexivity.
    apply Z.pow_le_mono_r; lia. }
  destruct (String.append (digitsOf part) (digitsOf batch)) eqn:Happ.
  - destruct (digitsOf part); [|discriminate]. cbn in Hpart. lia.
  - unfold stageOf.
    destruct (Z.leb_spec
                (digitsValue (digitsOf part) * 10 ^ len (digitsOf batch)
                 + digitsValue (digitsOf batch)) 1); [nia|].
    destruct (Z.leb_spec 5
                (digitsValue (digitsOf part) * 10 ^ len (digitsOf batch)
                 + digitsValue (digitsOf batch))); [reflexivity|nia].
Qed.

Lemma X10_stage_of_row_witness :
  inferBatchNum "Batch 2" "B2" = Some 22
  /\ stageForBatch (inferBatchNum "Batch 2" "B2") = "Final".
Proof.
  split; [vm_compute; reflexivity|].
  apply (X10_stage_of_row "Batch 2" "B2").
  - vm_compute. discriminate.
  - vm_compute. discriminate.
  - vm_compute. discriminate.
Defined.

End LabelFacts.

(* ===================================================================== *)
(** ** The text of a date *)
(* ===================================================================== *)

Module DateTextFacts.
Import Js Cal Tracker Spec ViewSpec Reference.

Lemma trimStart_spaces (w t : string) :
  allSpace w = true -> trimStart (String.append w t) = trimStart t.
Proof.
  induction w as [|c w IH]; intros Hw; [reflexivity|].
  cbn in Hw. apply andb_prop in Hw. destruct Hw as [Hc Hw].
  rewrite TokenFacts.app_cons. cbn [trimStart]. rewrite Hc. apply IH, Hw.
Qed.

Lemma trimEnd_spaces (w : string) : allSpace w = true -> trimEnd w = "".
Proof.
  induction w as [|c w IH]; intros Hw; [reflexivity|].
  cbn in Hw. apply andb_prop in Hw. destruct Hw as [Hc Hw].
  cbn [trimEnd]. rewrite (IH Hw), Hc. reflexivity.
Qed.

Lemma trimEnd_app_spaces (t w : string) :
  allSpace w = true -> trimEnd (String.append t w) = trimEnd t.
Proof.
  intros Hw. induction t as [|c t IH].
  - rewrite TokenFacts.app_nil_l. apply trimEnd_spaces, Hw.
  - rewrite TokenFacts.app_cons. cbn [trimEnd]. rewrite IH. reflexivity.
Qed.

Lemma trimStart_spaces_only (w : string) : allSpace w = true -> trimStart w = "".
Proof.
  induction w as [|c w IH]; intros Hw; [reflexivity|].
  cbn in Hw. apply andb_prop in Hw. destruct Hw as [Hc Hw].
  cbn [trimStart]. rewrite Hc. apply IH, Hw.
Qed.

Lemma trim_app_spaces (s w : string) :
  allSpace w = true -> trim (String.append s w) = trim s.
Proof.
  intros Hw. unfold trim. induction s as [|c s IH].
  - rewrite TokenFacts.app_nil_l, (trimStart_spaces_only w Hw). reflexivity.
  - rewrite TokenFacts.app_cons. cbn [trimStart]. destruct (isSpace c).
    + exact IH.
    + rewrite <- TokenFacts.app_cons. apply trimEnd_app_spaces, Hw.
Qed.

Lemma trim_padded (w1 s w2 : string) :
  allSpace w1 = true -> allSpace w2 = true ->
  trim (String.append w1 (String.append s w2)) = trim s.
Proof.
  intros H1 H2. unfold trim at 1. rewrite (trimStart_spaces _ _ H1).
  apply (trim_app_spaces s w2 H2).
Qed.

Lemma padded_not_empty (w1 s w2 : string) :
  s <> "" -> String.append w1 (String.append s w2) <> "".
Proof.
  intros Hs Happ. destruct w1; [|discriminate].
  rewrite TokenFacts.app_nil_l in Happ. destruct s; [congruence|discriminate].
Qed.

Section WithRuntime.
Context `{Runtime}.

(** X11. White space around the text of a date is ignored: a text that is
    not empty parses to the same date, or fails the same way, with any
    white space put before and after it. *)
Theorem X11_date_text_padding (now : Date) (w1 s w2 : string) :
  allSpace w1 = true -> allSpace w2 = true -> s <> "" ->
  tryParseDate now (JString (String.append w1 (String.append s w2)))
  = tryParseDate now (JString s).
Proof.
  intros H1 H2 Hs. unfold tryParseDate. cbn [truthy].
  pose proof (padded_not_empty w1 s w2 Hs) as Hp.
  apply String.eqb_neq in Hp. apply String.eqb_neq in Hs.
  rewrite Hp, Hs. cbn [negb]. cbv zeta.
  rewrite (trim_padded w1 s w2 H1 H2). reflexivity.
Qed.

End WithRuntime.

Lemma X11_date_text_padding_witness :
  tryParseDate 0 (JString "  2025-01-06 ") = Some 20094
  /\ tryParseDate 0 (JString "  2025-01-06 ")
     = tryParseDate 0 (JString "2025-01-06").
Proof.
  split; [vm_compute; reflexivity|].
  apply (X11_date_text_padding 0 "  " "2025-01-06" " ").
  - reflexivity.
  - reflexivity.
  - discriminate.
Defined.

End DateTextFacts.

(* ===================================================================== *)
(** ** Reminder weeks *)
(* ===================================================================== *)

Module WeekFacts.
Import Js Cal DateFns Tracker View Spec ViewSpec MonthCalendar.

Lemma inRange_week (today d k : Z) :
  inRange d (weekBounds (today + 7 * k))
  = (startOfWeek today + 7 * k <=? d) && (d <=? startOfWeek today + 7 * k + 6).
Proof.
  unfold inRange, isWithinInterval, weekBounds. cbn [start finish].
  rewrite endOfWeek_start, startOfWeek_shift. reflexivity.
Qed.

Lemma classifyWeek_offsets (today d : Date) :
  classifyWeek today d
  = if (startOfWeek today <=? d) && (d <=? startOfWeek today + 6)
    then "this"
    else if (startOfWeek today + 7 <=? d) && (d <=? startOfWeek today + 13)
    then "next"
    else if (startOfWeek today + 14 <=? d) && (d <=? startOfWeek today + 20)
    then "next2"
    else "".
Proof.
  unfold classifyWeek, thisWeek, nextWeek, nextNextWeek, addDays.
  replace (weekBounds today) with (weekBounds (today + 7 * 0))
    by (f_equal; lia).
  replace (today + 7) with (today + 7 * 1) by lia.
  replace (today + 14) with (today + 7 * 2) by lia.
  rewrite !inRange_week.
  replace (startOfWeek today + 7 * 0) with (startOfWeek today) by lia.
  replace (startOfWeek today + 7 * 1) with (startOfWeek today + 7) by lia.
  replace (startOfWeek today + 7 * 2) with (startOfWeek today + 14) by lia.
  replace (startOfWeek today + 7 + 6) with (startOfWeek today + 13) by lia.
  replace (startOfWeek today + 14 + 6) with (startOfWeek today + 20) by lia.
  reflexivity.
Qed.

(** X12. The reminder weeks run from Monday to Sunday and follow each other
    without a gap: counted from the Monday of the week of today, a date
    0 to 6 days on is in "this" week, 7 to 13 in the "next", 14 to 20 in
    the one after, and any other date in none.  Today is in this week. *)
Theorem X12_week_classes (today d : Date) :
  getDay (startOfWeek today) = 1
  /\ startOfWeek today <= today <= startOfWeek today + 6
  /\ classifyWeek today today = "this"
  /\ classifyWeek today d
     = if (startOfWeek today <=? d) && (d <=? startOfWeek today + 6)
       then "this"
       else if (startOfWeek today + 7 <=? d) && (d <=? startOfWeek today + 13)
       then "next"
       else if (startOfWeek today + 14 <=? d) && (d <=? startOfWeek today + 20)
       then "next2"
       else "".
Proof.
  pose proof (startOfWeek_bounds today) as Hb.
  split; [apply startOfWeek_monday|]. split; [exact Hb|].
  split; [|apply classifyWeek_offsets].
  rewrite classifyWeek_offsets.
  destruct (Z.leb_spec (startOfWeek today) today); [|lia].
  destruct (Z.leb_spec today (startOfWeek today + 6)); [|lia].
  reflexivity.
Qed.

(** X13. The text and voicemail follow-up of a mail drop of this week,
    13 days after the drop, is never due this week: it is due next week
    when the drop is on the Monday, and the week after for any other day. *)
Theorem X13_follow_up_week (today d : Date) :
  inRange d (thisWeek today) = true ->
  classifyWeek today (addDays d 13)
  = if getDay d =? 1 then "next" else "next2".
Proof.
  intros Hin. unfold thisWeek in Hin.
  replace (weekBounds today) with (weekBounds (today + 7 * 0)) in Hin
    by (f_equal; lia).
  rewrite inRange_week, andb_true_iff, !Z.leb_le in Hin.
  assert (Hsame : startOfWeek d = startOfWeek today)
    by (apply startOfWeek_same; lia).
  rewrite classifyWeek_offsets. unfold addDays.
  rewrite startOfWeek_offset in Hsame. unfold getDay.
  set (W := startOfWeek today) in *.
  destruct (Z.eqb_spec ((d + 4) mod 7) 1) as [Hmon|Hother].
  - assert (Hd : d = W) by (Z.to_euclidean_division_equations; lia).
    destruct (Z.leb_spec W (d + 13)); [|lia].
    destruct (Z.leb_spec (d + 13) (W + 6)); [lia|]. cbn [andb].
    destruct (Z.leb_spec (W + 7) (d + 13)); [|lia].
    destruct (Z.leb_spec (d + 13) (W + 13)); [|lia]. reflexivity.
  - assert (Hd : W + 1 <= d <= W + 6)
      by (Z.to_euclidean_division_equations; lia).
    destruct (Z.leb_spec W (d + 13)); [|lia].
    destruct (Z.leb_spec (d + 13) (W + 6)); [lia|]. cbn [andb].
    destruct (Z.leb_spec (W + 7) (d + 13)); [|lia].
    destruct (Z.leb_spec (d + 13) (W + 13)); [lia|]. cbn [andb].
    destruct (Z.leb_spec (W + 14) (d + 13)); [|lia].
    destruct (Z.leb_spec (d + 13) (W + 20)); [|lia]. reflexivity.
Qed.

Lemma X13_follow_up_week_witness :
  inRange 20095 (thisWeek 20097) = true
  /\ classifyWeek 20097 (addDays 20095 13) = "next2".
Proof.
  split; [vm_compute; reflexivity|].
  apply (X13_follow_up_week 20097 20095). vm_compute. reflexivity.
Defined.

(** *** The reminder lists *)

Section SplitSorted.
Context {A : Type} (f : A -> Z) (p q : A -> bool).
Hypothesis p_before_q : forall x y, p x = true -> q y = true -> f x < f y.

Lemma filter_none_after (x : A) (l : list A) :
  q x = true ->
  Forall (fun y => f x <= f y) l ->
  List.filter p l = [].
Proof.
  intros Hq Hall. induction Hall as [|y l Hy _ IH]; [reflexivity|].
  cbn [List.filter]. destruct (p y) eqn:Hp; [|exact IH].
  pose proof (p_before_q y x Hp Hq). lia.
Qed.

Lemma filter_split_sorted (l : list A) :
  StronglySorted (fun a b => f a <= f b) l ->
  List.filter p l ++ List.filter q l
  = List.filter (fun x => p x || q x) l.
Proof.
  induction 1 as [|x l Hs IH Hall]; [reflexivity|].
  cbn [List.filter]. destruct (p x) eqn:Hp; cbn [orb].
  - destruct (q x) eqn:Hq.
    + pose proof (p_before_q x x Hp Hq). lia.
    + cbn [app]. rewrite IH. reflexivity.
  - destruct (q x) eqn:Hq; [|exact IH].
    rewrite <- IH, (filter_none_after x l Hq Hall). reflexivity.
Qed.

End SplitSorted.

(** X14. The two reminder lists are the tasks of this week and of the next,
    each in date order; no task is in both, and one after the other they
    are exactly the tasks of the fourteen days from this week's Monday, in
    the order of the task list. *)
Theorem X14_reminder_lists (today : Date) (data : list NormalizedEvent) :
  tasksThisWeek today (tasks data) ++ tasksNextWeek today (tasks data)
  = List.filter
      (fun t => (startOfWeek today <=? date t)
                && (date t <=? startOfWeek today + 13))
      (tasks data)
  /\ (forall t, In t (tasksThisWeek today (tasks data)) <->
                In t (tasks data) /\ classifyWeek today (date t) = "this")
  /\ (forall t, In t (tasksNextWeek today (tasks data)) <->
                In t (tasks data) /\ classifyWeek today (date t) = "next").
Proof.
  assert (Hthis : forall d, inRange d (thisWeek today)
                  = (startOfWeek today <=? d) && (d <=? startOfWeek today + 6)).
  { intros d. unfold thisWeek.
    replace (weekBounds today) with (weekBounds (today + 7 * 0))
      by (f_equal; lia).
    rewrite inRange_week. f_equal; f_equal; lia. }
  assert (Hnext : forall d, inRange d (nextWeek today)
                  = (startOfWeek today + 7 <=? d)
                    && (d <=? startOfWeek today + 13)).
  { intros d. unfold nextWeek, addDays.
    replace (today + 7) with (today + 7 * 1) by lia.
    rewrite inRange_week. f_equal; f_equal; lia. }
  split; [|split].
  - unfold tasksThisWeek, tasksNextWeek.
    rewrite (filter_split_sorted date).
    + apply List.filter_ext. intros t. rewrite Hthis, Hnext.
      destruct (Z.leb_spec (startOfWeek today) (date t));
        destruct (Z.leb_spec (date t) (startOfWeek today + 6));
        destruct (Z.leb_spec (startOfWeek today + 7) (date t));
        destruct (Z.leb_spec (date t) (startOfWeek today + 13));
        try reflexivity; lia.
    + intros x y Hx Hy. rewrite Hthis in Hx. rewrite Hnext in Hy.
      rewrite andb_true_iff, !Z.leb_le in Hx, Hy. lia.
    + apply TaskOrderFacts.sortBy_number_sorted.
  - intros t. unfold tasksThisWeek. rewrite List.filter_In.
    rewrite classifyWeek_offsets, Hthis.
    destruct ((startOfWeek today <=? date t)
              && (date t <=? startOfWeek today + 6));
      [tauto|].
    split; [intros [_ Hf]; discriminate|]. intros [_ Hc].
    destruct ((startOfWeek today + 7 <=? date t)
              && (date t <=? startOfWeek today + 13)); [discriminate|].
    destruct ((startOfWeek today + 14 <=? date t)
              && (date t <=? startOfWeek today + 20)); discriminate.
  - intros t. unfold tasksNextWeek. rewrite List.filter_In.
    rewrite classifyWeek_offsets, Hnext.
    destruct (Z.leb_spec (startOfWeek today) (date t));
      destruct (Z.leb_spec (date t) (startOfWeek today + 6));
      destruct (Z.leb_spec (startOfWeek today + 7) (date t));
      destruct (Z.leb_spec (date t) (startOfWeek today + 13));
      cbn [andb]; try tauto; try lia;
      try (split; [intros [_ Hf]; discriminate|]; intros [_ Hc]).
    all: try discriminate.
    all: destruct ((startOfWeek today + 14 <=? date t)
                   && (date t <=? startOfWeek today + 20)); discriminate.
Qed.

End WeekFacts.

(* ===================================================================== *)
(** ** Completion keys and the campaign schedule *)
(* ===================================================================== *)

Module DoneFacts.
Import Js Cal DateFns Tracker View Spec ViewSpec.

Lemma includes_In (prev : list string) (k : string) :
  includes prev k = true <-> In k prev.
Proof.
  unfold includes. rewrite existsb_exists. split.
  - intros [x [Hx Heq]]. apply String.eqb_eq in Heq. subst x. exact Hx.
  - intros Hk. exists k. split; [exact Hk|apply String.eqb_refl].
Qed.

Lemma includes_false (prev : list string) (k : string) :
  includes prev k = false <-> ~ In k prev.
Proof.
  rewrite <- includes_In. destruct (includes prev k); split; congruence.
Qed.

Lemma toggleDone_In (prev : list string) (k x : string) :
  In x (toggleDone prev k) <->
  (x = k /\ ~ In k prev) \/ (x <> k /\ In x prev).
Proof.
  unfold toggleDone. destruct (includes prev k) eqn:Hk.
  - apply includes_In in Hk. rewrite List.filter_In, negb_true_iff.
    rewrite String.eqb_neq. split.
    + intros [Hx Hne]. right. split; assumption.
    + intros [[_ Hno]|[Hne Hx]]; [contradiction|]. split; assumption.
  - apply includes_false in Hk. rewrite List.in_app_iff. cbn [In]. split.
    + intros [Hx|[Heq|[]]].
      * right. split; [|exact Hx]. intros ->. contradiction.
      * left. subst x. split; [reflexivity|exact Hk].
    + intros [[-> _]|[_ Hx]]; [right; left; reflexivity|left; exact Hx].
Qed.

Lemma filter_absent (prev : list string) (k : string) :
  ~ In k prev ->
  List.filter (fun x => negb (String.eqb x k)) prev = prev.
Proof.
  induction prev as [|y prev IH]; intros Hk; [reflexivity|].
  cbn [List.filter]. destruct (String.eqb_spec y k) as [->|Hne].
  - exfalso. apply Hk. left. reflexivity.
  - cbn [negb]. rewrite IH; [reflexivity|].
    intros Hin. apply Hk. right. exact Hin.
Qed.

Lemma NoDup_filter_keys (f : string -> bool) (l : list string) :
  List.NoDup l -> List.NoDup (List.filter f l).
Proof.
  induction 1 as [|x l Hx Hnd IH]; [constructor|].
  cbn [List.filter]. destruct (f x); [|exact IH].
  constructor; [|exact IH]. rewrite List.filter_In. tauto.
Qed.

(** X15. Ticking a task's check box flips whether its key is among the
    completed keys and changes that of no other key, keeps the list free of
    repeated keys, and ticking twice a key that was not completed restores
    the list. *)
Theorem X15_toggle_done (prev : list string) (k : string) :
  includes (toggleDone prev k) k = negb (includes prev k)
  /\ (forall x, x <> k -> includes (toggleDone prev k) x = includes prev x)
  /\ (List.NoDup prev -> List.NoDup (toggleDone prev k))
  /\ (includes prev k = false -> toggleDone (toggleDone prev k) k = prev).
Proof.
  assert (Hbool : forall a b : bool, (a = true <-> b = true) -> a = b).
  { intros [|] [|] Hab; try reflexivity;
      [symmetry; apply Hab; reflexivity|apply Hab; reflexivity]. }
  split; [|split; [|split]].
  - apply Hbool. rewrite includes_In, toggleDone_In, negb_true_iff.
    rewrite includes_false. tauto.
  - intros x Hx. apply Hbool. rewrite !includes_In, toggleDone_In. tauto.
  - intros Hnd. unfold toggleDone. destruct (includes prev k) eqn:Hk.
    + apply NoDup_filter_keys, Hnd.
    + apply includes_false in Hk. apply List.NoDup_app.
      * exact Hnd.
      * constructor; [intros []|constructor].
      * intros x Hx [Heq|[]]. subst x. contradiction.
  - intros Hk. unfold toggleDone at 2. rewrite Hk.
    unfold toggleDone.
    assert (Hin : includes (prev ++ [k]) k = true).
    { apply includes_In, List.in_app_iff. right. left. reflexivity. }
    rewrite Hin, List.filter_app. cbn [List.filter].
    rewrite String.eqb_refl. cbn [negb].
    rewrite filter_absent by (apply includes_false, Hk).
    apply List.app_nil_r.
Qed.

(** *** The schedule *)

(** The keys the completion filter builds are the task keys. *)
Lemma tKey_idKey (r : NormalizedEvent) (d : Date) :
  String.append "text|"
    (String.append (formatISO d)
       (String.append "|"
          (String.append (campaign r)
             (String.append "|"
                (String.append (part r) (String.append "|" (batch r)))))))
  = idKeyOf text d r.
Proof. reflexivity. Qed.

Lemma vKey_idKey (r : NormalizedEvent) (d : Date) :
  String.append "vm|"
    (String.append (formatISO d)
       (String.append "|"
          (String.append (campaign r)
             (String.append "|"
                (String.append (part r) (String.append "|" (batch r)))))))
  = idKeyOf vm d r.
Proof. reflexivity. Qed.

(** X16. With "hide completed" off the schedule hides no row for
    completion.  With it on, a row is shown exactly when one of the text or
    voicemail tasks made from the event has a key that is not among the
    completed keys: the keys the filter builds are the keys of those tasks,
    the mail task plays no part, and an event with neither text nor
    voicemail is always hidden. *)
Theorem X16_hide_completed (doneKeys : list string) (r : NormalizedEvent) :
  notCompleted false doneKeys r = true
  /\ notCompleted true doneKeys r
     = existsb
         (fun t =>
            match type t with
            | mail => false
            | _ => negb (includes doneKeys (idKey t))
            end)
         (pushTasks [] r)
  /\ (hasText r = false -> hasVM r = false ->
      notCompleted true doneKeys r = false).
Proof.
  split; [reflexivity|]. split.
  - unfold notCompleted. cbv zeta. cbn [negb].
    rewrite tKey_idKey, vKey_idKey. unfold pushTasks. cbv zeta.
    destruct (hasMail r), (hasText r), (hasVM r);
      cbn [app existsb type idKey negb orb andb];
      repeat match goal with
             | |- context [includes doneKeys ?k] =>
                 destruct (includes doneKeys k)
             end;
      reflexivity.
  - intros Ht Hv. unfold notCompleted. cbv zeta. rewrite Ht, Hv. reflexivity.
Qed.

Lemma filter_sorted {A : Type} (R : A -> A -> Prop) (f : A -> bool)
  (l : list A) :
  StronglySorted R l -> StronglySorted R (List.filter f l).
Proof.
  induction 1 as [|x l Hs IH Hall]; [constructor|].
  cbn [List.filter]. destruct (f x); [|exact IH].
  constructor; [exact IH|].
  rewrite List.Forall_forall in *. intros y Hy.
  apply List.filter_In in Hy. apply Hall, Hy.
Qed.

(** X17. The schedule lists events in the order of their dates.  An event
    is listed exactly when it is in the data, its date is not before today
    if "hide past" is on, and the completion filter lets it through; with
    both switches off every event is listed. *)
Theorem X17_schedule_rows (hidePast hideCompleted : bool)
  (doneKeys : list string) (today : Date) (data : list NormalizedEvent) :
  StronglySorted (fun a b => mailDate a <= mailDate b)
    (scheduleRows hidePast hideCompleted doneKeys today data)
  /\ (forall r,
        In r (scheduleRows hidePast hideCompleted doneKeys today data) <->
        In r data
        /\ (hidePast = true -> today <= mailDate r)
        /\ notCompleted hideCompleted doneKeys r = true)
  /\ Permutation (scheduleRows false false doneKeys today data) data.
Proof.
  split; [|split].
  - unfold scheduleRows. do 2 apply filter_sorted.
    apply TaskOrderFacts.sortBy_number_sorted.
  - intros r. unfold scheduleRows. rewrite !List.filter_In.
    rewrite TaskFacts.sortBy_In, orb_true_iff, negb_true_iff.
    rewrite Z.leb_le. destruct hidePast; intuition congruence.
  - unfold scheduleRows. cbn [negb orb].
    assert (Hall : forall (A : Type) (l : list A),
               List.filter (fun _ => true) l = l).
    { intros A l. induction l as [|x l IH]; [reflexivity|].
      cbn. rewrite IH. reflexivity. }
    unfold notCompleted. cbn [negb]. rewrite !Hall.
    apply TaskFacts.sortBy_perm.
Qed.

End DoneFacts.

(* ===================================================================== *)
(** ** Monthly and weekly totals *)
(* ===================================================================== *)

Module TotalFacts.
Import Js Cal DateFns Tracker View Spec ViewSpec.
Import CalendarFacts MonthCalendar.

(** *** Sums *)

Lemma filter_none {A : Type} (l : list A) :
  List.filter (fun _ => false) l = [].
Proof. induction l as [|x l IH]; [reflexivity|exact IH]. Qed.







Section Partition.
Context {K : Type} (eqb : K -> K -> bool).
Hypothesis eqb_spec : forall a b, eqb a b = true <-> a = b.



End Partition.



(** *** The rows of the viewed month *)








(** *** The week map *)




Lemma mapGet_absent {V : Type} (m : list (string * V)) (k : string) :
  mapGet m k = None -> ~ In k (map fst m).
Proof.
  induction m as [|[k0 v0] m IH]; cbn [mapGet map fst]; [intros _ []|].
  destruct (String.eqb_spec k0 k) as [->|Hne]; [discriminate|].
  intros Hm [Heq|Hin]; [congruence|]. exact (IH Hm Hin).
Qed.

Section Month.
Variable v : Date.







End Month.







End TotalFacts.

(* ===================================================================== *)
(** ** The calendar grid, month navigation and the gauges *)
(* ===================================================================== *)

Module GridFacts.
Import Js Cal DateFns Tracker View Spec ViewSpec.
Import CalendarFacts MonthCalendar.

Lemma days_from (a : Z) (n : nat) (l : list Task) :
  StronglySorted (fun x y => date x <= date y) l ->
  concat (map (fun d => List.filter (fun t => isSameDay (date t) d) l)
            (map (fun i => a + Z.of_nat i) (List.seq 0 n)))
  = List.filter (fun t => (a <=? date t) && (date t <=? a + Z.of_nat n - 1)) l.
Proof.
  intros Hs. revert a. induction n as [|n IH]; intros a.
  - cbn [List.seq map concat]. symmetry.
    erewrite List.filter_ext; [apply TotalFacts.filter_none|].
    intros t. cbn beta.
    destruct (Z.leb_spec a (date t)), (Z.leb_spec (date t) (a + Z.of_nat 0 - 1));
      try reflexivity; lia.
  - cbn [List.seq map concat]. rewrite <- List.seq_shift, !map_map.
    erewrite (map_ext (fun x => List.filter _ l)).
    2:{ intros i. replace (a + Z.of_nat (S i)) with (a + 1 + Z.of_nat i) by lia.
        reflexivity. }
    rewrite <- (map_map (fun i => a + 1 + Z.of_nat i)
                  (fun d => List.filter (fun t => isSameDay (date t) d) l)).
    rewrite IH. replace (a + Z.of_nat 0) with a by lia.
    rewrite (WeekFacts.filter_split_sorted date); [|
      |exact Hs].
    + apply List.filter_ext. intros t. unfold isSameDay.
      destruct (Z.eqb_spec (date t) a), (Z.leb_spec (a + 1) (date t)),
        (Z.leb_spec (date t) (a + 1 + Z.of_nat n - 1)),
        (Z.leb_spec a (date t)), (Z.leb_spec (date t) (a + Z.of_nat (S n) - 1));
        cbn [andb orb]; try reflexivity; lia.
    + intros x y Hx Hy. unfold isSameDay in Hx.
      apply Z.eqb_eq in Hx. apply andb_prop in Hy. destruct Hy as [Hy _].
      apply Z.leb_le in Hy. lia.
Qed.


Lemma grid_weeks (v : Date) :
  exists k,
    4 <= k <= 6
    /\ endOfWeek (endOfMonth v) - startOfWeek (startOfMonth v) + 1 = 7 * k.
Proof.
  rewrite endOfWeek_start, !startOfWeek_offset.
  pose proof (month_length v) as Hlen.
  set (a := startOfMonth v) in *. set (b := endOfMonth v) in *.
  exists ((b - (b + 3) mod 7 + 6 - (a - (a + 3) mod 7) + 1) / 7).
  divlia.
Qed.

(** X20. The calendar grid of the viewed month is a run of consecutive days
    that starts on a Monday and ends on a Sunday, four to six whole weeks
    long, and holds every day of the month.  Each cell holds the tasks of
    its day, and the cells read in order hold every task dated within the
    grid exactly once, in the order of the task list. *)
Theorem X20_calendar_grid (v : Date) (data : list NormalizedEvent) :
  let first := startOfWeek (startOfMonth v) in
  let cells := monthDays v (tasks data) in
  getDay first = 1
  /\ (exists k, 4 <= k <= 6 /\ Z.of_nat (length cells) = 7 * k)
  /\ map cellDate cells
     = map (fun i => first + Z.of_nat i) (List.seq 0 (length cells))
  /\ (forall d, startOfMonth v <= d <= endOfMonth v ->
                In d (map cellDate cells))
  /\ (forall c t, In c cells ->
                  (In t (cellTasks c) <->
                   In t (tasks data) /\ date t = cellDate c))
  /\ concat (map cellTasks cells)
     = List.filter
         (fun t => (first <=? date t)
                   && (date t <=? first + Z.of_nat (length cells) - 1))
         (tasks data).
Proof.
  cbv zeta. destruct (grid_weeks v) as [k [Hk Hlen]].
  assert (Hcells : length (monthDays v (tasks data))
                   = Z.to_nat (endOfWeek (endOfMonth v)
                               - startOfWeek (startOfMonth v) + 1)).
  { unfold monthDays, eachDayOfInterval. cbv zeta. cbn [start finish].
    rewrite !length_map, List.length_seq. reflexivity. }
  assert (Hdates : map cellDate (monthDays v (tasks data))
                   = map (fun i => startOfWeek (startOfMonth v) + Z.of_nat i)
                       (List.seq 0 (length (monthDays v (tasks data))))).
  { rewrite Hcells. unfold monthDays, eachDayOfInterval. cbv zeta.
    cbn [start finish]. rewrite map_map. cbn [cellDate]. rewrite map_id.
    reflexivity. }
  split; [apply startOfWeek_monday|].
  split; [exists k; split; [exact Hk|]; rewrite Hcells; lia|].
  split; [exact Hdates|]. split; [|split].
  - intros d Hd. rewrite Hdates, Hcells, in_map_iff.
    exists (Z.to_nat (d - startOfWeek (startOfMonth v))).
    pose proof (startOfWeek_bounds (startOfMonth v)).
    pose proof (startOfWeek_bounds (endOfMonth v)).
    rewrite endOfWeek_start. split; [lia|]. apply List.in_seq. lia.
  - intros c t Hc. unfold monthDays in Hc. cbv zeta in Hc.
    apply in_map_iff in Hc. destruct Hc as [d [<- _]].
    cbn [cellTasks cellDate]. rewrite List.filter_In. unfold isSameDay.
    rewrite Z.eqb_eq. reflexivity.
  - rewrite Hcells. unfold monthDays, eachDayOfInterval. cbv zeta.
    cbn [start finish]. rewrite !map_map. cbn [cellTasks].
    rewrite <- (map_map
                  (fun i => startOfWeek (startOfMonth v) + Z.of_nat i)
                  (fun d =>
                     List.filter (fun t => isSameDay (date t) d) (tasks data))).
    apply days_from. apply TaskOrderFacts.sortBy_number_sorted.
Qed.

(** *** Prev and Next *)

Lemma prevView_last (v : Date) : endOfMonth (prevView v) = prevView v.
Proof.
  unfold prevView, addDays. set (p := startOfMonth v + -1).
  pose proof (endOfMonth_ge p) as Hge.
  destruct (Z.le_gt_cases (endOfMonth p) p) as [Hle|Hgt]; [lia|].
  exfalso.
  assert (Hin : startOfMonth p <= startOfMonth v <= endOfMonth p).
  { pose proof (startOfMonth_le p). lia. }
  apply month_range in Hin.
  destruct (startOfMonth_index v) as [Hidx _]. rewrite Hidx in Hin.
  assert (Hp : startOfMonth v <= p <= endOfMonth v).
  { apply month_range. symmetry. exact Hin. }
  lia.
Qed.

(** X21. The Next button moves the view to the first day of the following
    month and the Prev button to the last day of the preceding month, one
    month at a time; Prev then Next lands on the first day of the month it
    started from, and Next then Prev on its last day. *)
Theorem X21_month_navigation (v : Date) :
  monthIndex (nextView v) = monthIndex v + 1
  /\ getDate (nextView v) = 1
  /\ monthIndex (prevView v) = monthIndex v - 1
  /\ endOfMonth (prevView v) = prevView v
  /\ nextView (prevView v) = startOfMonth v
  /\ prevView (nextView v) = endOfMonth v.
Proof.
  pose proof (endOfMonth_next v) as [Hnext Hfirst].
  pose proof (prevView_last v) as Hlast.
  assert (Hback : nextView (prevView v) = startOfMonth v).
  { unfold nextView. rewrite Hlast. unfold prevView, addDays. lia. }
  split; [exact Hnext|]. split; [exact Hfirst|]. split; [|split; [|split]].
  - pose proof (endOfMonth_next (prevView v)) as [Hp _].
    fold (addDays (endOfMonth (prevView v)) 1) in Hp.
    fold (nextView (prevView v)) in Hp. rewrite Hback in Hp.
    destruct (startOfMonth_index v) as [Hidx _]. lia.
  - exact Hlast.
  - exact Hback.
  - unfold prevView, nextView, addDays, startOfMonth. rewrite Hfirst. lia.
Qed.

(** *** The target gauge and the chart scale *)

Lemma mathMax_spec (a b : Q) :
  (a <= mathMax a b /\ b <= mathMax a b)%Q
  /\ (mathMax a b = a \/ mathMax a b = b).
Proof.
  unfold mathMax. destruct (Qle_bool a b) eqn:Hab.
  - apply Qle_bool_iff in Hab. split; [split; [exact Hab|apply Qle_refl]|].
    right. reflexivity.
  - split; [|left; reflexivity]. split; [apply Qle_refl|].
    apply Qlt_le_weak, Qnot_le_lt. intros Hle.
    apply Qle_bool_iff in Hle. congruence.
Qed.

Lemma mathMin_spec (a b : Q) :
  (mathMin a b <= a /\ mathMin a b <= b)%Q
  /\ (mathMin a b = a \/ mathMin a b = b).
Proof.
  unfold mathMin. destruct (Qle_bool a b) eqn:Hab.
  - apply Qle_bool_iff in Hab. split; [split; [apply Qle_refl|exact Hab]|].
    left. reflexivity.
  - split; [|right; reflexivity]. split; [|apply Qle_refl].
    apply Qlt_le_weak, Qnot_le_lt. intros Hle.
    apply Qle_bool_iff in Hle. congruence.
Qed.

Lemma pct_scale (t : Q) : (t / targetMax * 100 == t * (1 # 100))%Q.
Proof. unfold targetMax. field. Qed.

(** X22. The gauge of the monthly target is never below 0 nor above 100 and
    never falls when the total grows; it is 0 for a total that is not
    positive and 100 from the upper target on, and a total within the
    target range shows at least 90. *)
Theorem X22_target_gauge (t t' : Q) :
  (0 <= pct t <= 100)%Q
  /\ ((t <= t')%Q -> (pct t <= pct t')%Q)
  /\ ((t <= 0)%Q -> (pct t == 0)%Q)
  /\ ((targetMax <= t)%Q -> (pct t == 100)%Q)
  /\ (inTarget t = true <-> (targetMin <= t <= targetMax)%Q)
  /\ (inTarget t = true -> (90 <= pct t)%Q).
Proof.
  assert (Hpct : forall x : Q,
             ((x <= 0 -> pct x == 0)
              /\ (0 <= x -> x <= 10000 -> pct x == x * (1 # 100))
              /\ (10000 <= x -> pct x == 100))%Q).
  { intros x. unfold pct.
    pose proof (pct_scale x) as Hs.
    destruct (mathMin_spec 100 (x / targetMax * 100)) as [[Hm1 Hm2] Hm].
    destruct (mathMax_spec 0 (mathMin 100 (x / targetMax * 100)))
      as [[HM1 HM2] HM].
    set (m := mathMin 100 (x / targetMax * 100)) in *.
    set (M := mathMax 0 m) in *.
    repeat split; intros; destruct Hm as [Hm|Hm], HM as [HM|HM];
      rewrite ?HM, ?Hm in *; rewrite ?Hs in *; try reflexivity; lra. }
  assert (Hin : inTarget t = true <-> (targetMin <= t <= targetMax)%Q).
  { unfold inTarget. rewrite andb_true_iff, !Qle_bool_iff. reflexivity. }
  destruct (Hpct t) as [Hlow [Hmid Hhigh]].
  destruct (Hpct t') as [Hlow' [Hmid' Hhigh']].
  unfold targetMin, targetMax in *.
  split; [|split; [|split; [|split; [|split]]]].
  - destruct (Qlt_le_dec t 0) as [H0|H0];
      [rewrite Hlow by lra; lra|].
    destruct (Qlt_le_dec 10000 t) as [H1|H1];
      [rewrite Hhigh by lra; lra|].
    rewrite Hmid by lra. lra.
  - intros Hle.
    destruct (Qlt_le_dec t 0) as [H0|H0];
      destruct (Qlt_le_dec 10000 t) as [H1|H1];
      destruct (Qlt_le_dec t' 0) as [H0'|H0'];
      destruct (Qlt_le_dec 10000 t') as [H1'|H1'];
      try lra;
      rewrite ?(Hlow ltac:(lra)), ?(Hhigh ltac:(lra)),
        ?(Hlow' ltac:(lra)), ?(Hhigh' ltac:(lra));
      try rewrite (Hmid ltac:(lra) ltac:(lra));
      try rewrite (Hmid' ltac:(lra) ltac:(lra)); lra.
  - exact Hlow.
  - exact Hhigh.
  - exact Hin.
  - intros Ht. apply Hin in Ht. rewrite Hmid by lra. lra.
Qed.

Lemma chartMax_fold (l : list ChartMonth) (m0 : Q) :
  (0 <= m0)%Q ->
  let m := fold_left (fun m x => mathMax m (qOrZero (chartTotal x))) l m0 in
  (m0 <= m)%Q /\ forall x, In x l -> (chartTotal x <= m)%Q.
Proof.
  revert m0. induction l as [|y l IH]; intros m0 Hm0; cbv zeta.
  - cbn [fold_left]. split; [apply Qle_refl|intros x []].
  - cbn [fold_left].
    destruct (mathMax_spec m0 (qOrZero (chartTotal y))) as [[H1 H2] _].
    destruct (IH (mathMax m0 (qOrZero (chartTotal y))) ltac:(lra))
      as [Hge Hall].
    cbv zeta in Hge, Hall. split; [lra|].
    intros x [<-|Hx]; [|apply Hall, Hx].
    assert (Hy : (chartTotal y <= qOrZero (chartTotal y))%Q).
    { unfold qOrZero. destruct (Qeq_bool (chartTotal y) 0) eqn:Hz;
        [apply Qeq_bool_eq in Hz; lra|apply Qle_refl]. }
    lra.
Qed.

(** X23. The scale of the chart is positive and no month's total exceeds
    it, so no bar of the chart is higher than the full height; it is 1 when
    no total is positive. *)
Theorem X23_chart_scale (chartMonths : list ChartMonth) :
  (0 < chartMax chartMonths)%Q
  /\ (forall x, In x chartMonths ->
                (chartTotal x <= chartMax chartMonths)%Q
                /\ (chartTotal x / chartMax chartMonths * 36 <= 36)%Q)
  /\ ((forall x, In x chartMonths -> (chartTotal x <= 0)%Q) ->
      (chartMax chartMonths == 1)%Q).
Proof.
  destruct (chartMax_fold chartMonths 0 ltac:(lra)) as [Hge Hall].
  cbv zeta in Hge, Hall.
  assert (Hpos : (0 < chartMax chartMonths)%Q).
  { unfold chartMax. cbv zeta.
    destruct (Qeq_bool (fold_left _ chartMonths 0%Q) 0) eqn:Hz; [lra|].
    apply Qeq_bool_neq in Hz. lra. }
  assert (Hbound : forall x, In x chartMonths ->
                             (chartTotal x <= chartMax chartMonths)%Q).
  { intros x Hx. specialize (Hall x Hx). unfold chartMax. cbv zeta.
    destruct (Qeq_bool (fold_left _ chartMonths 0%Q) 0) eqn:Hz; [|exact Hall].
    apply Qeq_bool_eq in Hz. lra. }
  split; [exact Hpos|]. split.
  - intros x Hx. split; [apply Hbound, Hx|].
    specialize (Hbound x Hx).
    assert (Hfrac : (chartTotal x / chartMax chartMonths <= 1)%Q).
    { apply Qle_shift_div_r; [exact Hpos|]. lra. }
    lra.
  - intros Hnone. unfold chartMax. cbv zeta.
    assert (Hzero : forall l m0,
               (m0 == 0)%Q ->
               (forall x, In x l -> (chartTotal x <= 0)%Q) ->
               (fold_left (fun m x => mathMax m (qOrZero (chartTotal x))) l m0
                == 0)%Q).
    { induction l as [|y l IH]; intros m0 Hm0 Hl; [exact Hm0|].
      cbn [fold_left]. apply IH; [|intros x Hx; apply Hl; right; exact Hx].
      assert (Hy : (chartTotal y <= 0)%Q) by (apply Hl; left; reflexivity).
      assert (Hq : (qOrZero (chartTotal y) <= 0)%Q).
      { unfold qOrZero. destruct (Qeq_bool (chartTotal y) 0); lra. }
      destruct (mathMax_spec m0 (qOrZero (chartTotal y)))
        as [[H1 H2] [Hmax|Hmax]]; rewrite Hmax in *; lra. }
    destruct (Qeq_bool (fold_left _ chartMonths 0%Q) 0) eqn:Hz;
      [reflexivity|].
    apply Qeq_bool_neq in Hz. exfalso. apply Hz.
    apply Hzero; [reflexivity|exact Hnone].
Qed.

End GridFacts.

(* ===================================================================== *)
(** ** The cadence matrix *)
(* ===================================================================== *)

Module MatrixFacts.
Import Js Cal DateFns Tracker View Spec ViewSpec.

Lemma filter_snoc {A : Type} (f : A -> bool) (l : list A) (x : A) :
  List.filter f (l ++ [x]) = List.filter f l ++ (if f x then [x] else []).
Proof. rewrite List.filter_app. reflexivity. Qed.

(** After any prefix of the loop the map holds, under distinct keys, the
    events of each key met so far, in their order in the data. *)
Lemma cadenceGroups_spec (data : list NormalizedEvent) :
  List.NoDup (map fst (cadenceGroups data))
  /\ forall k,
       mapGet (cadenceGroups data) k
       = match List.filter (fun r => String.eqb (groupKey r) k) data with
         | [] => None
         | l => Some l
         end.
Proof.
  unfold cadenceGroups.
  induction data as [|r data [IHnd IHget]] using rev_ind.
  - split; [constructor|reflexivity].
  - rewrite fold_left_app. cbn [fold_left]. unfold addToGroup at 1 3.
    cbv zeta. split; [apply MapFacts.mapSet_NoDup, IHnd|].
    intros k. rewrite MapFacts.mapGet_mapSet, filter_snoc, !IHget.
    destruct (String.eqb_spec (groupKey r) k) as [Hk|Hk].
    + subst k. destruct (List.filter _ data) as [|x l]; reflexivity.
    + rewrite List.app_nil_r. reflexivity.
Qed.

Lemma cadenceGroups_In (data : list NormalizedEvent) (k : string)
  (arr : list NormalizedEvent) :
  In (k, arr) (cadenceGroups data) <->
  arr <> [] /\ arr = List.filter (fun r => String.eqb (groupKey r) k) data.
Proof.
  destruct (cadenceGroups_spec data) as [Hnd Hget].
  rewrite (MapFacts.mapGet_In _ _ _ Hnd), Hget.
  destruct (List.filter _ data) as [|x l]; split.
  - discriminate.
  - intros [Hne ->]. contradiction.
  - intros [= <-]. split; [discriminate|reflexivity].
  - intros [_ ->]. reflexivity.
Qed.

(** X24. The cadence groups split the events by group key: the keys are
    distinct, the group of a key holds exactly the events with that key, in
    their order in the data, no group is empty, and every event is in the
    group of its key. *)
Theorem X24_cadence_groups (data : list NormalizedEvent) :
  List.NoDup (map fst (cadenceGroups data))
  /\ (forall k arr,
        In (k, arr) (cadenceGroups data) <->
        arr <> []
        /\ arr = List.filter (fun r => String.eqb (groupKey r) k) data)
  /\ (forall r, In r data ->
        exists arr, In (groupKey r, arr) (cadenceGroups data) /\ In r arr).
Proof.
  split; [apply cadenceGroups_spec|]. split; [apply cadenceGroups_In|].
  intros r Hr.
  exists (List.filter (fun x => String.eqb (groupKey x) (groupKey r)) data).
  assert (Hin : In r (List.filter
                        (fun x => String.eqb (groupKey x) (groupKey r)) data)).
  { apply List.filter_In. split; [exact Hr|apply String.eqb_refl]. }
  split; [|exact Hin]. apply cadenceGroups_In. split; [|reflexivity].
  intros Hnil. rewrite Hnil in Hin. destruct Hin.
Qed.

(** *** The rows *)






End MatrixFacts.
